(** * Equilibration-based initialisation and incompressible PVT properties

    A shallow embedding of

    - [opm/core/props/pvt/PvtPropertiesIncompFromDeck.cpp]
    - [opm/core/simulator/initStateEquil.hpp]

    C++ [double]s are IEEE binary64 values, modelled by Rocq's primitive
    floats; [int]s are modelled in [Z] with the 32-bit wrap-around written
    out where arithmetic is done on them; [std::vector]s are lists read with
    stdpp's lookup and written with stdpp's insert, an access outside the
    vector being undefined behaviour ([Undefined]) as in C++. *)

From Stdlib Require Import ZArith Lia String Bool.
From Stdlib Require Import Floats.PrimFloat.
From Stdlib Require Floats.SpecFloat Floats.FloatOps Floats.FloatAxioms.
From stdpp Require Import base list option.

#[local] Set Warnings "-inexact-float".
#[local] Open Scope Z_scope.

(** ** Exceptions and outcomes *)

(** A message assembled with [<<]: string pieces and streamed integers. *)
Inductive piece : Type :=
| Str (s : string)
| Num (z : Z)
| Newline.

Definition message : Type := list piece.

(** The two exception classes thrown through [OPM_THROW] in the sources. *)
Inductive exception : Type :=
| domain_error (what : message)
| runtime_error (what : message).

Definition is_domain_error (e : exception) : bool :=
  match e with domain_error _ => true | runtime_error _ => false end.

Definition is_runtime_error (e : exception) : bool :=
  match e with runtime_error _ => true | domain_error _ => false end.

(** What running a piece of C++ can lead to: a value, a thrown exception, or
    undefined behaviour (an out-of-range [operator[]], dereferencing the
    [begin()] of an empty range). *)
Inductive outcome (A : Type) : Type :=
| Ok (a : A)
| Throw (e : exception)
| Undefined.

Arguments Ok {A} a.
Arguments Throw {A} e.
Arguments Undefined {A}.

#[global] Instance outcome_ret : MRet outcome := fun A a => Ok a.
#[global] Instance outcome_bind : MBind outcome := fun A B k m =>
  match m with
  | Ok a => k a
  | Throw e => Throw e
  | Undefined => Undefined
  end.

(** [v[i]] on a [std::vector]: undefined outside the vector. *)
Definition at_index {A : Type} (v : list A) (i : nat) : outcome A :=
  match v !! i with
  | Some x => Ok x
  | None => Undefined
  end.

(** [v[i] = x] on a [std::vector]: undefined outside the vector. *)
Definition assign_index {A : Type} (v : list A) (i : nat) (x : A) : outcome (list A) :=
  if decide (i < length v)%nat then Ok (<[i := x]> v) else Undefined.

(** A [for] loop whose body produces one value per iteration
    ([push_back] into a result vector). *)
Fixpoint for_each {A B : Type} (body : A -> outcome B) (l : list A) : outcome (list B) :=
  match l with
  | [] => Ok []
  | a :: l' =>
      b ← body a;
      bs ← for_each body l';
      Ok (b :: bs)
  end.

(** A [for] loop whose body updates the state it runs in. *)
Fixpoint for_loop {A S : Type} (body : A -> S -> outcome S) (l : list A) (s : S) : outcome S :=
  match l with
  | [] => Ok s
  | a :: l' =>
      s' ← body a s;
      for_loop body l' s'
  end.

(** Member functions that mutate [*this] and may throw: state passing, the
    state reached at the point of a throw being kept. *)
Definition M (S A : Type) : Type := S -> outcome A * S.

Definition ret {S A : Type} (a : A) : M S A := fun s => (Ok a, s).

Definition bind {S A B : Type} (m : M S A) (k : A -> M S B) : M S B :=
  fun s =>
    match m s with
    | (Ok a, s') => k a s'
    | (Throw e, s') => (Throw e, s')
    | (Undefined, s') => (Undefined, s')
    end.

Definition OPM_THROW {S A : Type} (e : exception) : M S A := fun s => (Throw e, s).

Definition lift {S A : Type} (o : outcome A) : M S A := fun s => (o, s).

Definition get_self {S : Type} : M S S := fun s => (Ok s, s).

Definition put_self {S : Type} (s : S) : M S unit := fun _ => (Ok tt, s).

Definition modify {S : Type} (f : S -> S) : M S unit := fun s => (Ok tt, f s).

(** [OPM_MESSAGE] prints to the console; nothing in the object changes. *)
Definition OPM_MESSAGE {S : Type} (_ : string) : M S unit := ret tt.

Declare Scope cpp_scope.
Delimit Scope cpp_scope with cpp.
Notation "x <- m ;; k" := (bind m (fun x => k))
  (at level 100, m at next level, k at level 200, right associativity) : cpp_scope.
Notation "m ;;; k" := (bind m (fun _ => k))
  (at level 100, k at level 200, right associativity) : cpp_scope.

(** A [for] loop in a member function: each turn may mutate [*this] and may
    throw, and what the turns before have done to [*this] stays done. *)
Fixpoint for_M {A S : Type} (body : A -> M S unit) (l : list A) : M S unit :=
  match l with
  | [] => ret tt
  | a :: l' => bind (body a) (fun _ => for_M body l')
  end.

(** The results of the turns of a loop before the first that does not
    return. *)
Fixpoint returned_before {A B : Type} (f : A -> outcome B) (l : list A) : list B :=
  match l with
  | [] => []
  | a :: l' =>
      match f a with
      | Ok b => b :: returned_before f l'
      | _ => []
      end
  end.

(** ** Phases and their use (BlackoilPhases) *)

(** [enum PhaseIndex { Aqua = 0, Liquid = 1, Vapour = 2 }]. *)
Inductive PhaseIndex : Type := Aqua | Liquid | Vapour.

Record PhaseUsage : Type := {
  num_phases : nat;
  phase_used : PhaseIndex -> bool;
  phase_pos : PhaseIndex -> nat
}.

(** ** PvtPropertiesIncompFromDeck *)

Module PvtPropertiesIncompFromDeck.

(** [std::array<double, 2>]. *)
Definition array2 : Type := (float * float)%type.

Definition array_get (a : array2) (i : nat) : outcome float :=
  match i with
  | 0%nat => Ok (fst a)
  | 1%nat => Ok (snd a)
  | _ => Undefined
  end.

Definition array_set (a : array2) (i : nat) (x : float) : outcome array2 :=
  match i with
  | 0%nat => Ok (x, snd a)
  | 1%nat => Ok (fst a, x)
  | _ => Undefined
  end.

(** Record 0 of the keywords read by [init], with the items it reads. *)
Record DensityRecord : Type := { OIL : float; WATER : float; GAS : float }.

Record PvtwRecord : Type := {
  WATER_VOL_FACTOR : float;
  WATER_COMPRESSIBILITY : float;
  WATER_VISCOSITY : float;
  WATER_VISCOSIBILITY : float
}.

Record PvcdoRecord : Type := {
  OIL_VOL_FACTOR : float;
  OIL_COMPRESSIBILITY : float;
  OIL_VISCOSITY : float;
  OIL_VISCOSIBILITY : float
}.

(** The deck as [init] sees it: [hasKeyword k] is whether the field is
    [Some], [getKeyword k ->getRecord(region_number)] its content. *)
Record Deck : Type := {
  DENSITY : option DensityRecord;
  PVTW : option PvtwRecord;
  PVCDO : option PvcdoRecord
}.

(** The data members of the class. *)
Record t : Type := {
  surface_density_ : array2;
  reservoir_density_ : array2;
  viscosity_ : array2
}.

Definition set_surface_density (i : nat) (x : float) : M t unit :=
  (self <- get_self;;
   a <- lift (array_set (surface_density_ self) i x);;
   put_self {| surface_density_ := a;
               reservoir_density_ := reservoir_density_ self;
               viscosity_ := viscosity_ self |})%cpp.

Definition divide_reservoir_density (i : nat) (x : float) : M t unit :=
  (self <- get_self;;
   old <- lift (array_get (reservoir_density_ self) i);;
   a <- lift (array_set (reservoir_density_ self) i (old / x)%float);;
   put_self {| surface_density_ := surface_density_ self;
               reservoir_density_ := a;
               viscosity_ := viscosity_ self |})%cpp.

Definition set_viscosity (i : nat) (x : float) : M t unit :=
  (self <- get_self;;
   a <- lift (array_set (viscosity_ self) i x);;
   put_self {| surface_density_ := surface_density_ self;
               reservoir_density_ := reservoir_density_ self;
               viscosity_ := a |})%cpp.

Definition copy_surface_to_reservoir : M t unit :=
  (self <- get_self;;
   put_self {| surface_density_ := surface_density_ self;
               reservoir_density_ := surface_density_ self;
               viscosity_ := viscosity_ self |})%cpp.

Definition nonzero (x : float) : bool := negb (x =? 0)%float.

(** The phase usage [init] accepts. *)
Definition water_and_oil_only (pu : PhaseUsage) : bool :=
  negb (phase_used pu Vapour) && phase_used pu Aqua && phase_used pu Liquid.

Section Init.

(** [phaseUsageFromDeck] is declared in [phaseUsageFromDeck.hpp] and
    defined elsewhere: it is a parameter of [init]. *)
Variable phaseUsageFromDeck : Deck -> PhaseUsage.

Definition init (deck : Deck) : M t unit :=
  (let phase_usage := phaseUsageFromDeck deck in
   (if phase_used phase_usage Vapour
       || negb (phase_used phase_usage Aqua)
       || negb (phase_used phase_usage Liquid)
    then OPM_THROW (runtime_error
           [Str "PvtPropertiesIncompFromDeck::init() -- must have gas and oil phases (only) in deck input."])
    else ret tt);;;
   (* Surface densities. *)
   match DENSITY deck with
   | Some densityRecord =>
       set_surface_density (phase_pos phase_usage Aqua) (OIL densityRecord);;;
       set_surface_density (phase_pos phase_usage Liquid) (WATER densityRecord)
   | None => OPM_THROW (runtime_error [Str "Input is missing DENSITY"])
   end;;;
   copy_surface_to_reservoir;;;
   (* Water viscosity. *)
   match PVTW deck with
   | Some pvtwRecord =>
       (if nonzero (WATER_COMPRESSIBILITY pvtwRecord)
           || nonzero (WATER_VISCOSIBILITY pvtwRecord)
        then OPM_MESSAGE "Compressibility effects in PVTW are ignored."
        else ret tt);;;
       divide_reservoir_density (phase_pos phase_usage Aqua) (WATER_VOL_FACTOR pvtwRecord);;;
       set_viscosity (phase_pos phase_usage Aqua) (WATER_VISCOSITY pvtwRecord)
   | None => OPM_THROW (runtime_error [Str "Input is missing PVTW"])
   end;;;
   (* Oil viscosity. *)
   match PVCDO deck with
   | Some pvcdoRecord =>
       (if nonzero (OIL_COMPRESSIBILITY pvcdoRecord)
           || nonzero (OIL_VISCOSIBILITY pvcdoRecord)
        then OPM_MESSAGE "Compressibility effects in PVCDO are ignored."
        else ret tt);;;
       divide_reservoir_density (phase_pos phase_usage Liquid) (OIL_VOL_FACTOR pvcdoRecord);;;
       set_viscosity (phase_pos phase_usage Liquid) (OIL_VISCOSITY pvcdoRecord)
   | None => OPM_THROW (runtime_error [Str "Input is missing PVCDO"])
   end)%cpp.

End Init.

Definition surfaceDensities (self : t) : array2 := surface_density_ self.
Definition reservoirDensities (self : t) : array2 := reservoir_density_ self.
Definition viscosity (self : t) : array2 := viscosity_ self.
Definition numPhases (self : t) : Z := 2.

End PvtPropertiesIncompFromDeck.

(** ** Equilibration (initStateEquil.hpp) *)

(** [int] arithmetic: 32 bits, two's complement. *)
Definition INT_MIN : Z := - 2 ^ 31.
Definition INT_MAX : Z := 2 ^ 31 - 1.
Definition wrap_int (z : Z) : Z := (z + 2 ^ 31) mod 2 ^ 32 - 2 ^ 31.
Definition int_sub (a b : Z) : Z := wrap_int (a - b).

(** [size_t(i)] for an [int] [i]: conversion modulo 2^64. *)
Definition size_t (i : Z) : Z := i mod 2 ^ 64.

(** [v[i]] for an [int] index [i]. *)
Definition at_int {A : Type} (v : list A) (i : Z) : outcome A :=
  if i <? 0 then Undefined else at_index v (Z.to_nat i).

(** [*r.begin()] for a range [r]. *)
Definition deref_begin {A : Type} (r : list A) : outcome A :=
  match r with
  | x :: _ => Ok x
  | [] => Undefined
  end.

Abbreviation Vec := (list float).
Abbreviation PVec := (list (list float)).

(** [std::vector<double>(n)]: [n] value-initialised doubles. *)
Definition zeros (n : nat) : Vec := replicate n 0%float.

Module EquilWrapper.
(** The accessors of [Opm::EquilWrapper] used by [getEquil]. *)
Record t : Type := {
  numRegions : nat;
  datumDepth : nat -> float;
  datumDepthPressure : nat -> float;
  waterOilContactDepth : nat -> float;
  waterOilContactCapillaryPressure : nat -> float;
  gasOilContactDepth : nat -> float;
  gasOilContactCapillaryPressure : nat -> float;
  liveOilInitProceedure : nat -> Z;
  wetGasInitProceedure : nat -> Z;
  initializationTargetAccuracy : nat -> Z
}.
End EquilWrapper.

Module RsvdTable.
Record t : Type := { getDepthColumn : list float; getRsColumn : list float }.
End RsvdTable.

Module RvvdTable.
Record t : Type := { getDepthColumn : list float; getRvColumn : list float }.
End RvvdTable.

Module Equil.

(** Modelled from the spec: [EquilRecord] is declared in
    [EquilibrationHelpers.hpp], a file that is not modelled here.
    Its fields are the ones of the spec's EquilibrationRecord, in the order
    of the aggregate initialisation in [getEquil] and under the names the
    constructor of [InitialStateComputer] reads them by. *)
Record DepthPress : Type := { depth : float; press : float }.

Record EquilRecord : Type := {
  main : DepthPress;
  woc : DepthPress;
  goc : DepthPress;
  live_oil_table_index : Z;
  wet_gas_table_index : Z;
  N : Z
}.

(** The deck and the EclipseState as this header reads them. *)
Record Deck : Type := {
  EQUIL : option EquilWrapper.t;
  EQLNUM : bool;
  DISGAS : bool;
  VAPOIL : bool;
  SWATINIT : bool
}.

Record EclipseState : Type := {
  EQLNUM_data : list Z;
  SWATINIT_data : list float;
  getRsvdTables : list RsvdTable.t;
  getRvvdTables : list RvvdTable.t
}.

Record UnstructuredGrid : Type := {
  number_of_cells : nat;
  global_cell : option (list Z);
  cell_depth : nat -> float
}.

(** The two methods of [BlackoilPropertiesInterface] called here. *)
Record BlackoilPropertiesInterface : Type := {
  numPhases : nat;
  phaseUsage : PhaseUsage
}.

(** Modelled from the spec: the miscibility functions of
    [EquilibrationHelpers.hpp] (a file that is not modelled here), one
    constructor per class, carrying the constructor arguments passed in
    [InitialStateComputer]. *)
Inductive RsFunction : Type :=
| NoMixing
| RsVD (props : BlackoilPropertiesInterface) (cell : nat) (depth_ rs_ : list float)
| RsSatAtContact (props : BlackoilPropertiesInterface) (cell : nat) (p_contact T_contact : float)
| RvVD (props : BlackoilPropertiesInterface) (cell : nat) (depth_ rv_ : list float)
| RvSatAtContact (props : BlackoilPropertiesInterface) (cell : nat) (p_contact T_contact : float).

Module RegionMapping.
(** Modelled from the spec: [RegionMapping] ([RegionMapping.hpp], a file
    that is not modelled here) partitions the cell indices into one group per
    region; region ids densely populate [0, numRegions); the cells of a
    region are iterated in grid cell order. *)
Record t : Type := { region_of_cell : list Z }.

Definition numRegions (m : t) : nat :=
  Z.to_nat (foldr Z.max (-1) (region_of_cell m) + 1).

Definition cells (m : t) (r : nat) : list nat :=
  filter (fun c => region_of_cell m !! c = Some (Z.of_nat r))
         (seq 0 (length (region_of_cell m))).
End RegionMapping.

(** [DensityCalculator<BlackoilPropertiesInterface>] and [EquilReg<RhoCalc>]
    as the values they are constructed from. *)
Record RhoCalc : Type := {
  calc_props : BlackoilPropertiesInterface;
  calc_cell : nat
}.

Record EqReg : Type := {
  reg_rec : EquilRecord;
  reg_calc : RhoCalc;
  reg_rs_func : RsFunction;
  reg_rv_func : RsFunction;
  reg_pu : PhaseUsage
}.

Definition only_N0_supported : exception :=
  domain_error [Str "kw EQUIL, item 9: Only N=0 supported."].

Definition no_equil_data : exception :=
  domain_error [Str "Deck does not provide equilibration data."].

Definition getEquil (deck : Deck) : outcome (list EquilRecord) :=
  match EQUIL deck with
  | Some eql =>
      let nrec := EquilWrapper.numRegions eql in
      for_each
        (fun r =>
           let record :=
             {| main := {| depth := EquilWrapper.datumDepth eql r;
                           press := EquilWrapper.datumDepthPressure eql r |};
                woc := {| depth := EquilWrapper.waterOilContactDepth eql r;
                          press := EquilWrapper.waterOilContactCapillaryPressure eql r |};
                goc := {| depth := EquilWrapper.gasOilContactDepth eql r;
                          press := EquilWrapper.gasOilContactCapillaryPressure eql r |};
                live_oil_table_index := EquilWrapper.liveOilInitProceedure eql r;
                wet_gas_table_index := EquilWrapper.wetGasInitProceedure eql r;
                N := EquilWrapper.initializationTargetAccuracy eql r |} in
           if negb (N record =? 0) then Throw only_N0_supported
           else Ok record)
        (seq 0 nrec)
  | None => Throw no_equil_data
  end.

(** [(gc == NULL) ? cell : gc[cell]]. *)
Definition deck_position (gc : option (list Z)) (cell : nat) : outcome Z :=
  match gc with
  | None => Ok (Z.of_nat cell)
  | Some gc => at_index gc cell
  end.

Definition equilnum (deck : Deck) (eclipseState : EclipseState)
    (G : UnstructuredGrid) : outcome (list Z) :=
  if EQLNUM deck then
    let e := EQLNUM_data eclipseState in
    let gc := global_cell G in
    for_loop
      (fun cell eqlnum =>
         deck_pos ← deck_position gc cell;
         v ← at_int e deck_pos;
         assign_index eqlnum cell (int_sub v 1))
      (seq 0 (number_of_cells G))
      (replicate (number_of_cells G) 0)
  else
    (* No explicit equilibration region.  All cells in region zero. *)
    Ok (replicate (number_of_cells G) 0).

Module SaturationSolver.

(** Modelled from the spec: [phaseSaturations] is only declared in this
    header (its definition is in [initStateEquil_impl.hpp], the inversion of
    the capillary-pressure curves in [EquilibrationHelpers.hpp] and in the
    property evaluator, files that are not modelled here).  The spec's
    saturation solver: "compute water saturation from Pc_wo = p_oil - p_water
    via table inversion; clamp to the valid saturation domain at table edges
    (saturations outside the tabulated capillary-pressure range are pinned to
    the nearest domain boundary)"; "compute gas saturation analogously from
    Pc_go = p_gas - p_oil"; "oil saturation is the complement:
    1 - Sw - Sg, not independently computed"; "if a prescribed initial water
    saturation is provided for a cell, the capillary-pressure curve for that
    cell is rescaled/shifted".  The curves are "supplied by the external
    property evaluator": the inversion of a cell's curves and the tabulated
    domains are parameters, the inversion of the water curve taking the
    prescribed saturation of the cell, if any. *)
Section Solver.

Variable invert_pc_wo : nat -> option float -> float -> float.
Variable invert_pc_go : nat -> float -> float.
Variable water_domain : nat -> float * float.
Variable gas_domain : nat -> float * float.

(** A saturation outside [domain] is pinned to the nearest boundary. *)
Definition clamp (domain : float * float) (s : float) : float :=
  if (s <? domain.1)%float then domain.1
  else if (domain.2 <? s)%float then domain.2
  else s.

Record CellSaturations : Type := {
  s_water : float;
  s_oil : float;
  s_gas : float
}.

Definition cell_saturations (cell : nat) (prescribed : option float)
    (p_water p_oil p_gas : float) : CellSaturations :=
  let pc_wo := (p_oil - p_water)%float in
  let sw := clamp (water_domain cell) (invert_pc_wo cell prescribed pc_wo) in
  let pc_go := (p_gas - p_oil)%float in
  let sg := clamp (gas_domain cell) (invert_pc_go cell pc_go) in
  {| s_water := sw; s_oil := (1 - sw - sg)%float; s_gas := sg |}.

(** One value per cell of the region, from the phase pressures of the cells
    of the region; [swat_init] is indexed by cell and empty when no initial
    water saturation is prescribed. *)
Definition phaseSaturations (cells : list nat) (swat_init : Vec)
    (p_water p_oil p_gas : Vec) : outcome (list CellSaturations) :=
  for_each
    (fun k =>
       cell ← at_index cells k;
       pw ← at_index p_water k;
       po ← at_index p_oil k;
       pg ← at_index p_gas k;
       Ok (cell_saturations cell (swat_init !! cell) pw po pg))
    (seq 0 (length cells)).

End Solver.




End SaturationSolver.

Module InitialStateComputer.

(** *** Creation of the miscibility functions *)

Definition rsvd_not_available (t : Z) : exception :=
runtime_error [Str "Cannot initialise: RSVD table "; Num t; Str " not available."].

Definition rvvd_not_available (t : Z) : exception :=
runtime_error [Str "Cannot initialise: RVVD table "; Num t; Str " not available."].

Definition rs_datum_not_at_contact (i : nat) : exception :=
runtime_error
  [Str "Cannot initialise: when no explicit RSVD table is given, "; Newline;
   Str "datum depth must be at the gas-oil-contact. ";
   Str "In EQUIL region "; Num (Z.of_nat i + 1);
   Str "  (counting from 1), this does not hold."].

Definition rv_datum_not_at_contact (i : nat) : exception :=
runtime_error
  [Str "Cannot initialise: when no explicit RVVD table is given, "; Newline;
   Str "datum depth must be at the gas-oil-contact. ";
   Str "In EQUIL region "; Num (Z.of_nat i + 1);
   Str "  (counting from 1), this does not hold."].

(** [273.15 + 20]: standard temperature for now. *)
Definition T_contact : float := (273.15 + 20)%float.

(** The body of the loop over [i] under [hasKeyword("DISGAS")]: the
  function pushed onto [rs_func_] for region [i]. *)
Definition rs_func_of_region (props : BlackoilPropertiesInterface)
  (eqlmap : RegionMapping.t) (rsvdTables : list RsvdTable.t)
  (rec : list EquilRecord) (i : nat) : outcome RsFunction :=
cell ← deref_begin (RegionMapping.cells eqlmap i);
rec_i ← at_index rec i;
if 0 <? live_oil_table_index rec_i then
  if (0 <? Z.of_nat (length rsvdTables))
     && (size_t (live_oil_table_index rec_i) <=? Z.of_nat (length rsvdTables))
  then
    table ← at_index rsvdTables i;
    Ok (RsVD props cell (RsvdTable.getDepthColumn table) (RsvdTable.getRsColumn table))
  else Throw (rsvd_not_available (live_oil_table_index rec_i))
else
  if negb (depth (goc rec_i) =? depth (main rec_i))%float
  then Throw (rs_datum_not_at_contact i)
  else
    let p_contact := press (main rec_i) in
    Ok (RsSatAtContact props cell p_contact T_contact).

(** The body of the loop over [i] under [hasKeyword("VAPOIL")]. *)
Definition rv_func_of_region (props : BlackoilPropertiesInterface)
  (eqlmap : RegionMapping.t) (rvvdTables : list RvvdTable.t)
  (rec : list EquilRecord) (i : nat) : outcome RsFunction :=
cell ← deref_begin (RegionMapping.cells eqlmap i);
rec_i ← at_index rec i;
if 0 <? wet_gas_table_index rec_i then
  if (0 <? Z.of_nat (length rvvdTables))
     && (size_t (wet_gas_table_index rec_i) <=? Z.of_nat (length rvvdTables))
  then
    table ← at_index rvvdTables i;
    Ok (RvVD props cell (RvvdTable.getDepthColumn table) (RvvdTable.getRvColumn table))
  else Throw (rvvd_not_available (wet_gas_table_index rec_i))
else
  if negb (depth (goc rec_i) =? depth (main rec_i))%float
  then Throw (rv_datum_not_at_contact i)
  else
    let p_contact := (press (main rec_i) + press (goc rec_i))%float in
    Ok (RvSatAtContact props cell p_contact T_contact).

(** [// Create Rs functions.]  The outcome of the loop over the records,
  the object left aside: the functions it pushes onto [rs_func_] when every
  turn returns, or what the first turn that does not return leaves with.
  [push_rs_functions] below is the loop on the object. *)
Definition create_rs_functions (props : BlackoilPropertiesInterface)
  (deck : Deck) (eclipseState : EclipseState) (eqlmap : RegionMapping.t)
  (rec : list EquilRecord) : outcome (list RsFunction) :=
if DISGAS deck then
  let rsvdTables := getRsvdTables eclipseState in
  for_each (rs_func_of_region props eqlmap rsvdTables rec) (seq 0 (length rec))
else
  for_each (fun _ => Ok NoMixing) (seq 0 (length rec)).

Definition create_rv_functions (props : BlackoilPropertiesInterface)
  (deck : Deck) (eclipseState : EclipseState) (eqlmap : RegionMapping.t)
  (rec : list EquilRecord) : outcome (list RsFunction) :=
if VAPOIL deck then
  let rvvdTables := getRvvdTables eclipseState in
  for_each (rv_func_of_region props eqlmap rvvdTables rec) (seq 0 (length rec))
else
  for_each (fun _ => Ok NoMixing) (seq 0 (length rec)).

(** [// Check for presence of kw SWATINIT]: the vector [swat_init_] holds
  afterwards. *)
Definition read_swat_init (deck : Deck) (eclipseState : EclipseState)
  (G : UnstructuredGrid) (swat_init_ : Vec) : outcome Vec :=
if SWATINIT deck then
  let swat_init := SWATINIT_data eclipseState in
  let gc := global_cell G in
  for_loop
    (fun c swat_init_ =>
       deck_pos ← deck_position gc c;
       v ← at_int swat_init deck_pos;
       assign_index swat_init_ c v)
    (seq 0 (number_of_cells G))
    (resize (number_of_cells G) 0%float swat_init_)
else Ok swat_init_.

(** *** The computer *)

(** The data members of [InitialStateComputer]. *)
Record t : Type := {
rs_func_ : list RsFunction;
rv_func_ : list RsFunction;
pp_ : PVec;
sat_ : PVec;
rs_ : Vec;
rv_ : Vec;
swat_init_ : Vec
}.

Definition set_rs_func_ (v : list RsFunction) (self : t) :=
{| rs_func_ := v; rv_func_ := rv_func_ self; pp_ := pp_ self; sat_ := sat_ self;
   rs_ := rs_ self; rv_ := rv_ self; swat_init_ := swat_init_ self |}.

Definition set_rv_func_ (v : list RsFunction) (self : t) :=
{| rs_func_ := rs_func_ self; rv_func_ := v; pp_ := pp_ self; sat_ := sat_ self;
   rs_ := rs_ self; rv_ := rv_ self; swat_init_ := swat_init_ self |}.

Definition set_pp_ (v : PVec) (self : t) :=
{| rs_func_ := rs_func_ self; rv_func_ := rv_func_ self; pp_ := v; sat_ := sat_ self;
   rs_ := rs_ self; rv_ := rv_ self; swat_init_ := swat_init_ self |}.

Definition set_sat_ (v : PVec) (self : t) :=
{| rs_func_ := rs_func_ self; rv_func_ := rv_func_ self; pp_ := pp_ self; sat_ := v;
   rs_ := rs_ self; rv_ := rv_ self; swat_init_ := swat_init_ self |}.

Definition set_rs_ (v : Vec) (self : t) :=
{| rs_func_ := rs_func_ self; rv_func_ := rv_func_ self; pp_ := pp_ self; sat_ := sat_ self;
   rs_ := v; rv_ := rv_ self; swat_init_ := swat_init_ self |}.

Definition set_rv_ (v : Vec) (self : t) :=
{| rs_func_ := rs_func_ self; rv_func_ := rv_func_ self; pp_ := pp_ self; sat_ := sat_ self;
   rs_ := rs_ self; rv_ := v; swat_init_ := swat_init_ self |}.

Definition set_swat_init_ (v : Vec) (self : t) :=
{| rs_func_ := rs_func_ self; rv_func_ := rv_func_ self; pp_ := pp_ self; sat_ := sat_ self;
   rs_ := rs_ self; rv_ := rv_ self; swat_init_ := v |}.

(** The member initialisers of the constructor. *)
Definition member_initialisers (props : BlackoilPropertiesInterface)
  (G : UnstructuredGrid) : t :=
{| rs_func_ := [];
   rv_func_ := [];
   pp_ := replicate (numPhases props) (zeros (number_of_cells G));
   sat_ := replicate (numPhases props) (zeros (number_of_cells G));
   rs_ := zeros (number_of_cells G);
   rv_ := zeros (number_of_cells G);
   swat_init_ := [] |}.

Fixpoint copyFromRegion (source : Vec) (cells : list nat) (destination : Vec)
  {struct cells} : outcome Vec :=
match cells with
| [] => Ok destination
| c :: cells' =>
    match source with
    | [] => Undefined
    | s :: source' =>
        destination' ← assign_index destination c s;
        copyFromRegion source' cells' destination'
    end
end.

(** [rs_func_.push_back(f)] and [rv_func_.push_back(f)]. *)
Definition push_back_rs_func_ (f : RsFunction) (self : t) : t :=
  set_rs_func_ (rs_func_ self ++ [f]) self.

Definition push_back_rv_func_ (f : RsFunction) (self : t) : t :=
  set_rv_func_ (rv_func_ self ++ [f]) self.

(** [// Create Rs functions.]  The loop over the records: each turn pushes
    the function of its region onto [rs_func_], or throws, the functions of
    the regions before staying in [rs_func_]. *)
Definition push_rs_functions (props : BlackoilPropertiesInterface)
  (deck : Deck) (eclipseState : EclipseState) (eqlmap : RegionMapping.t)
  (rec : list EquilRecord) : M t unit :=
if DISGAS deck then
  let rsvdTables := getRsvdTables eclipseState in
  for_M
    (fun i =>
       (f <- lift (rs_func_of_region props eqlmap rsvdTables rec i);;
        modify (push_back_rs_func_ f))%cpp)
    (seq 0 (length rec))
else
  for_M (fun _ => modify (push_back_rs_func_ NoMixing)) (seq 0 (length rec)).

Definition push_rv_functions (props : BlackoilPropertiesInterface)
  (deck : Deck) (eclipseState : EclipseState) (eqlmap : RegionMapping.t)
  (rec : list EquilRecord) : M t unit :=
if VAPOIL deck then
  let rvvdTables := getRvvdTables eclipseState in
  for_M
    (fun i =>
       (f <- lift (rv_func_of_region props eqlmap rvvdTables rec i);;
        modify (push_back_rv_func_ f))%cpp)
    (seq 0 (length rec))
else
  for_M (fun _ => modify (push_back_rv_func_ NoMixing)) (seq 0 (length rec)).

(** The functions [rs_func_] has gained when the loop over the records is
    left, normally or not: those of the regions before the first whose turn
    does not return. *)
Definition rs_functions_pushed (props : BlackoilPropertiesInterface)
  (deck : Deck) (eclipseState : EclipseState) (eqlmap : RegionMapping.t)
  (rec : list EquilRecord) : list RsFunction :=
if DISGAS deck then
  returned_before
    (rs_func_of_region props eqlmap (getRsvdTables eclipseState) rec)
    (seq 0 (length rec))
else replicate (length rec) NoMixing.

Definition rv_functions_pushed (props : BlackoilPropertiesInterface)
  (deck : Deck) (eclipseState : EclipseState) (eqlmap : RegionMapping.t)
  (rec : list EquilRecord) : list RsFunction :=
if VAPOIL deck then
  returned_before
    (rv_func_of_region props eqlmap (getRvvdTables eclipseState) rec)
    (seq 0 (length rec))
else replicate (length rec) NoMixing.

Section Computation.

(** [phasePressures], [temperature] and [phaseSaturations] are only declared
  in this header (their definitions are in [initStateEquil_impl.hpp]):
  they are parameters.  [phaseSaturations] takes the phase pressures by
  non-const reference, so it returns them along with the saturations. *)
Variable phasePressures : UnstructuredGrid -> EqReg -> list nat -> float -> PVec.
Variable temperature : UnstructuredGrid -> EqReg -> list nat -> Vec.
Variable phaseSaturations :
UnstructuredGrid -> EqReg -> list nat -> BlackoilPropertiesInterface ->
Vec -> PVec -> PVec * PVec.

(** The external PVT evaluator's saturated ratios [satRs(press, temp)] and
  [satRv(press, temp)] at a cell, and the table interpolation. *)
Variable satRs : BlackoilPropertiesInterface -> nat -> float -> float -> float.
Variable satRv : BlackoilPropertiesInterface -> nat -> float -> float -> float.
Variable linearInterpolation : list float -> list float -> float -> float.

(** Modelled from the spec: the call operator of a miscibility function
  (defined in [EquilibrationHelpers.hpp], a file that is not modelled here),
  "evaluate miscibility ratio given depth, pressure, temperature, and
  local saturation of the complementary phase".  NoMixing: "ratio is
  identically zero everywhere".  The others: "if local gas saturation is
  strictly positive, Rs takes the saturated (pressure-dependent) value
  from the PVT evaluator at the cell's oil pressure and temperature;
  otherwise" the depth table's value, or the saturated value at the
  contact pressure and reference temperature; "Rv follows the symmetric
  rule". *)
Definition evaluate (f : RsFunction) (depth press temp sat : float) : float :=
match f with
| NoMixing => 0%float
| RsVD props cell depth_ rs_ =>
    if (0 <? sat)%float then satRs props cell press temp
    else linearInterpolation depth_ rs_ depth
| RsSatAtContact props cell p_contact T_contact =>
    if (0 <? sat)%float then satRs props cell press temp
    else satRs props cell p_contact T_contact
| RvVD props cell depth_ rv_ =>
    if (0 <? sat)%float then satRv props cell press temp
    else linearInterpolation depth_ rv_ depth
| RvSatAtContact props cell p_contact T_contact =>
    if (0 <? sat)%float then satRv props cell press temp
    else satRv props cell p_contact T_contact
end.

(** Modelled from the spec: [computeRs] is only declared in this header.
  "Rs values, one for each cell in the 'cells' range": the region's
  function evaluated at the cell's depth, pressure, temperature and the
  saturation of the complementary phase. *)
Definition computeRs (grid : UnstructuredGrid) (cells : list nat)
  (oil_pressure temperature : Vec) (rs_func : RsFunction)
  (gas_saturation : Vec) : outcome Vec :=
for_each
  (fun count =>
     cell ← at_index cells count;
     p ← at_index oil_pressure count;
     T ← at_index temperature count;
     s ← at_index gas_saturation count;
     Ok (evaluate rs_func (cell_depth grid cell) p T s))
  (seq 0 (length cells)).

(** What one turn of the loop of [calcPressSatRsRv] computes for region
  [r] before it copies anything: [press], [temp] and [sat]. *)
Record RegionValues : Type := {
region_cells : list nat;
region_press : PVec;
region_temp : Vec;
region_sat : PVec
}.

Definition region_values (reg : RegionMapping.t) (rec : list EquilRecord)
  (props : BlackoilPropertiesInterface) (G : UnstructuredGrid) (grav : float)
  (r : nat) (self : t) : outcome RegionValues :=
let cells := RegionMapping.cells reg r in
repcell ← deref_begin cells;
let calc := {| calc_props := props; calc_cell := repcell |} in
rec_r ← at_index rec r;
rs_func_r ← at_index (rs_func_ self) r;
rv_func_r ← at_index (rv_func_ self) r;
let eqreg := {| reg_rec := rec_r; reg_calc := calc;
                reg_rs_func := rs_func_r; reg_rv_func := rv_func_r;
                reg_pu := phaseUsage props |} in
let press := phasePressures G eqreg cells grav in
let temp := temperature G eqreg cells in
let sat_press := phaseSaturations G eqreg cells props (swat_init_ self) press in
Ok {| region_cells := cells; region_press := sat_press.2;
      region_temp := temp; region_sat := sat_press.1 |}.

(** The body of the loop over the phases [p]. *)
Definition copy_phase (press sat : PVec) (cells : list nat) (p : nat) (self : t)
  : outcome t :=
press_p ← at_index press p;
pp_p ← at_index (pp_ self) p;
pp_p' ← copyFromRegion press_p cells pp_p;
let self := set_pp_ (<[p := pp_p']> (pp_ self)) self in
sat_p ← at_index sat p;
sat_p_ ← at_index (sat_ self) p;
sat_p' ← copyFromRegion sat_p cells sat_p_;
Ok (set_sat_ (<[p := sat_p']> (sat_ self)) self).

(** The body of the loop over the regions [r]. *)
Definition region_step (reg : RegionMapping.t) (rec : list EquilRecord)
  (props : BlackoilPropertiesInterface) (G : UnstructuredGrid) (grav : float)
  (r : nat) (self : t) : outcome t :=
v ← region_values reg rec props G grav r self;
let cells := region_cells v in
let press := region_press v in
let temp := region_temp v in
let sat := region_sat v in
let np := numPhases props in
self ← for_loop (copy_phase press sat cells) (seq 0 np) self;
if phase_used (phaseUsage props) Liquid && phase_used (phaseUsage props) Vapour
then
  let oilpos := phase_pos (phaseUsage props) Liquid in
  let gaspos := phase_pos (phaseUsage props) Vapour in
  rs_func_r ← at_index (rs_func_ self) r;
  press_oil ← at_index press oilpos;
  sat_gas ← at_index sat gaspos;
  rs ← computeRs G cells press_oil temp rs_func_r sat_gas;
  rv_func_r ← at_index (rv_func_ self) r;
  press_gas ← at_index press gaspos;
  sat_oil ← at_index sat oilpos;
  rv ← computeRs G cells press_gas temp rv_func_r sat_oil;
  rs_' ← copyFromRegion rs cells (rs_ self);
  let self := set_rs_ rs_' self in
  rv_' ← copyFromRegion rv cells (rv_ self);
  Ok (set_rv_ rv_' self)
else Ok self.

Definition calcPressSatRsRv (reg : RegionMapping.t) (rec : list EquilRecord)
  (props : BlackoilPropertiesInterface) (G : UnstructuredGrid) (grav : float)
  (self : t) : outcome t :=
let nr := RegionMapping.numRegions reg in
for_loop (region_step reg rec props G grav) (seq 0 nr) self.

(** The body of the constructor. *)
Definition constructor_body (props : BlackoilPropertiesInterface) (deck : Deck)
  (eclipseState : EclipseState) (G : UnstructuredGrid) (grav : float)
  : M t unit :=
((* Get the equilibration records. *)
 rec <- lift (getEquil deck);;
 (* Create (inverse) region mapping. *)
 eqlnum <- lift (equilnum deck eclipseState G);;
 let eqlmap := {| RegionMapping.region_of_cell := eqlnum |} in
 (* Create Rs functions. *)
 push_rs_functions props deck eclipseState eqlmap rec;;;
 push_rv_functions props deck eclipseState eqlmap rec;;;
 (* Check for presence of kw SWATINIT *)
 self <- get_self;;
 swat_init <- lift (read_swat_init deck eclipseState G (swat_init_ self));;
 put_self (set_swat_init_ swat_init self);;;
 (* Compute pressures, saturations, rs and rv factors. *)
 self <- get_self;;
 self' <- lift (calcPressSatRsRv eqlmap rec props G grav self);;
 put_self self')%cpp.

(** The constructor: member initialisers, then the body.  The result is
  the outcome of the construction with the members as they are then. *)
Definition constructor (props : BlackoilPropertiesInterface) (deck : Deck)
  (eclipseState : EclipseState) (G : UnstructuredGrid) (grav : float)
  : outcome unit * t :=
constructor_body props deck eclipseState G grav (member_initialisers props G).

End Computation.

(** The members [calcPressSatRsRv] only reads. *)
Definition same_functions (self self' : t) : Prop :=
  rs_func_ self' = rs_func_ self /\ rv_func_ self' = rv_func_ self
  /\ swat_init_ self' = swat_init_ self.

(** [v[p][i]] when both indices are inside. *)
Definition entry (v : PVec) (p i : nat) : option float :=
  v !! p ≫= fun row => row !! i.

Definition press (self : t) : PVec := pp_ self.
Definition saturation (self : t) : PVec := sat_ self.
Definition rs (self : t) : Vec := rs_ self.
Definition rv (self : t) : Vec := rv_ self.

End InitialStateComputer.

End Equil.

(** ** Concrete inputs *)

Module Examples.

Import PvtPropertiesIncompFromDeck.

(** Water and oil in use, gas not: positions 0 and 1. *)
Definition water_oil : PhaseUsage :=
  {| num_phases := 2;
     phase_used := fun p => match p with Vapour => false | _ => true end;
     phase_pos := fun p => match p with Aqua => 0 | Liquid => 1 | Vapour => 2 end%nat |}.

(** All three phases in use. *)
Definition three_phases : PhaseUsage :=
  {| num_phases := 3;
     phase_used := fun _ => true;
     phase_pos := fun p => match p with Aqua => 0 | Liquid => 1 | Vapour => 2 end%nat |}.

Definition pvt_deck : Deck :=
  {| DENSITY := Some {| OIL := 800; WATER := 1000; GAS := 1 |};
     PVTW := Some {| WATER_VOL_FACTOR := 1.25; WATER_COMPRESSIBILITY := 0;
                     WATER_VISCOSITY := 0.5; WATER_VISCOSIBILITY := 0 |};
     PVCDO := Some {| OIL_VOL_FACTOR := 2; OIL_COMPRESSIBILITY := 0;
                      OIL_VISCOSITY := 4; OIL_VISCOSIBILITY := 0 |} |}.

Definition pvt_object : t :=
  {| surface_density_ := (7, 7)%float;
     reservoir_density_ := (7, 7)%float;
     viscosity_ := (7, 7)%float |}.

Definition pvt_object_after_init : t :=
  {| surface_density_ := (800, 1000)%float;
     reservoir_density_ := (640, 500)%float;
     viscosity_ := (0.5, 4)%float |}.

(** Decks for [init] with one keyword missing each, and one whose
    compressibility items are not zero. *)
Definition pvt_deck_no_density : Deck :=
  {| DENSITY := None; PVTW := PVTW pvt_deck; PVCDO := PVCDO pvt_deck |}.

Definition pvt_deck_no_pvtw : Deck :=
  {| DENSITY := DENSITY pvt_deck; PVTW := None; PVCDO := PVCDO pvt_deck |}.

Definition pvt_deck_no_pvcdo : Deck :=
  {| DENSITY := DENSITY pvt_deck; PVTW := PVTW pvt_deck; PVCDO := None |}.

Definition pvt_deck_compressible : Deck :=
  {| DENSITY := DENSITY pvt_deck;
     PVTW := Some {| WATER_VOL_FACTOR := 1.25; WATER_COMPRESSIBILITY := 0.00001;
                     WATER_VISCOSITY := 0.5; WATER_VISCOSIBILITY := 0.002 |};
     PVCDO := Some {| OIL_VOL_FACTOR := 2; OIL_COMPRESSIBILITY := 0.00003;
                      OIL_VISCOSITY := 4; OIL_VISCOSIBILITY := 0.001 |} |}.

(** Another object, with other values in its members. *)
Definition pvt_object_other : t :=
  {| surface_density_ := (1, 2)%float;
     reservoir_density_ := (3, 4)%float;
     viscosity_ := (5, 6)%float |}.

(** Inputs of the equilibration. *)

Definition props3 : Equil.BlackoilPropertiesInterface :=
  {| Equil.numPhases := 3; Equil.phaseUsage := three_phases |}.

Definition props2 : Equil.BlackoilPropertiesInterface :=
  {| Equil.numPhases := 2; Equil.phaseUsage := water_oil |}.

Definition grid2 : Equil.UnstructuredGrid :=
  {| Equil.number_of_cells := 2;
     Equil.global_cell := None;
     Equil.cell_depth := fun c => match c with O => 1000 | _ => 1010 end%float |}.

(** The same two cells, listed in the deck in the opposite order. *)
Definition grid2_swapped : Equil.UnstructuredGrid :=
  {| Equil.number_of_cells := 2;
     Equil.global_cell := Some [1; 0];
     Equil.cell_depth := fun c => match c with O => 1000 | _ => 1010 end%float |}.

(** One EQUIL record: datum depth, gas-oil-contact depth, the two table
    indices and the accuracy target are the arguments. *)
Definition equil1 (datum goc_depth : float) (t_rs t_rv n : Z) : EquilWrapper.t :=
  {| EquilWrapper.numRegions := 1;
     EquilWrapper.datumDepth := fun _ => datum;
     EquilWrapper.datumDepthPressure := fun _ => 30000000%float;
     EquilWrapper.waterOilContactDepth := fun _ => 1050%float;
     EquilWrapper.waterOilContactCapillaryPressure := fun _ => 0%float;
     EquilWrapper.gasOilContactDepth := fun _ => goc_depth;
     EquilWrapper.gasOilContactCapillaryPressure := fun _ => 5%float;
     EquilWrapper.liveOilInitProceedure := fun _ => t_rs;
     EquilWrapper.wetGasInitProceedure := fun _ => t_rv;
     EquilWrapper.initializationTargetAccuracy := fun _ => n |}.

Definition equil_deck (eql : EquilWrapper.t) (eqlnum disgas vapoil : bool) : Equil.Deck :=
  {| Equil.EQUIL := Some eql;
     Equil.EQLNUM := eqlnum;
     Equil.DISGAS := disgas;
     Equil.VAPOIL := vapoil;
     Equil.SWATINIT := false |}.

Definition rsvd1 : RsvdTable.t :=
  {| RsvdTable.getDepthColumn := [1000; 2000]%float;
     RsvdTable.getRsColumn := [100; 100]%float |}.

Definition rsvd2 : RsvdTable.t :=
  {| RsvdTable.getDepthColumn := [1000; 2000]%float;
     RsvdTable.getRsColumn := [50; 60]%float |}.

Definition rvvd1 : RvvdTable.t :=
  {| RvvdTable.getDepthColumn := [1000; 2000]%float;
     RvvdTable.getRvColumn := [0.001; 0.001]%float |}.

Definition rvvd2 : RvvdTable.t :=
  {| RvvdTable.getDepthColumn := [1000; 2000]%float;
     RvvdTable.getRvColumn := [0.002; 0.003]%float |}.

Definition eclipse_state : Equil.EclipseState :=
  {| Equil.EQLNUM_data := [1; 1];
     Equil.SWATINIT_data := [];
     Equil.getRsvdTables := [rsvd1; rsvd2];
     Equil.getRvvdTables := [rvvd1; rvvd2] |}.

(** Two regions: the first deck cell in region 2, the second in region 1. *)
Definition eclipse_state_two_regions : Equil.EclipseState :=
  {| Equil.EQLNUM_data := [2; 1];
     Equil.SWATINIT_data := [];
     Equil.getRsvdTables := [rsvd1];
     Equil.getRvvdTables := [rvvd1] |}.

(** Stand-ins for the routines of [initStateEquil_impl.hpp] and for the
    property evaluator. *)
Definition phasePressures0 (G : Equil.UnstructuredGrid) (reg : Equil.EqReg)
    (cells : list nat) (grav : float) : PVec :=
  replicate (Equil.numPhases (Equil.calc_props (Equil.reg_calc reg)))
            (map (fun c => (Equil.press (Equil.main (Equil.reg_rec reg))
                            + grav * Equil.cell_depth G c)%float) cells).

Definition temperature0 (G : Equil.UnstructuredGrid) (reg : Equil.EqReg)
    (cells : list nat) : Vec :=
  map (fun _ => 293.15%float) cells.

Definition phaseSaturations0 (G : Equil.UnstructuredGrid) (reg : Equil.EqReg)
    (cells : list nat) (props : Equil.BlackoilPropertiesInterface)
    (swat_init : Vec) (press : PVec) : PVec * PVec :=
  (replicate (Equil.numPhases props) (map (fun _ => 0.25%float) cells), press).

Definition satRs0 (props : Equil.BlackoilPropertiesInterface) (cell : nat)
    (press temp : float) : float := (press / 100000)%float.

Definition satRv0 (props : Equil.BlackoilPropertiesInterface) (cell : nat)
    (press temp : float) : float := (press / 100000000000)%float.

Definition linearInterpolation0 (xs ys : list float) (x : float) : float :=
  match ys with y :: _ => y | [] => 0%float end.

Definition constructor0 :=
  Equil.InitialStateComputer.constructor phasePressures0 temperature0
    phaseSaturations0 satRs0 satRv0 linearInterpolation0.

(** Decks for the equilibration: one record each.  Positive table indices and
    neither DISGAS nor VAPOIL. *)
Definition deck_no_features : Equil.Deck :=
  equil_deck (equil1 1000 1000 1 1 0) false false false.

(** No table index, datum at the gas-oil contact, DISGAS and VAPOIL. *)
Definition deck_at_contact : Equil.Deck :=
  equil_deck (equil1 1000 1000 0 0 0) false true true.

(** No table index, datum 10 m below the gas-oil contact. *)
Definition deck_off_contact : Equil.Deck :=
  equil_deck (equil1 1000 990 0 0 0) false true true.

Definition record_off_contact : Equil.EquilRecord :=
  {| Equil.main := {| Equil.depth := 1000; Equil.press := 30000000 |};
     Equil.woc := {| Equil.depth := 1050; Equil.press := 0 |};
     Equil.goc := {| Equil.depth := 990; Equil.press := 5 |};
     Equil.live_oil_table_index := 0;
     Equil.wet_gas_table_index := 0;
     Equil.N := 0 |}.

(** Table index 2 for both Rs and Rv in the only region. *)
Definition deck_table_2 : Equil.Deck :=
  equil_deck (equil1 1000 1000 2 2 0) false true true.

Definition record_table_2 : Equil.EquilRecord :=
  {| Equil.main := {| Equil.depth := 1000; Equil.press := 30000000 |};
     Equil.woc := {| Equil.depth := 1050; Equil.press := 0 |};
     Equil.goc := {| Equil.depth := 1000; Equil.press := 5 |};
     Equil.live_oil_table_index := 2;
     Equil.wet_gas_table_index := 2;
     Equil.N := 0 |}.

(** Accuracy target 5. *)
Definition deck_accuracy_5 : Equil.Deck :=
  equil_deck (equil1 1000 1000 0 0 5) false true true.

(** Two regions, both with table index 1, under EQLNUM. *)
Definition deck_two_regions : Equil.Deck :=
  {| Equil.EQUIL :=
       Some {| EquilWrapper.numRegions := 2;
               EquilWrapper.datumDepth := fun _ => 1000%float;
               EquilWrapper.datumDepthPressure := fun _ => 30000000%float;
               EquilWrapper.waterOilContactDepth := fun _ => 1050%float;
               EquilWrapper.waterOilContactCapillaryPressure := fun _ => 0%float;
               EquilWrapper.gasOilContactDepth := fun _ => 1000%float;
               EquilWrapper.gasOilContactCapillaryPressure := fun _ => 5%float;
               EquilWrapper.liveOilInitProceedure := fun _ => 1;
               EquilWrapper.wetGasInitProceedure := fun _ => 1;
               EquilWrapper.initializationTargetAccuracy := fun _ => 0 |};
     Equil.EQLNUM := true;
     Equil.DISGAS := true;
     Equil.VAPOIL := false;
     Equil.SWATINIT := false |}.

Definition gravity : float := 9.80665%float.

(** The members after the construction on [deck_no_features]. *)
Definition computer_no_features : Equil.InitialStateComputer.t :=
  snd (constructor0 props3 deck_no_features eclipse_state grid2 gravity).

(** The members after the construction on [deck_at_contact], water and oil. *)
Definition computer_water_oil : Equil.InitialStateComputer.t :=
  snd (constructor0 props2 deck_at_contact eclipse_state grid2 gravity).

(** The members after the construction on [deck_table_2]. *)
Definition computer_table_2 : Equil.InitialStateComputer.t :=
  snd (constructor0 props3 deck_table_2 eclipse_state grid2 gravity).

(** A deck without EQUIL. *)
Definition deck_no_equil : Equil.Deck :=
  {| Equil.EQUIL := None;
     Equil.EQLNUM := false;
     Equil.DISGAS := true;
     Equil.VAPOIL := true;
     Equil.SWATINIT := false |}.

(** SWATINIT given, on the grid whose deck order is the opposite one. *)
Definition deck_swatinit : Equil.Deck :=
  {| Equil.EQUIL := Some (equil1 1000 1000 0 0 0);
     Equil.EQLNUM := false;
     Equil.DISGAS := false;
     Equil.VAPOIL := false;
     Equil.SWATINIT := true |}.

Definition eclipse_state_swatinit : Equil.EclipseState :=
  {| Equil.EQLNUM_data := [];
     Equil.SWATINIT_data := [0.2; 0.3]%float;
     Equil.getRsvdTables := [];
     Equil.getRvvdTables := [] |}.

Definition computer_swatinit : Equil.InitialStateComputer.t :=
  snd (constructor0 props3 deck_swatinit eclipse_state_swatinit grid2_swapped gravity).

Definition record_table_3 : Equil.EquilRecord :=
  {| Equil.main := {| Equil.depth := 1000; Equil.press := 30000000 |};
     Equil.woc := {| Equil.depth := 1050; Equil.press := 0 |};
     Equil.goc := {| Equil.depth := 1000; Equil.press := 5 |};
     Equil.live_oil_table_index := 3;
     Equil.wet_gas_table_index := 3;
     Equil.N := 0 |}.

(** Table index 3 for both Rs and Rv, with two tables of each kind, VAPOIL
    only. *)
Definition deck_table_3_vapoil : Equil.Deck :=
  equil_deck (equil1 1000 1000 3 3 0) false false true.

(** The two cells with the identity as deck positions. *)
Definition grid2_identity : Equil.UnstructuredGrid :=
  {| Equil.number_of_cells := 2;
     Equil.global_cell := Some [0; 1];
     Equil.cell_depth := fun c => match c with O => 1000 | _ => 1010 end%float |}.

Definition record_at_contact : Equil.EquilRecord :=
  {| Equil.main := {| Equil.depth := 1000; Equil.press := 30000000 |};
     Equil.woc := {| Equil.depth := 1050; Equil.press := 0 |};
     Equil.goc := {| Equil.depth := 1000; Equil.press := 5 |};
     Equil.live_oil_table_index := 0;
     Equil.wet_gas_table_index := 0;
     Equil.N := 0 |}.

(** The members after the construction on [deck_at_contact], three phases. *)
Definition computer_at_contact : Equil.InitialStateComputer.t :=
  snd (constructor0 props3 deck_at_contact eclipse_state grid2 gravity).

(** Two regions under EQLNUM, DISGAS and VAPOIL, none with a table index:
    the first with its datum at the gas-oil contact, the second with its
    datum 10 m below it. *)
Definition deck_second_off_contact : Equil.Deck :=
  {| Equil.EQUIL :=
       Some {| EquilWrapper.numRegions := 2;
               EquilWrapper.datumDepth := fun _ => 1000%float;
               EquilWrapper.datumDepthPressure := fun _ => 30000000%float;
               EquilWrapper.waterOilContactDepth := fun _ => 1050%float;
               EquilWrapper.waterOilContactCapillaryPressure := fun _ => 0%float;
               EquilWrapper.gasOilContactDepth :=
                 fun r => match r with O => 1000 | _ => 990 end%float;
               EquilWrapper.gasOilContactCapillaryPressure := fun _ => 5%float;
               EquilWrapper.liveOilInitProceedure := fun _ => 0;
               EquilWrapper.wetGasInitProceedure := fun _ => 0;
               EquilWrapper.initializationTargetAccuracy := fun _ => 0 |};
     Equil.EQLNUM := true;
     Equil.DISGAS := true;
     Equil.VAPOIL := true;
     Equil.SWATINIT := false |}.

(** The same with VAPOIL only. *)
Definition deck_second_off_contact_vapoil : Equil.Deck :=
  {| Equil.EQUIL := Equil.EQUIL deck_second_off_contact;
     Equil.EQLNUM := true;
     Equil.DISGAS := false;
     Equil.VAPOIL := true;
     Equil.SWATINIT := false |}.

(** Two regions under EQLNUM and DISGAS: live-oil table index 1 in the first,
    2 in the second. *)
Definition deck_second_table_missing : Equil.Deck :=
  {| Equil.EQUIL :=
       Some {| EquilWrapper.numRegions := 2;
               EquilWrapper.datumDepth := fun _ => 1000%float;
               EquilWrapper.datumDepthPressure := fun _ => 30000000%float;
               EquilWrapper.waterOilContactDepth := fun _ => 1050%float;
               EquilWrapper.waterOilContactCapillaryPressure := fun _ => 0%float;
               EquilWrapper.gasOilContactDepth := fun _ => 1000%float;
               EquilWrapper.gasOilContactCapillaryPressure := fun _ => 5%float;
               EquilWrapper.liveOilInitProceedure :=
                 fun r => match r with O => 1 | _ => 2 end;
               EquilWrapper.wetGasInitProceedure := fun _ => 1;
               EquilWrapper.initializationTargetAccuracy := fun _ => 0 |};
     Equil.EQLNUM := true;
     Equil.DISGAS := true;
     Equil.VAPOIL := false;
     Equil.SWATINIT := false |}.

Definition record_table_1 : Equil.EquilRecord :=
  {| Equil.main := {| Equil.depth := 1000; Equil.press := 30000000 |};
     Equil.woc := {| Equil.depth := 1050; Equil.press := 0 |};
     Equil.goc := {| Equil.depth := 1000; Equil.press := 5 |};
     Equil.live_oil_table_index := 1;
     Equil.wet_gas_table_index := 1;
     Equil.N := 0 |}.

Definition record_table_2_1 : Equil.EquilRecord :=
  {| Equil.main := {| Equil.depth := 1000; Equil.press := 30000000 |};
     Equil.woc := {| Equil.depth := 1050; Equil.press := 0 |};
     Equil.goc := {| Equil.depth := 1000; Equil.press := 5 |};
     Equil.live_oil_table_index := 2;
     Equil.wet_gas_table_index := 1;
     Equil.N := 0 |}.





End Examples.

(** ** Properties of PvtPropertiesIncompFromDeck *)

Section PvtProperties.

Import PvtPropertiesIncompFromDeck.

Variable phaseUsageFromDeck : Deck -> PhaseUsage.

(** With water and oil (only) in use, the three keywords present and the
    two phase positions inside the arrays, [init] returns. *)
Lemma init_returns (deck : Deck) (self : t) d w o :
  water_and_oil_only (phaseUsageFromDeck deck) = true ->
  DENSITY deck = Some d -> PVTW deck = Some w -> PVCDO deck = Some o ->
  (phase_pos (phaseUsageFromDeck deck) Aqua < 2)%nat ->
  (phase_pos (phaseUsageFromDeck deck) Liquid < 2)%nat ->
  exists self', init phaseUsageFromDeck deck self = (Ok tt, self').
Proof.
  unfold water_and_oil_only, init. intros Hpu -> -> -> Ha Hl.
  destruct (phase_used _ Vapour), (phase_used _ Aqua), (phase_used _ Liquid);
    try discriminate Hpu.
  destruct (phase_pos _ Aqua) as [|[|?]], (phase_pos _ Liquid) as [|[|?]];
    try lia; cbn;
    destruct (nonzero _ || nonzero _); cbn;
    destruct (nonzero _ || nonzero _); cbn; eauto.
Qed.

(** C9: after a successful [init], the surface density at the water
    position is the DENSITY keyword's OIL item and the one at the oil
    position is its WATER item; the reservoir density in each of the two
    slots is the surface density of that slot divided by WATER_VOL_FACTOR
    (water slot) or OIL_VOL_FACTOR (oil slot).  The two positions, which come
    from [phaseUsageFromDeck], are taken to be distinct. *)
Theorem init_densities (deck : Deck) (self self' : t) :
  let pu := phaseUsageFromDeck deck in
  init phaseUsageFromDeck deck self = (Ok tt, self') ->
  phase_pos pu Aqua <> phase_pos pu Liquid ->
  exists d w o surface_water surface_oil,
    DENSITY deck = Some d /\ PVTW deck = Some w /\ PVCDO deck = Some o /\
    array_get (surfaceDensities self') (phase_pos pu Aqua) = Ok surface_water /\
    surface_water = OIL d /\
    array_get (surfaceDensities self') (phase_pos pu Liquid) = Ok surface_oil /\
    surface_oil = WATER d /\
    array_get (reservoirDensities self') (phase_pos pu Aqua)
      = Ok (surface_water / WATER_VOL_FACTOR w)%float /\
    array_get (reservoirDensities self') (phase_pos pu Liquid)
      = Ok (surface_oil / OIL_VOL_FACTOR o)%float.
Proof.
  intros pu. subst pu. unfold init.
  destruct (phase_used _ Vapour), (phase_used _ Aqua), (phase_used _ Liquid);
    cbn; try discriminate.
  destruct (DENSITY deck) as [d|]; [|discriminate].
  destruct (PVTW deck) as [w|], (PVCDO deck) as [o|];
    destruct (phase_pos _ Aqua) as [|[|?]], (phase_pos _ Liquid) as [|[|?]];
    cbn; try discriminate; try congruence;
    try (destruct (nonzero _ || nonzero _); cbn; discriminate).
  all: destruct (nonzero _ || nonzero _); cbn;
    destruct (nonzero _ || nonzero _); cbn;
    intros [= <-] _; exists d, w, o; cbn; eauto 12.
Qed.

(** C10: when the phase usage is not water and oil only (gas used, or water
    or oil not used), [init] throws a [std::runtime_error] whose message
    speaks of gas and oil phases, and the densities and viscosities of the
    object are as they were; [numPhases] is 2 whatever the object. *)
Theorem init_rejects_phase_usage (deck : Deck) (self : t) :
  let pu := phaseUsageFromDeck deck in
  phase_used pu Vapour = true \/ phase_used pu Aqua = false
    \/ phase_used pu Liquid = false ->
  init phaseUsageFromDeck deck self
    = (Throw (runtime_error
         [Str "PvtPropertiesIncompFromDeck::init() -- must have gas and oil phases (only) in deck input."]),
       self)
  /\ (forall obj : t, numPhases obj = 2).
Proof.
  intros pu H. subst pu. split; [|reflexivity].
  unfold init.
  destruct (phase_used _ Vapour), (phase_used _ Aqua), (phase_used _ Liquid);
    cbn; try reflexivity.
  destruct H as [H|[H|H]]; discriminate H.
Qed.

End PvtProperties.

(** [init] on a deck with water and oil: the run behind [init_densities]. *)
Lemma init_densities_witness :
  PvtPropertiesIncompFromDeck.init (fun _ => Examples.water_oil)
    Examples.pvt_deck Examples.pvt_object
  = (Ok tt, Examples.pvt_object_after_init)
  /\ exists d w o surface_water surface_oil,
      PvtPropertiesIncompFromDeck.DENSITY Examples.pvt_deck = Some d /\
      PvtPropertiesIncompFromDeck.PVTW Examples.pvt_deck = Some w /\
      PvtPropertiesIncompFromDeck.PVCDO Examples.pvt_deck = Some o /\
      PvtPropertiesIncompFromDeck.array_get
        (PvtPropertiesIncompFromDeck.surfaceDensities Examples.pvt_object_after_init) 0
        = Ok surface_water /\
      surface_water = PvtPropertiesIncompFromDeck.OIL d /\
      PvtPropertiesIncompFromDeck.array_get
        (PvtPropertiesIncompFromDeck.surfaceDensities Examples.pvt_object_after_init) 1
        = Ok surface_oil /\
      surface_oil = PvtPropertiesIncompFromDeck.WATER d /\
      PvtPropertiesIncompFromDeck.array_get
        (PvtPropertiesIncompFromDeck.reservoirDensities Examples.pvt_object_after_init) 0
        = Ok (surface_water / PvtPropertiesIncompFromDeck.WATER_VOL_FACTOR w)%float /\
      PvtPropertiesIncompFromDeck.array_get
        (PvtPropertiesIncompFromDeck.reservoirDensities Examples.pvt_object_after_init) 1
        = Ok (surface_oil / PvtPropertiesIncompFromDeck.OIL_VOL_FACTOR o)%float.
Proof.
  split; [reflexivity|].
  apply (init_densities (fun _ => Examples.water_oil) Examples.pvt_deck
           Examples.pvt_object Examples.pvt_object_after_init).
  - reflexivity.
  - cbn. lia.
Defined.

(** [init] on a deck that uses all three phases. *)
Lemma init_rejects_phase_usage_witness :
  PvtPropertiesIncompFromDeck.init (fun _ => Examples.three_phases)
    Examples.pvt_deck Examples.pvt_object
  = (Throw (runtime_error
       [Str "PvtPropertiesIncompFromDeck::init() -- must have gas and oil phases (only) in deck input."]),
     Examples.pvt_object)
  /\ (forall obj, PvtPropertiesIncompFromDeck.numPhases obj = 2).
Proof.
  apply (init_rejects_phase_usage (fun _ => Examples.three_phases)).
  left. reflexivity.
Defined.

(** ** Loops and vectors *)

Lemma bind_Ok_inv {A B : Type} (m : outcome A) (k : A -> outcome B) (b : B) :
  m ≫= k = Ok b -> exists a, m = Ok a /\ k a = Ok b.
Proof. destruct m; cbn; [eauto | discriminate | discriminate]. Qed.

Section Loops.

Context {A B : Type}.

Lemma at_index_Ok (v : list A) (i : nat) (x : A) :
  at_index v i = Ok x <-> v !! i = Some x.
Proof. unfold at_index. destruct (v !! i); split; congruence. Qed.

Lemma assign_index_Ok (v v' : list A) (i : nat) (x : A) :
  assign_index v i x = Ok v' <-> (i < length v)%nat /\ v' = <[i := x]> v.
Proof.
  unfold assign_index. destruct (decide (i < length v)%nat); split.
  - intros [= <-]. done.
  - intros [_ ->]. done.
  - discriminate.
  - intros [? _]. lia.
Qed.

(** A result vector has one entry per turn of the loop. *)
Lemma for_each_Ok_lookup (f : A -> outcome B) (l : list A) (bs : list B) :
  for_each f l = Ok bs ->
  length bs = length l /\
  forall i a, l !! i = Some a -> exists b, f a = Ok b /\ bs !! i = Some b.
Proof.
  revert bs. induction l as [|a l IH]; intros bs; cbn.
  - intros [= <-]. split; [done|]. intros i a. by rewrite lookup_nil.
  - intros H. apply bind_Ok_inv in H as (b & Hb & H).
    apply bind_Ok_inv in H as (bs' & Hbs & [= <-]).
    destruct (IH _ Hbs) as [Hlen Hlk]. split; [cbn; lia|].
    intros [|i] a'; cbn; [intros [= <-]; eauto | apply Hlk].
Qed.

(** When every turn returns, the loop returns the vector of the results. *)
Lemma for_each_map (f : A -> outcome B) (g : A -> B) (l : list A) :
  (forall a, a ∈ l -> f a = Ok (g a)) -> for_each f l = Ok (map g l).
Proof.
  induction l as [|a l IH]; intros H; cbn; [done|].
  rewrite H by left. cbn. rewrite IH; [done|].
  intros x Hx. apply H. by right.
Qed.

(** The loop leaves with the exception [e] when one turn throws it and the
    turns before return or throw it too. *)
Lemma for_each_throws (f : A -> outcome B) (e : exception) (l : list A) (a : A) :
  a ∈ l -> f a = Throw e ->
  (forall x, x ∈ l -> (exists b, f x = Ok b) \/ f x = Throw e) ->
  for_each f l = Throw e.
Proof.
  induction l as [|x l IH]; intros Hin Ha Hall; [by apply elem_of_nil in Hin|].
  cbn. destruct (Hall x) as [[b Hb]|Hx]; [left | | by rewrite Hx].
  rewrite Hb. cbn. apply elem_of_cons in Hin as [<-|Hin]; [congruence|].
  rewrite IH; [done | done | done |]. intros y Hy. apply Hall. by right.
Qed.

(** If one turn throws and no turn before it has undefined behaviour, the
    loop throws, and what it throws is thrown by that turn or one before. *)
Lemma for_each_defined_throws (f : A -> outcome B) (l1 l2 : list A) (a : A)
    (e : exception) :
  f a = Throw e ->
  (forall x, x ∈ l1 -> f x <> Undefined) ->
  exists e' x, x ∈ l1 ++ [a] /\ f x = Throw e'
               /\ for_each f (l1 ++ a :: l2) = Throw e'.
Proof.
  intros Ha. induction l1 as [|x l1 IH]; intros Hdef; cbn.
  - exists e, a. rewrite Ha. split_and!; [left | done | done].
  - destruct (f x) as [b|e'|] eqn:Hx.
    + destruct IH as (e' & y & Hy & Hfy & Hloop).
      { intros y Hy. apply Hdef. by right. }
      exists e', y. cbn. rewrite Hloop. split_and!; [by right | done | done].
    + exists e', x. split_and!; [left | done | done].
    + exfalso. apply (Hdef x); [left | done].
Qed.

(** What a loop throws is thrown by one of its turns. *)
Lemma for_each_Throw_inv (f : A -> outcome B) (l : list A) (e : exception) :
  for_each f l = Throw e -> exists x, x ∈ l /\ f x = Throw e.
Proof.
  induction l as [|a l IH]; cbn; [discriminate|].
  destruct (f a) as [b|e'|] eqn:Ha; cbn; [|intros [= <-]; exists a; split; [left|done]|discriminate].
  destruct (for_each f l) as [bs|e'|]; cbn; [discriminate| |discriminate].
  intros [= <-]. destruct IH as (x & Hx & Hfx); [done|].
  exists x. split; [by right | done].
Qed.

End Loops.

Section StateLoops.

Context {A S : Type}.

(** An invariant of the turns is an invariant of the loop. *)
Lemma for_loop_invariant (P : S -> Prop) (body : A -> S -> outcome S) (l : list A) :
  (forall a s s', a ∈ l -> P s -> body a s = Ok s' -> P s') ->
  forall s s', P s -> for_loop body l s = Ok s' -> P s'.
Proof.
  induction l as [|a l IH]; intros Hstep s s' Hs; cbn.
  - by intros [= <-].
  - intros H. apply bind_Ok_inv in H as (s1 & H1 & H).
    eapply IH; [| |exact H].
    + intros x t t' Hx. apply Hstep. by right.
    + eapply Hstep; [left | exact Hs | exact H1].
Qed.

(** The same with the turns done so far in view. *)
Lemma for_loop_prefix_invariant (P : list A -> S -> Prop)
    (body : A -> S -> outcome S) (l : list A) :
  (forall done a rest s s', l = done ++ a :: rest ->
     P done s -> body a s = Ok s' -> P (done ++ [a]) s') ->
  forall s s', P [] s -> for_loop body l s = Ok s' -> P l s'.
Proof.
  intros Hstep.
  assert (Hgen : forall rest done s s', l = done ++ rest ->
            P done s -> for_loop body rest s = Ok s' -> P l s').
  { induction rest as [|a rest IH]; intros done s s' Hl Hs; cbn.
    - intros [= <-]. by rewrite Hl, app_nil_r.
    - intros H. apply bind_Ok_inv in H as (s1 & H1 & H).
      apply (IH (done ++ [a]) s1 s'); [by rewrite <- app_assoc | | done].
      by apply (Hstep done a rest s s1). }
  intros s s'. by apply (Hgen l []).
Qed.

End StateLoops.

(** ** Properties of the equilibration set-up *)

Section SetUp.

Import Equil Equil.InitialStateComputer.

(** [getEquil] returns the records of the keyword when every accuracy target
    is 0. *)
Lemma getEquil_returns (deck : Deck) (eql : EquilWrapper.t) :
  EQUIL deck = Some eql ->
  (forall r, (r < EquilWrapper.numRegions eql)%nat ->
     EquilWrapper.initializationTargetAccuracy eql r = 0) ->
  exists rec, getEquil deck = Ok rec
    /\ length rec = EquilWrapper.numRegions eql
    /\ forall rec_r, rec_r ∈ rec -> N rec_r = 0.
Proof.
  intros Heql Hn. unfold getEquil. rewrite Heql. cbn zeta.
  eexists. split_and!.
  - apply for_each_map. intros r Hr. apply elem_of_seq in Hr as [_ Hr].
    cbn [N]. rewrite (Hn r) by lia. cbn. reflexivity.
  - by rewrite length_map, length_seq.
  - intros rec_r Hin. apply list_elem_of_fmap in Hin as (r & -> & Hr).
    reflexivity.
Qed.

(** The records [getEquil] returns all have accuracy target 0. *)
Lemma getEquil_Ok_N (deck : Deck) (rec : list EquilRecord) (rec_r : EquilRecord) :
  getEquil deck = Ok rec -> rec_r ∈ rec -> N rec_r = 0.
Proof.
  unfold getEquil. destruct (EQUIL deck) as [eql|]; [|discriminate].
  cbn zeta. intros H Hin. apply for_each_Ok_lookup in H as [Hlen H].
  apply list_elem_of_lookup in Hin as [i Hi].
  assert (Hlt : (i < length (seq 0 (EquilWrapper.numRegions eql)))%nat).
  { rewrite <- Hlen. by eapply lookup_lt_Some. }
  destruct (lookup_lt_is_Some_2 _ _ Hlt) as [r Hr].
  destruct (H i r Hr) as (b & Hb & Hlk).
  assert (b = rec_r) as -> by congruence.
  cbn [N] in Hb.
  destruct (EquilWrapper.initializationTargetAccuracy eql r =? 0) eqn:E;
    cbn in Hb; [|discriminate].
  injection Hb as <-. cbn. lia.
Qed.

(** [getEquil] throws as soon as one record has a non-zero accuracy target. *)
Lemma getEquil_throws (deck : Deck) (eql : EquilWrapper.t) (r : nat) :
  EQUIL deck = Some eql ->
  (r < EquilWrapper.numRegions eql)%nat ->
  EquilWrapper.initializationTargetAccuracy eql r <> 0 ->
  getEquil deck = Throw only_N0_supported.
Proof.
  intros Heql Hr Hn. unfold getEquil. rewrite Heql. cbn zeta.
  apply for_each_throws with (a := r).
  - apply elem_of_seq. lia.
  - cbn [N]. destruct (Z.eqb_spec (EquilWrapper.initializationTargetAccuracy eql r) 0);
      [contradiction | reflexivity].
  - intros x _. cbn [N].
    destruct (EquilWrapper.initializationTargetAccuracy eql x =? 0); cbn; eauto.
Qed.

Lemma int_sub_in_range (v : Z) :
  INT_MIN < v <= INT_MAX -> int_sub v 1 = v - 1.
Proof.
  unfold INT_MIN, INT_MAX, int_sub, wrap_int. intros H.
  rewrite Z.mod_small by lia. lia.
Qed.

(** A loop that assigns [v[c] = f(c)] for [c] from [a] to [a + k - 1]. *)
Lemma fill_loop_Ok {A : Type} (f : nat -> outcome A)
    (body : nat -> list A -> outcome (list A)) :
  (forall c v, body c v = f c ≫= assign_index v c) ->
  forall (k a : nat) (v0 v : list A),
    for_loop body (seq a k) v0 = Ok v ->
    length v = length v0
    /\ (forall c, (a <= c < a + k)%nat -> exists x, f c = Ok x /\ v !! c = Some x)
    /\ (forall c, (c < a)%nat -> v !! c = v0 !! c).
Proof.
  intros Hbody. induction k as [|k IH]; intros a v0 v; cbn.
  - intros [= <-]. split_and!; [done | lia | done].
  - intros H. apply bind_Ok_inv in H as (v1 & H1 & H).
    rewrite Hbody in H1. apply bind_Ok_inv in H1 as (x & Hx & H1).
    apply assign_index_Ok in H1 as [Hlt ->].
    destruct (IH _ _ _ H) as (Hlen & Hin & Hout).
    rewrite length_insert in Hlen. split_and!; [done | |].
    + intros c Hc. destruct (decide (c = a)) as [->|Hne].
      * exists x. split; [done|]. rewrite Hout by lia.
        by apply list_lookup_insert_eq.
      * apply Hin. lia.
    + intros c Hc. rewrite Hout by lia. apply list_lookup_insert_ne. lia.
Qed.

Lemma fill_loop_returns {A : Type} (f : nat -> outcome A)
    (body : nat -> list A -> outcome (list A)) :
  (forall c v, body c v = f c ≫= assign_index v c) ->
  forall (k a : nat) (v0 : list A),
    (forall c, (a <= c < a + k)%nat -> exists x, f c = Ok x) ->
    (a + k <= length v0)%nat ->
    exists v, for_loop body (seq a k) v0 = Ok v.
Proof.
  intros Hbody. induction k as [|k IH]; intros a v0 Hf Hlen; cbn; [eauto|].
  destruct (Hf a) as [x Hx]; [lia|].
  rewrite Hbody, Hx. cbn. unfold assign_index.
  destruct (decide (a < length v0)%nat); [|lia]. cbn.
  apply IH; [intros c Hc; apply Hf; lia | rewrite length_insert; lia].
Qed.

(** The value [equilnum] assigns to a cell, before it is stored. *)
Lemma equilnum_body (gc : option (list Z)) (e : list Z) (c : nat) (v : list Z) :
  (deck_pos ← deck_position gc c; x ← at_int e deck_pos; assign_index v c (int_sub x 1))
  = (deck_pos ← deck_position gc c; x ← at_int e deck_pos; Ok (int_sub x 1))
      ≫= assign_index v c.
Proof.
  destruct (deck_position gc c); cbn; [|done|done].
  destruct (at_int e _); done.
Qed.

(** [equilnum] returns when every cell's deck position is inside the EQLNUM
    data (and inside [global_cell] when the grid has one). *)
Lemma equilnum_returns (deck : Deck) (eclipseState : EclipseState)
    (G : UnstructuredGrid) :
  (EQLNUM deck = true ->
   forall cell, (cell < number_of_cells G)%nat ->
     exists deck_pos v,
       deck_position (global_cell G) cell = Ok deck_pos
       /\ at_int (EQLNUM_data eclipseState) deck_pos = Ok v) ->
  exists eqlnum, equilnum deck eclipseState G = Ok eqlnum.
Proof.
  intros H. unfold equilnum. destruct (EQLNUM deck); [|eauto].
  cbn zeta. eapply fill_loop_returns.
  - intros c v. apply equilnum_body.
  - intros c Hc. destruct (H eq_refl c) as (pos & v & -> & Hv); [lia|].
    cbn. rewrite Hv. cbn. eauto.
  - rewrite length_replicate. lia.
Qed.

Lemma equilnum_length (deck : Deck) (eclipseState : EclipseState)
    (G : UnstructuredGrid) (eqlnum : list Z) :
  equilnum deck eclipseState G = Ok eqlnum -> length eqlnum = number_of_cells G.
Proof.
  unfold equilnum. destruct (EQLNUM deck); cbn zeta; intros H.
  - eapply fill_loop_Ok in H as (Hlen & _); [|intros c v; apply equilnum_body].
    by rewrite length_replicate in Hlen.
  - injection H as <-. apply length_replicate.
Qed.

(** *** The region mapping *)

Lemma cells_elem_of (reg : RegionMapping.t) (r c : nat) :
  c ∈ RegionMapping.cells reg r
  <-> RegionMapping.region_of_cell reg !! c = Some (Z.of_nat r).
Proof.
  unfold RegionMapping.cells. rewrite list_elem_of_filter, elem_of_seq.
  split; [by intros [? _]|]. intros H. split; [done|].
  apply lookup_lt_Some in H. lia.
Qed.

(** The regions are disjoint. *)
Lemma cells_disjoint (reg : RegionMapping.t) (r r' c : nat) :
  c ∈ RegionMapping.cells reg r -> r' <> r -> c ∉ RegionMapping.cells reg r'.
Proof. rewrite !cells_elem_of. intros H Hne H'. rewrite H in H'. simplify_eq. Qed.

Lemma cells_NoDup (reg : RegionMapping.t) (r : nat) :
  NoDup (RegionMapping.cells reg r).
Proof. apply list.NoDup_filter, NoDup_seq. Qed.

Lemma cells_lt (reg : RegionMapping.t) (r c : nat) :
  c ∈ RegionMapping.cells reg r -> (c < length (RegionMapping.region_of_cell reg))%nat.
Proof. rewrite cells_elem_of. apply lookup_lt_Some. Qed.

(** C5: the region id [equilnum] gives a cell is, under EQLNUM, the EQLNUM
    value at the cell's deck position (the cell index itself when the grid has
    no [global_cell], [global_cell[cell]] otherwise) minus one, in [int]
    arithmetic, which is the plain difference unless the value is [INT_MIN];
    without EQLNUM it is 0. *)
Theorem equilnum_region_ids (deck : Deck) (eclipseState : EclipseState)
    (G : UnstructuredGrid) (eqlnum : list Z) (cell : nat) :
  equilnum deck eclipseState G = Ok eqlnum ->
  (cell < number_of_cells G)%nat ->
  length eqlnum = number_of_cells G /\
  if EQLNUM deck then
    exists deck_pos v,
      match global_cell G with
      | None => deck_pos = Z.of_nat cell
      | Some gc => gc !! cell = Some deck_pos
      end
      /\ 0 <= deck_pos
      /\ EQLNUM_data eclipseState !! Z.to_nat deck_pos = Some v
      /\ eqlnum !! cell = Some (int_sub v 1)
      /\ (INT_MIN < v <= INT_MAX -> eqlnum !! cell = Some (v - 1))
  else eqlnum !! cell = Some 0.
Proof.
  unfold equilnum. intros H Hcell. destruct (EQLNUM deck).
  - cbn zeta in H.
    eapply fill_loop_Ok in H as (Hlen & Hin & _);
      [|intros c v; apply equilnum_body].
    rewrite length_replicate in Hlen. split; [done|].
    destruct (Hin cell) as (x & Hx & Hlk); [lia|].
    apply bind_Ok_inv in Hx as (pos & Hpos & Hx).
    apply bind_Ok_inv in Hx as (v & Hv & [= <-]).
    exists pos, v. unfold at_int in Hv.
    destruct (Z.ltb_spec pos 0); [discriminate|].
    apply at_index_Ok in Hv. split_and!; [|done|done|done|].
    + unfold deck_position in Hpos. destruct (global_cell G).
      * by apply at_index_Ok.
      * congruence.
    + intros Hv'. by rewrite <- int_sub_in_range.
  - injection H as <-. rewrite length_replicate. split; [done|].
    by apply lookup_replicate_2.
Qed.

End SetUp.

(** [equilnum] on the two cells of a grid whose deck order is the opposite
    one, EQLNUM being 2 and 1: cell 0 is in region 0, cell 1 in region 1. *)
Lemma equilnum_region_ids_witness :
  Equil.equilnum
    (Examples.equil_deck (Examples.equil1 1000 1000 0 0 0) true false false)
    Examples.eclipse_state_two_regions Examples.grid2_swapped
  = Ok [0; 1]
  /\ length [0; 1] = 2%nat
  /\ exists deck_pos v,
       [1; 0] !! 1%nat = Some deck_pos
       /\ 0 <= deck_pos
       /\ [2; 1] !! Z.to_nat deck_pos = Some v
       /\ [0; 1] !! 1%nat = Some (int_sub v 1)
       /\ (INT_MIN < v <= INT_MAX -> [0; 1] !! 1%nat = Some (v - 1)).
Proof.
  split; [reflexivity|].
  apply (equilnum_region_ids
           (Examples.equil_deck (Examples.equil1 1000 1000 0 0 0) true false false)
           Examples.eclipse_state_two_regions Examples.grid2_swapped [0; 1] 1%nat).
  - reflexivity.
  - cbn. lia.
Defined.

(** ** Properties of the construction of [InitialStateComputer] *)

Section Construction.

Import Equil Equil.InitialStateComputer.

Variable phasePressures : UnstructuredGrid -> EqReg -> list nat -> float -> PVec.
Variable temperature : UnstructuredGrid -> EqReg -> list nat -> Vec.
Variable phaseSaturations :
  UnstructuredGrid -> EqReg -> list nat -> BlackoilPropertiesInterface ->
  Vec -> PVec -> PVec * PVec.
Variable satRs : BlackoilPropertiesInterface -> nat -> float -> float -> float.
Variable satRv : BlackoilPropertiesInterface -> nat -> float -> float -> float.
Variable linearInterpolation : list float -> list float -> float -> float.

#[local] Abbreviation construct :=
  (constructor phasePressures temperature phaseSaturations satRs satRv
     linearInterpolation).
#[local] Abbreviation calc :=
  (calcPressSatRsRv phasePressures temperature phaseSaturations satRs satRv
     linearInterpolation).
#[local] Abbreviation step :=
  (region_step phasePressures temperature phaseSaturations satRs satRv
     linearInterpolation).
#[local] Abbreviation values :=
  (region_values phasePressures temperature phaseSaturations).
#[local] Abbreviation compute_rs := (computeRs satRs satRv linearInterpolation).

(** The members with which [calcPressSatRsRv] is entered. *)
#[local] Abbreviation members_before_calc props G rs_funcs rv_funcs swat :=
  (set_swat_init_ swat
     (set_rv_func_ rv_funcs (set_rs_func_ rs_funcs (member_initialisers props G)))).

Lemma for_each_const {A B : Type} (b : B) (l : list A) :
  for_each (fun _ => Ok b) l = Ok (replicate (length l) b).
Proof. induction l as [|a l IH]; cbn; [done|]. by rewrite IH. Qed.

(** *** Loops that push onto a member *)

(** A loop whose turns compute a value and push it: the outcome is the one
    of computing the values, and the member has gained the values computed
    before the first turn that does not return. *)
Lemma for_M_push_run {A B S : Type} (f : A -> outcome B) (push : B -> S -> S)
    (l : list A) (s : S) :
  for_M (fun a => (x <- lift (f a);; modify (push x))%cpp) l s
  = (for_each f l ≫= (fun _ => Ok tt),
     foldl (fun s x => push x s) s (returned_before f l)).
Proof.
  revert s. induction l as [|a l IH]; intros s; [done|].
  cbn. unfold bind at 1 2, lift, modify. destruct (f a) as [b| |]; cbn; [|done|done].
  rewrite IH. by destruct (for_each f l).
Qed.

Lemma for_M_modify_run {A B S : Type} (b : B) (push : B -> S -> S)
    (l : list A) (s : S) :
  for_M (fun _ => modify (push b)) l s
  = (Ok tt, foldl (fun s x => push x s) s (replicate (length l) b)).
Proof.
  revert s. induction l as [|a l IH]; intros s; [done|].
  cbn. unfold bind, modify at 1. by rewrite IH.
Qed.

Lemma returned_before_Ok {A B : Type} (f : A -> outcome B) (l : list A)
    (bs : list B) :
  for_each f l = Ok bs -> returned_before f l = bs.
Proof.
  revert bs. induction l as [|a l IH]; intros bs; cbn.
  - by intros [= <-].
  - destruct (f a) as [b| |]; cbn; [|discriminate..].
    destruct (for_each f l) as [bs'| |]; cbn; [|discriminate..].
    intros [= <-]. by rewrite (IH bs').
Qed.

Lemma foldl_push_back_rs_func_ (fs : list RsFunction) (self : t) :
  foldl (fun s x => push_back_rs_func_ x s) self fs
  = set_rs_func_ (rs_func_ self ++ fs) self.
Proof.
  revert self. induction fs as [|f fs IH]; intros self; cbn.
  - destruct self. unfold set_rs_func_. cbn. by rewrite app_nil_r.
  - rewrite IH. unfold push_back_rs_func_, set_rs_func_. cbn.
    by rewrite <- app_assoc.
Qed.

Lemma foldl_push_back_rv_func_ (fs : list RsFunction) (self : t) :
  foldl (fun s x => push_back_rv_func_ x s) self fs
  = set_rv_func_ (rv_func_ self ++ fs) self.
Proof.
  revert self. induction fs as [|f fs IH]; intros self; cbn.
  - destruct self. unfold set_rv_func_. cbn. by rewrite app_nil_r.
  - rewrite IH. unfold push_back_rv_func_, set_rv_func_. cbn.
    by rewrite <- app_assoc.
Qed.

(** The loop that creates the Rs functions: its outcome is the one of
    [create_rs_functions], and [rs_func_] has gained the functions of the
    regions before the first whose turn does not return. *)
Lemma push_rs_functions_run (props : BlackoilPropertiesInterface) (deck : Deck)
    (eclipseState : EclipseState) (eqlmap : RegionMapping.t)
    (rec : list EquilRecord) (self : t) :
  push_rs_functions props deck eclipseState eqlmap rec self
  = (create_rs_functions props deck eclipseState eqlmap rec ≫= (fun _ => Ok tt),
     set_rs_func_
       (rs_func_ self ++ rs_functions_pushed props deck eclipseState eqlmap rec)
       self).
Proof.
  unfold push_rs_functions, create_rs_functions, rs_functions_pushed.
  destruct (DISGAS deck); cbn zeta.
  - by rewrite for_M_push_run, foldl_push_back_rs_func_.
  - by rewrite for_M_modify_run, foldl_push_back_rs_func_, for_each_const,
      length_seq.
Qed.

Lemma push_rv_functions_run (props : BlackoilPropertiesInterface) (deck : Deck)
    (eclipseState : EclipseState) (eqlmap : RegionMapping.t)
    (rec : list EquilRecord) (self : t) :
  push_rv_functions props deck eclipseState eqlmap rec self
  = (create_rv_functions props deck eclipseState eqlmap rec ≫= (fun _ => Ok tt),
     set_rv_func_
       (rv_func_ self ++ rv_functions_pushed props deck eclipseState eqlmap rec)
       self).
Proof.
  unfold push_rv_functions, create_rv_functions, rv_functions_pushed.
  destruct (VAPOIL deck); cbn zeta.
  - by rewrite for_M_push_run, foldl_push_back_rv_func_.
  - by rewrite for_M_modify_run, foldl_push_back_rv_func_, for_each_const,
      length_seq.
Qed.

(** When the creation returns, the functions pushed are the ones it returns. *)
Lemma rs_functions_pushed_Ok (props : BlackoilPropertiesInterface) (deck : Deck)
    (eclipseState : EclipseState) (eqlmap : RegionMapping.t)
    (rec : list EquilRecord) (fs : list RsFunction) :
  create_rs_functions props deck eclipseState eqlmap rec = Ok fs ->
  rs_functions_pushed props deck eclipseState eqlmap rec = fs.
Proof.
  unfold create_rs_functions, rs_functions_pushed.
  destruct (DISGAS deck); cbn zeta.
  - apply returned_before_Ok.
  - rewrite for_each_const, length_seq. by intros [= <-].
Qed.

Lemma rv_functions_pushed_Ok (props : BlackoilPropertiesInterface) (deck : Deck)
    (eclipseState : EclipseState) (eqlmap : RegionMapping.t)
    (rec : list EquilRecord) (fs : list RsFunction) :
  create_rv_functions props deck eclipseState eqlmap rec = Ok fs ->
  rv_functions_pushed props deck eclipseState eqlmap rec = fs.
Proof.
  unfold create_rv_functions, rv_functions_pushed.
  destruct (VAPOIL deck); cbn zeta.
  - apply returned_before_Ok.
  - rewrite for_each_const, length_seq. by intros [= <-].
Qed.

(** What a successful construction went through. *)
Lemma constructor_Ok_inv (props : BlackoilPropertiesInterface) (deck : Deck)
    (eclipseState : EclipseState) (G : UnstructuredGrid) (grav : float) (self : t) :
  construct props deck eclipseState G grav = (Ok tt, self) ->
  exists rec eqlnum rs_funcs rv_funcs swat,
    getEquil deck = Ok rec
    /\ equilnum deck eclipseState G = Ok eqlnum
    /\ create_rs_functions props deck eclipseState
         {| RegionMapping.region_of_cell := eqlnum |} rec = Ok rs_funcs
    /\ create_rv_functions props deck eclipseState
         {| RegionMapping.region_of_cell := eqlnum |} rec = Ok rv_funcs
    /\ read_swat_init deck eclipseState G [] = Ok swat
    /\ calc {| RegionMapping.region_of_cell := eqlnum |} rec props G grav
         (members_before_calc props G rs_funcs rv_funcs swat) = Ok self.
Proof.
  unfold constructor, constructor_body, bind, lift, get_self, put_self.
  destruct (getEquil deck) as [rec| |]; [|discriminate..].
  destruct (equilnum deck eclipseState G) as [eqlnum| |]; [|discriminate..].
  rewrite push_rs_functions_run.
  destruct (create_rs_functions _ _ _ _ _) as [rs_funcs| |] eqn:Hrs;
    cbn [mbind outcome_bind]; [|discriminate..].
  rewrite (rs_functions_pushed_Ok _ _ _ _ _ _ Hrs), push_rv_functions_run.
  destruct (create_rv_functions _ _ _ _ _) as [rv_funcs| |] eqn:Hrv;
    cbn [mbind outcome_bind]; [|discriminate..].
  rewrite (rv_functions_pushed_Ok _ _ _ _ _ _ Hrv).
  cbn [swat_init_ rs_func_ rv_func_ set_rv_func_ set_rs_func_ member_initialisers
       app].
  destruct (read_swat_init _ _ _ _) as [swat| |] eqn:Hswat; [|discriminate..].
  destruct (calc _ _ _ _ _ _) as [self'| |] eqn:Hcalc; [|discriminate..].
  intros [= <-]. exists rec, eqlnum, rs_funcs, rv_funcs, swat. done.
Qed.

(** C2: when some record of EQUIL has a non-zero accuracy target, [getEquil]
    throws the [std::domain_error] "Only N=0 supported", and so does the
    constructor, its body having done nothing else: the pressure, saturation,
    Rs and Rv members are as the member initialisers left them, all zero, and
    no miscibility function has been created. *)
Theorem nonzero_accuracy_target_rejected (props : BlackoilPropertiesInterface)
    (deck : Deck) (eclipseState : EclipseState) (G : UnstructuredGrid)
    (grav : float) (eql : EquilWrapper.t) (r : nat) :
  EQUIL deck = Some eql ->
  (r < EquilWrapper.numRegions eql)%nat ->
  EquilWrapper.initializationTargetAccuracy eql r <> 0 ->
  getEquil deck = Throw only_N0_supported
  /\ is_domain_error only_N0_supported = true
  /\ exists self,
       construct props deck eclipseState G grav = (Throw only_N0_supported, self)
       /\ self = member_initialisers props G
       /\ press self = replicate (numPhases props) (zeros (number_of_cells G))
       /\ saturation self = replicate (numPhases props) (zeros (number_of_cells G))
       /\ rs self = zeros (number_of_cells G)
       /\ rv self = zeros (number_of_cells G)
       /\ rs_func_ self = [] /\ rv_func_ self = [].
Proof.
  intros Heql Hr Hn.
  pose proof (getEquil_throws deck eql r Heql Hr Hn) as Hthrow.
  split_and!; [done | done |].
  exists (member_initialisers props G).
  unfold constructor, constructor_body, bind, lift. rewrite Hthrow.
  split_and!; reflexivity.
Qed.

(** Without DISGAS every region gets [NoMixing] for Rs. *)
Lemma create_rs_functions_without_DISGAS (props : BlackoilPropertiesInterface)
    (deck : Deck) (eclipseState : EclipseState) (eqlmap : RegionMapping.t)
    (rec : list EquilRecord) :
  DISGAS deck = false ->
  create_rs_functions props deck eclipseState eqlmap rec
  = Ok (replicate (length rec) NoMixing).
Proof.
  intros H. unfold create_rs_functions. rewrite H, for_each_const.
  by rewrite length_seq.
Qed.

(** Without VAPOIL every region gets [NoMixing] for Rv. *)
Lemma create_rv_functions_without_VAPOIL (props : BlackoilPropertiesInterface)
    (deck : Deck) (eclipseState : EclipseState) (eqlmap : RegionMapping.t)
    (rec : list EquilRecord) :
  VAPOIL deck = false ->
  create_rv_functions props deck eclipseState eqlmap rec
  = Ok (replicate (length rec) NoMixing).
Proof.
  intros H. unfold create_rv_functions. rewrite H, for_each_const.
  by rewrite length_seq.
Qed.

(** *** What [calcPressSatRsRv] leaves alone *)

Lemma copy_phase_Ok_inv (press sat : PVec) (cells : list nat) (p : nat) (self self' : t) :
  copy_phase press sat cells p self = Ok self' ->
  exists press_p pp_p pp_p' sat_p sat_p_ sat_p',
    press !! p = Some press_p /\ pp_ self !! p = Some pp_p
    /\ copyFromRegion press_p cells pp_p = Ok pp_p'
    /\ sat !! p = Some sat_p /\ sat_ self !! p = Some sat_p_
    /\ copyFromRegion sat_p cells sat_p_ = Ok sat_p'
    /\ self' = set_sat_ (<[p := sat_p']> (sat_ self))
                 (set_pp_ (<[p := pp_p']> (pp_ self)) self).
Proof.
  unfold copy_phase. intros H.
  apply bind_Ok_inv in H as (press_p & H1 & H).
  apply bind_Ok_inv in H as (pp_p & H2 & H).
  apply bind_Ok_inv in H as (pp_p' & H3 & H).
  apply bind_Ok_inv in H as (sat_p & H4 & H).
  apply bind_Ok_inv in H as (sat_p_ & H5 & H).
  apply bind_Ok_inv in H as (sat_p' & H6 & [= <-]).
  apply at_index_Ok in H1, H2, H4, H5. cbn in H5.
  exists press_p, pp_p, pp_p', sat_p, sat_p_, sat_p'. done.
Qed.

(** *** [copyFromRegion] *)

(** A cell outside the range keeps its value. *)
Lemma copyFromRegion_other (cells : list nat) (source destination d' : Vec) (c : nat) :
  copyFromRegion source cells destination = Ok d' ->
  c ∉ cells -> d' !! c = destination !! c.
Proof.
  revert source destination.
  induction cells as [|c0 cells IH]; intros source d; cbn.
  - intros H. by simplify_eq.
  - destruct source as [|x source]; [discriminate|]. intros H Hc.
    apply bind_Ok_inv in H as (d1 & H1 & H).
    apply assign_index_Ok in H1 as [Hlt ->].
    apply not_elem_of_cons in Hc as [Hne Hc].
    rewrite (IH _ _ H Hc). apply list_lookup_insert_ne. congruence.
Qed.

(** Every slot keeps its value or takes one of the source. *)
Lemma copyFromRegion_old_or_source (cells : list nat) (source destination d' : Vec)
    (c : nat) :
  copyFromRegion source cells destination = Ok d' ->
  d' !! c = destination !! c \/ exists x, x ∈ source /\ d' !! c = Some x.
Proof.
  revert source destination.
  induction cells as [|c0 cells IH]; intros source d; cbn.
  - intros H. simplify_eq. by left.
  - destruct source as [|x source]; [discriminate|]. intros H.
    apply bind_Ok_inv in H as (d1 & H1 & H).
    apply assign_index_Ok in H1 as [Hlt ->].
    destruct (IH _ _ H) as [Hsame|(y & Hy & Hlk)].
    + destruct (decide (c = c0)) as [->|Hne].
      * right. exists x. split; [left|].
        rewrite Hsame. by apply list_lookup_insert_eq.
      * left. rewrite Hsame. apply list_lookup_insert_ne. congruence.
    + right. exists y. split; [by right | done].
Qed.

(** The [k]-th cell of the range receives the [k]-th value of the source. *)
Lemma copyFromRegion_lookup (cells : list nat) (source destination d' : Vec)
    (k c : nat) :
  NoDup cells ->
  copyFromRegion source cells destination = Ok d' ->
  cells !! k = Some c ->
  exists x, source !! k = Some x /\ d' !! c = Some x.
Proof.
  revert source destination k.
  induction cells as [|c0 cells IH]; intros source d k Hnd; cbn.
  - intros _. by rewrite lookup_nil.
  - destruct source as [|x source]; [discriminate|]. intros H Hk.
    apply bind_Ok_inv in H as (d1 & H1 & H).
    apply assign_index_Ok in H1 as [Hlt ->].
    pose proof (NoDup_cons_1_1 _ _ Hnd) as Hnotin.
    apply NoDup_cons_1_2 in Hnd.
    destruct k as [|k]; cbn in Hk.
    + injection Hk as <-. exists x. split; [done|].
      rewrite (copyFromRegion_other _ _ _ _ _ H Hnotin).
      by apply list_lookup_insert_eq.
    + by apply (IH source _ k Hnd H).
Qed.

(** *** What [calcPressSatRsRv] leaves alone *)

Lemma copy_phase_frame (press sat : PVec) (cells : list nat) (p : nat) (self self' : t) :
  copy_phase press sat cells p self = Ok self' ->
  same_functions self self' /\ rs_ self' = rs_ self /\ rv_ self' = rv_ self.
Proof.
  intros H. apply copy_phase_Ok_inv in H as (? & ? & ? & ? & ? & ? & H).
  destruct H as (_ & _ & _ & _ & _ & _ & ->). by repeat split.
Qed.

Lemma copy_phases_frame (press sat : PVec) (cells : list nat) (l : list nat)
    (self self' : t) :
  for_loop (copy_phase press sat cells) l self = Ok self' ->
  same_functions self self' /\ rs_ self' = rs_ self /\ rv_ self' = rv_ self.
Proof.
  apply (for_loop_invariant
           (fun s => same_functions self s /\ rs_ s = rs_ self /\ rv_ s = rv_ self)).
  - intros p s s' _ (Hf & Hrs & Hrv) H.
    apply copy_phase_frame in H as (Hf' & Hrs' & Hrv').
    unfold same_functions in *. destruct Hf as (? & ? & ?), Hf' as (? & ? & ?).
    split_and!; congruence.
  - by repeat split.
Qed.

(** The values of a region depend on the members through the miscibility
    functions and the prescribed water saturation only. *)
Lemma region_values_same (reg : RegionMapping.t) (rec : list EquilRecord)
    (props : BlackoilPropertiesInterface) (G : UnstructuredGrid) (grav : float)
    (r : nat) (self self' : t) :
  same_functions self self' ->
  values reg rec props G grav r self' = values reg rec props G grav r self.
Proof.
  intros (Hrs & Hrv & Hsw). unfold region_values. by rewrite Hrs, Hrv, Hsw.
Qed.

Lemma region_values_cells (reg : RegionMapping.t) (rec : list EquilRecord)
    (props : BlackoilPropertiesInterface) (G : UnstructuredGrid) (grav : float)
    (r : nat) (self : t) (v : RegionValues) :
  values reg rec props G grav r self = Ok v ->
  region_cells v = RegionMapping.cells reg r.
Proof.
  unfold region_values. intros H.
  apply bind_Ok_inv in H as (? & _ & H).
  apply bind_Ok_inv in H as (? & _ & H).
  apply bind_Ok_inv in H as (? & _ & H).
  apply bind_Ok_inv in H as (? & _ & [= <-]). done.
Qed.

(** What a turn of the loop over the regions went through. *)
Lemma region_step_Ok_inv (reg : RegionMapping.t) (rec : list EquilRecord)
    (props : BlackoilPropertiesInterface) (G : UnstructuredGrid) (grav : float)
    (r : nat) (self self' : t) :
  step reg rec props G grav r self = Ok self' ->
  exists v self1,
    values reg rec props G grav r self = Ok v
    /\ for_loop (copy_phase (region_press v) (region_sat v) (region_cells v))
         (seq 0 (numPhases props)) self = Ok self1
    /\ if phase_used (phaseUsage props) Liquid && phase_used (phaseUsage props) Vapour
       then
         exists rs_func_r press_oil sat_gas rs rv_func_r press_gas sat_oil rv rs_' rv_',
           rs_func_ self !! r = Some rs_func_r
           /\ compute_rs G (region_cells v) press_oil (region_temp v) rs_func_r sat_gas
              = Ok rs
           /\ rv_func_ self !! r = Some rv_func_r
           /\ compute_rs G (region_cells v) press_gas (region_temp v) rv_func_r sat_oil
              = Ok rv
           /\ copyFromRegion rs (region_cells v) (rs_ self) = Ok rs_'
           /\ copyFromRegion rv (region_cells v) (rv_ self) = Ok rv_'
           /\ self' = set_rv_ rv_' (set_rs_ rs_' self1)
       else self' = self1.
Proof.
  unfold region_step. intros H.
  apply bind_Ok_inv in H as (v & Hv & H). cbn zeta in H.
  apply bind_Ok_inv in H as (self1 & H1 & H).
  exists v, self1. split_and!; [done | done |].
  destruct (copy_phases_frame _ _ _ _ _ _ H1) as ((Hrsf & Hrvf & _) & Hrs & Hrv).
  destruct (phase_used _ Liquid && phase_used _ Vapour); [|congruence].
  apply bind_Ok_inv in H as (rs_func_r & E1 & H).
  apply bind_Ok_inv in H as (press_oil & E2 & H).
  apply bind_Ok_inv in H as (sat_gas & E3 & H).
  apply bind_Ok_inv in H as (rs & E4 & H).
  apply bind_Ok_inv in H as (rv_func_r & E5 & H).
  apply bind_Ok_inv in H as (press_gas & E6 & H).
  apply bind_Ok_inv in H as (sat_oil & E7 & H).
  apply bind_Ok_inv in H as (rv & E8 & H).
  apply bind_Ok_inv in H as (rs_' & E9 & H).
  apply bind_Ok_inv in H as (rv_' & E10 & [= <-]).
  cbn in E10. apply at_index_Ok in E1, E5. rewrite Hrsf in E1. rewrite Hrvf in E5.
  rewrite Hrs in E9. rewrite Hrv in E10.
  exists rs_func_r, press_oil, sat_gas, rs, rv_func_r, press_gas, sat_oil, rv, rs_', rv_'.
  done.
Qed.

Lemma region_step_frame (reg : RegionMapping.t) (rec : list EquilRecord)
    (props : BlackoilPropertiesInterface) (G : UnstructuredGrid) (grav : float)
    (r : nat) (self self' : t) :
  step reg rec props G grav r self = Ok self' -> same_functions self self'.
Proof.
  intros H. apply region_step_Ok_inv in H as (v & self1 & _ & H1 & H).
  apply copy_phases_frame in H1 as (Hf & _ & _).
  destruct (phase_used _ Liquid && phase_used _ Vapour); [|by subst].
  destruct H as (? & ? & ? & ? & ? & ? & ? & ? & ? & ? & H).
  destruct H as (_ & _ & _ & _ & _ & _ & ->). exact Hf.
Qed.

Lemma calcPressSatRsRv_frame (reg : RegionMapping.t) (rec : list EquilRecord)
    (props : BlackoilPropertiesInterface) (G : UnstructuredGrid) (grav : float)
    (self self' : t) :
  calc reg rec props G grav self = Ok self' -> same_functions self self'.
Proof.
  unfold calcPressSatRsRv. cbn zeta.
  apply (for_loop_invariant (fun s => same_functions self s)).
  - intros r s s' _ Hs H. apply region_step_frame in H.
    unfold same_functions in *. destruct Hs as (? & ? & ?), H as (? & ? & ?).
    split_and!; congruence.
  - by repeat split.
Qed.

(** C3: in a constructed [InitialStateComputer], the Rs function of every
    region is [NoMixing] when the deck has no DISGAS and the Rv function of
    every region is [NoMixing] when it has no VAPOIL, whatever the table
    indices of the records; the creation of the functions returns just that
    for any records and any region mapping. *)
Theorem no_feature_flag_no_mixing (props : BlackoilPropertiesInterface)
    (deck : Deck) (eclipseState : EclipseState) (G : UnstructuredGrid)
    (grav : float) (rec : list EquilRecord) (self : t) (i : nat) :
  construct props deck eclipseState G grav = (Ok tt, self) ->
  getEquil deck = Ok rec ->
  (i < length rec)%nat ->
  (DISGAS deck = false ->
     rs_func_ self !! i = Some NoMixing
     /\ forall eqlmap records,
          create_rs_functions props deck eclipseState eqlmap records
          = Ok (replicate (length records) NoMixing))
  /\ (VAPOIL deck = false ->
     rv_func_ self !! i = Some NoMixing
     /\ forall eqlmap records,
          create_rv_functions props deck eclipseState eqlmap records
          = Ok (replicate (length records) NoMixing)).
Proof.
  intros H Hrec Hi.
  apply constructor_Ok_inv in H
    as (rec' & eqlnum & rs_funcs & rv_funcs & swat & Hrec' & _ & Hrs & Hrv & _ & H).
  assert (rec' = rec) as -> by congruence.
  apply calcPressSatRsRv_frame in H as (Hrsf & Hrvf & _). cbn in Hrsf, Hrvf.
  split; intros Hflag; (split; [|intros eqlmap records]).
  - rewrite create_rs_functions_without_DISGAS in Hrs by done.
    injection Hrs as <-. rewrite Hrsf. by apply lookup_replicate_2.
  - by apply create_rs_functions_without_DISGAS.
  - rewrite create_rv_functions_without_VAPOIL in Hrv by done.
    injection Hrv as <-. rewrite Hrvf. by apply lookup_replicate_2.
  - by apply create_rv_functions_without_VAPOIL.
Qed.

(** *** Regions without mixing *)

(** [computeRs] with [NoMixing] returns one zero per cell of the range. *)
Lemma computeRs_NoMixing (G : UnstructuredGrid) (cells : list nat)
    (pressure temp sat ratio : Vec) :
  compute_rs G cells pressure temp NoMixing sat = Ok ratio ->
  ratio = zeros (length cells).
Proof.
  unfold computeRs, zeros. intros H.
  apply for_each_Ok_lookup in H as [Hlen H]. rewrite length_seq in Hlen.
  symmetry. apply replicate_as_Forall. split; [done|].
  apply Forall_lookup. intros i x Hx.
  assert (Hi : (i < length (seq 0 (length cells)))%nat).
  { rewrite length_seq, <- Hlen. by eapply lookup_lt_Some. }
  destruct (lookup_lt_is_Some_2 _ _ Hi) as [count Hcount].
  destruct (H i count Hcount) as (b & Hb & Hlk).
  apply bind_Ok_inv in Hb as (? & _ & Hb).
  apply bind_Ok_inv in Hb as (? & _ & Hb).
  apply bind_Ok_inv in Hb as (? & _ & Hb).
  apply bind_Ok_inv in Hb as (? & _ & Hb).
  cbn in Hb. congruence.
Qed.

Lemma zeros_lookup (n c : nat) : (c < n)%nat -> zeros n !! c = Some 0%float.
Proof. intros H. by apply lookup_replicate_2. Qed.

Lemma zeros_elem_of (n : nat) (x : float) : x ∈ zeros n -> x = 0%float.
Proof. intros H. by apply elem_of_replicate in H as [-> _]. Qed.

(** A region whose two functions are [NoMixing] has zero Rs and Rv in all its
    cells after [calcPressSatRsRv] when it had before. *)
Lemma calcPressSatRsRv_no_mixing (reg : RegionMapping.t) (rec : list EquilRecord)
    (props : BlackoilPropertiesInterface) (G : UnstructuredGrid) (grav : float)
    (self self' : t) (r c : nat) :
  calc reg rec props G grav self = Ok self' ->
  rs_func_ self !! r = Some NoMixing ->
  rv_func_ self !! r = Some NoMixing ->
  c ∈ RegionMapping.cells reg r ->
  rs_ self !! c = Some 0%float -> rv_ self !! c = Some 0%float ->
  rs_ self' !! c = Some 0%float /\ rv_ self' !! c = Some 0%float.
Proof.
  intros H Hrsf Hrvf Hc Hrs Hrv.
  enough (same_functions self self'
          /\ rs_ self' !! c = Some 0%float /\ rv_ self' !! c = Some 0%float)
    as (_ & ? & ?) by done.
  revert H. unfold calcPressSatRsRv. cbn zeta.
  apply (for_loop_invariant
           (fun s => same_functions self s
                     /\ rs_ s !! c = Some 0%float /\ rv_ s !! c = Some 0%float));
    [|by repeat split].
  intros r' s s' _ (Hf & Hs_rs & Hs_rv) Hstep.
  assert (Hf' : same_functions self s').
  { apply region_step_frame in Hstep. unfold same_functions in *.
    destruct Hf as (? & ? & ?), Hstep as (? & ? & ?). split_and!; congruence. }
  split; [done|].
  apply region_step_Ok_inv in Hstep as (v & self1 & Hv & H1 & H).
  apply region_values_cells in Hv.
  apply copy_phases_frame in H1 as (_ & Hrs1 & Hrv1).
  destruct (phase_used _ Liquid && phase_used _ Vapour).
  - destruct H as (rs_func_r & ? & ? & rs & rv_func_r & ? & ? & rv & rs_' & rv_' & H).
    destruct H as (E1 & E2 & E3 & E4 & E5 & E6 & ->). cbn.
    rewrite Hv in *. destruct Hf as (Hf_rs & Hf_rv & _).
    destruct (decide (r' = r)) as [->|Hne].
    + rewrite Hf_rs, Hrsf in E1. rewrite Hf_rv, Hrvf in E3. simplify_eq.
      apply computeRs_NoMixing in E2, E4. subst rs rv.
      destruct (copyFromRegion_old_or_source _ _ _ _ c E5) as [Hq|(q & Hq & Hq')];
        destruct (copyFromRegion_old_or_source _ _ _ _ c E6) as [Hw|(w & Hw & Hw')];
        try (apply zeros_elem_of in Hq; subst q);
        try (apply zeros_elem_of in Hw; subst w);
        split; congruence.
    + pose proof (cells_disjoint _ _ _ _ Hc Hne) as Hnotin.
      rewrite (copyFromRegion_other _ _ _ _ _ E5 Hnotin).
      rewrite (copyFromRegion_other _ _ _ _ _ E6 Hnotin). done.
  - subst s'. by rewrite Hrs1, Hrv1.
Qed.

(** C6: in a constructed [InitialStateComputer], every cell of a region whose
    Rs function and Rv function are both [NoMixing] has Rs exactly 0 and Rv
    exactly 0; what [computeRs] returns for such a region is a vector of
    zeros. *)
Theorem no_mixing_zero_ratios (props : BlackoilPropertiesInterface)
    (deck : Deck) (eclipseState : EclipseState) (G : UnstructuredGrid)
    (grav : float) (eqlnum : list Z) (self : t) (r c : nat) :
  construct props deck eclipseState G grav = (Ok tt, self) ->
  equilnum deck eclipseState G = Ok eqlnum ->
  rs_func_ self !! r = Some NoMixing ->
  rv_func_ self !! r = Some NoMixing ->
  c ∈ RegionMapping.cells {| RegionMapping.region_of_cell := eqlnum |} r ->
  rs self !! c = Some 0%float /\ rv self !! c = Some 0%float
  /\ forall pressure temp sat ratio,
       compute_rs G (RegionMapping.cells {| RegionMapping.region_of_cell := eqlnum |} r)
         pressure temp NoMixing sat = Ok ratio ->
       forall x, x ∈ ratio -> x = 0%float.
Proof.
  intros H Heqlnum Hrsf Hrvf Hc.
  apply constructor_Ok_inv in H
    as (rec & eqlnum' & rs_funcs & rv_funcs & swat & _ & Heqlnum' & _ & _ & _ & H).
  assert (eqlnum' = eqlnum) as -> by congruence.
  pose proof (calcPressSatRsRv_frame _ _ _ _ _ _ _ H) as (Hf_rs & Hf_rv & _).
  assert (Hlt : (c < number_of_cells G)%nat).
  { rewrite <- (equilnum_length _ _ _ _ Heqlnum). by apply cells_lt in Hc. }
  unfold rs, rv.
  destruct (calcPressSatRsRv_no_mixing _ _ _ _ _ _ _ r c H) as [Hrs Hrv];
    [congruence | congruence | done | by apply zeros_lookup | by apply zeros_lookup |].
  split_and!; [done | done |].
  intros pressure temp sat ratio Hratio x Hx.
  apply computeRs_NoMixing in Hratio as ->. by apply zeros_elem_of in Hx.
Qed.

(** *** The scatter of pressures and saturations *)

Lemma entry_insert_eq (v : PVec) (p i : nat) (row : Vec) :
  (p < length v)%nat -> entry (<[p := row]> v) p i = row !! i.
Proof. intros H. unfold entry. by rewrite list_lookup_insert_eq. Qed.

Lemma entry_insert_ne (v : PVec) (p q i : nat) (row : Vec) :
  p <> q -> entry (<[p := row]> v) q i = entry v q i.
Proof. intros H. unfold entry. by rewrite list_lookup_insert_ne. Qed.

Lemma entry_lookup (v : PVec) (p i : nat) (row : Vec) :
  v !! p = Some row -> entry v p i = row !! i.
Proof. intros H. unfold entry. by rewrite H. Qed.

(** One phase copied: the rows of the other phases are as before. *)
Lemma copy_phase_row_other (press sat : PVec) (cells : list nat) (p0 p : nat)
    (self self' : t) :
  copy_phase press sat cells p0 self = Ok self' -> p <> p0 ->
  pp_ self' !! p = pp_ self !! p /\ sat_ self' !! p = sat_ self !! p.
Proof.
  intros H Hne.
  apply copy_phase_Ok_inv in H as (? & ? & ? & ? & ? & ? & H).
  destruct H as (_ & _ & _ & _ & _ & _ & ->). cbn.
  split; apply list_lookup_insert_ne; congruence.
Qed.

(** One phase copied: the cells outside the range are as before. *)
Lemma copy_phase_cell_other (press sat : PVec) (cells : list nat) (p0 p c : nat)
    (self self' : t) :
  copy_phase press sat cells p0 self = Ok self' -> c ∉ cells ->
  entry (pp_ self') p c = entry (pp_ self) p c
  /\ entry (sat_ self') p c = entry (sat_ self) p c.
Proof.
  intros H Hc.
  apply copy_phase_Ok_inv in H
    as (press_p & pp_p & pp_p' & sat_p & sat_p_ & sat_p' & H).
  destruct H as (_ & Hpp & Hcp & _ & Hsat & Hcs & ->). cbn.
  destruct (decide (p0 = p)) as [->|Hne].
  - rewrite !entry_insert_eq by (by eapply lookup_lt_Some).
    rewrite (entry_lookup _ _ _ _ Hpp), (entry_lookup _ _ _ _ Hsat).
    split; by eapply copyFromRegion_other.
  - by rewrite !entry_insert_ne.
Qed.

(** One phase copied: its row holds the region's values at the region's cells. *)
Lemma copy_phase_cell (press sat : PVec) (cells : list nat) (p0 k c : nat)
    (self self' : t) :
  NoDup cells ->
  copy_phase press sat cells p0 self = Ok self' ->
  cells !! k = Some c ->
  exists x y,
    entry press p0 k = Some x /\ entry (pp_ self') p0 c = Some x
    /\ entry sat p0 k = Some y /\ entry (sat_ self') p0 c = Some y.
Proof.
  intros Hnd H Hk.
  apply copy_phase_Ok_inv in H
    as (press_p & pp_p & pp_p' & sat_p & sat_p_ & sat_p' & H).
  destruct H as (Hpress & Hpp & Hcp & Hsat & Hsat_ & Hcs & ->). cbn.
  destruct (copyFromRegion_lookup _ _ _ _ _ _ Hnd Hcp Hk) as (x & Hx & Hx').
  destruct (copyFromRegion_lookup _ _ _ _ _ _ Hnd Hcs Hk) as (y & Hy & Hy').
  exists x, y.
  rewrite !entry_insert_eq by (by eapply lookup_lt_Some).
  rewrite (entry_lookup _ _ _ _ Hpress), (entry_lookup _ _ _ _ Hsat). done.
Qed.

Lemma copy_phases_row_other (press sat : PVec) (cells l : list nat) (p : nat)
    (self self' : t) :
  for_loop (copy_phase press sat cells) l self = Ok self' -> p ∉ l ->
  pp_ self' !! p = pp_ self !! p /\ sat_ self' !! p = sat_ self !! p.
Proof.
  intros H Hp. revert H.
  apply (for_loop_invariant
           (fun s => pp_ s !! p = pp_ self !! p /\ sat_ s !! p = sat_ self !! p));
    [|done].
  intros p0 s s' Hp0 [Hpp Hsat] H.
  apply (copy_phase_row_other _ _ _ _ p) in H as [-> ->]; [done|].
  intros ->. contradiction.
Qed.

Lemma copy_phases_cell_other (press sat : PVec) (cells l : list nat) (p c : nat)
    (self self' : t) :
  for_loop (copy_phase press sat cells) l self = Ok self' -> c ∉ cells ->
  entry (pp_ self') p c = entry (pp_ self) p c
  /\ entry (sat_ self') p c = entry (sat_ self) p c.
Proof.
  intros H Hc. revert H.
  apply (for_loop_invariant
           (fun s => entry (pp_ s) p c = entry (pp_ self) p c
                     /\ entry (sat_ s) p c = entry (sat_ self) p c));
    [|done].
  intros p0 s s' _ [Hpp Hsat] H.
  by apply (copy_phase_cell_other _ _ _ _ p c) in H as [-> ->].
Qed.

Lemma copy_phases_cell (press sat : PVec) (cells l : list nat) (p k c : nat)
    (self self' : t) :
  NoDup l -> NoDup cells ->
  for_loop (copy_phase press sat cells) l self = Ok self' ->
  p ∈ l -> cells !! k = Some c ->
  exists x y,
    entry press p k = Some x /\ entry (pp_ self') p c = Some x
    /\ entry sat p k = Some y /\ entry (sat_ self') p c = Some y.
Proof.
  intros Hl Hnd. revert self.
  induction l as [|p0 l IH]; intros self H Hp Hk; [by apply elem_of_nil in Hp|].
  cbn in H. apply bind_Ok_inv in H as (self0 & H0 & H).
  pose proof (NoDup_cons_1_1 _ _ Hl) as Hnotin.
  apply NoDup_cons_1_2 in Hl.
  apply elem_of_cons in Hp as [->|Hp].
  - destruct (copy_phase_cell _ _ _ _ _ _ _ _ Hnd H0 Hk) as (x & y & ? & Hx & ? & Hy).
    destruct (copy_phases_row_other _ _ _ _ _ _ _ H Hnotin) as [Epp Esat].
    exists x, y. unfold entry in *. rewrite Epp, Esat. done.
  - by apply (IH Hl self0).
Qed.

(** One region done: the cells of the other regions are as before. *)
Lemma region_step_cell_other (reg : RegionMapping.t) (rec : list EquilRecord)
    (props : BlackoilPropertiesInterface) (G : UnstructuredGrid) (grav : float)
    (r p c : nat) (self self' : t) :
  step reg rec props G grav r self = Ok self' ->
  c ∉ RegionMapping.cells reg r ->
  entry (pp_ self') p c = entry (pp_ self) p c
  /\ entry (sat_ self') p c = entry (sat_ self) p c.
Proof.
  intros H Hc. apply region_step_Ok_inv in H as (v & self1 & Hv & H1 & H).
  apply region_values_cells in Hv. rewrite Hv in H1.
  apply (copy_phases_cell_other _ _ _ _ p c) in H1 as [Hpp Hsat]; [|done].
  destruct (phase_used _ Liquid && phase_used _ Vapour); [|by subst].
  destruct H as (? & ? & ? & ? & ? & ? & ? & ? & ? & ? & H).
  destruct H as (_ & _ & _ & _ & _ & _ & ->). done.
Qed.

(** One region done: its cells hold its pressures and saturations. *)
Lemma region_step_cell (reg : RegionMapping.t) (rec : list EquilRecord)
    (props : BlackoilPropertiesInterface) (G : UnstructuredGrid) (grav : float)
    (r : nat) (self self' : t) :
  step reg rec props G grav r self = Ok self' ->
  exists v,
    values reg rec props G grav r self = Ok v
    /\ forall p k c,
         (p < numPhases props)%nat ->
         RegionMapping.cells reg r !! k = Some c ->
         exists x y,
           entry (region_press v) p k = Some x /\ entry (pp_ self') p c = Some x
           /\ entry (region_sat v) p k = Some y /\ entry (sat_ self') p c = Some y.
Proof.
  intros H. apply region_step_Ok_inv in H as (v & self1 & Hv & H1 & H).
  exists v. split; [done|]. intros p k c Hp Hk.
  rewrite <- (region_values_cells _ _ _ _ _ _ _ _ Hv) in Hk.
  assert (Hin : p ∈ seq 0 (numPhases props)) by (apply elem_of_seq; lia).
  assert (Hnd : NoDup (region_cells v)).
  { rewrite (region_values_cells _ _ _ _ _ _ _ _ Hv). apply cells_NoDup. }
  destruct (copy_phases_cell _ _ _ _ _ _ _ _ _ (NoDup_seq 0 _) Hnd H1 Hin Hk)
    as (x & y & Hx).
  exists x, y.
  destruct (phase_used _ Liquid && phase_used _ Vapour); [|by subst].
  destruct H as (? & ? & ? & ? & ? & ? & ? & ? & ? & ? & H).
  destruct H as (_ & _ & _ & _ & _ & _ & ->). done.
Qed.

(** After [calcPressSatRsRv], the cells of every region hold the pressures
    and saturations computed for that region, phase by phase. *)
Lemma calcPressSatRsRv_scatter (reg : RegionMapping.t) (rec : list EquilRecord)
    (props : BlackoilPropertiesInterface) (G : UnstructuredGrid) (grav : float)
    (self self' : t) (r : nat) :
  calc reg rec props G grav self = Ok self' ->
  (r < RegionMapping.numRegions reg)%nat ->
  exists v,
    values reg rec props G grav r self = Ok v
    /\ forall p k c,
         (p < numPhases props)%nat ->
         RegionMapping.cells reg r !! k = Some c ->
         exists x y,
           entry (region_press v) p k = Some x /\ entry (pp_ self') p c = Some x
           /\ entry (region_sat v) p k = Some y /\ entry (sat_ self') p c = Some y.
Proof.
  intros H Hr. revert r Hr.
  enough (same_functions self self' /\
          forall r, r ∈ seq 0 (RegionMapping.numRegions reg) ->
            exists v,
              values reg rec props G grav r self = Ok v
              /\ forall p k c,
                   (p < numPhases props)%nat ->
                   RegionMapping.cells reg r !! k = Some c ->
                   exists x y,
                     entry (region_press v) p k = Some x
                     /\ entry (pp_ self') p c = Some x
                     /\ entry (region_sat v) p k = Some y
                     /\ entry (sat_ self') p c = Some y) as [_ Hall].
  { intros r Hr. apply Hall, elem_of_seq. lia. }
  revert H. unfold calcPressSatRsRv. cbn zeta.
  apply (for_loop_prefix_invariant
           (fun done s =>
              same_functions self s /\
              forall r, r ∈ done ->
                exists v,
                  values reg rec props G grav r self = Ok v
                  /\ forall p k c,
                       (p < numPhases props)%nat ->
                       RegionMapping.cells reg r !! k = Some c ->
                       exists x y,
                         entry (region_press v) p k = Some x
                         /\ entry (pp_ s) p c = Some x
                         /\ entry (region_sat v) p k = Some y
                         /\ entry (sat_ s) p c = Some y)).
  - intros done a rest s s' Hl [Hf Hdone] Hstep.
    assert (Hf' : same_functions self s').
    { pose proof (region_step_frame _ _ _ _ _ _ _ _ Hstep) as Hf1.
      unfold same_functions in *.
      destruct Hf as (? & ? & ?), Hf1 as (? & ? & ?). split_and!; congruence. }
    split; [done|]. intros r Hr.
    assert (Hnotin : a ∉ done).
    { pose proof (NoDup_seq 0 (RegionMapping.numRegions reg)) as Hnd.
      rewrite Hl in Hnd. apply list.NoDup_app in Hnd as (_ & Hnd & _).
      intros Ha. apply (Hnd a Ha). left. }
    apply elem_of_app in Hr as [Hr|Hr].
    + destruct (Hdone r Hr) as (v & Hv & Hcells).
      exists v. split; [done|]. intros p k c Hp Hk.
      destruct (Hcells p k c Hp Hk) as (x & y & Hx & Hx' & Hy & Hy').
      exists x, y.
      assert (Hc : c ∉ RegionMapping.cells reg a).
      { apply (cells_disjoint reg r a c).
        - apply list_elem_of_lookup. eauto.
        - intros ->. contradiction. }
      destruct (region_step_cell_other _ _ _ _ _ _ p c _ _ Hstep Hc) as [-> ->].
      done.
    + apply list_elem_of_singleton in Hr as ->.
      destruct (region_step_cell _ _ _ _ _ _ _ _ Hstep) as (v & Hv & Hcells).
      exists v. split; [|done].
      by rewrite <- (region_values_same _ _ _ _ _ _ _ _ Hf).
  - split; [by repeat split|]. intros r Hr. by apply elem_of_nil in Hr.
Qed.

(** [calcPressSatRsRv] writes neither [rs_] nor [rv_] unless the oil phase
    and the gas phase are both in use. *)
Lemma calcPressSatRsRv_ratios_untouched (reg : RegionMapping.t)
    (rec : list EquilRecord) (props : BlackoilPropertiesInterface)
    (G : UnstructuredGrid) (grav : float) (self self' : t) :
  phase_used (phaseUsage props) Liquid && phase_used (phaseUsage props) Vapour = false ->
  calc reg rec props G grav self = Ok self' ->
  rs_ self' = rs_ self /\ rv_ self' = rv_ self.
Proof.
  intros Hpu. unfold calcPressSatRsRv. cbn zeta.
  apply (for_loop_invariant (fun s => rs_ s = rs_ self /\ rv_ s = rv_ self)); [|done].
  intros r s s' _ [Hrs Hrv] H.
  apply region_step_Ok_inv in H as (v & self1 & _ & H1 & H).
  rewrite Hpu in H. subst s'.
  apply copy_phases_frame in H1 as (_ & -> & ->). done.
Qed.

(** C7: when the oil phase and the gas phase are not both in use, a
    constructed [InitialStateComputer] has Rs and Rv zero in every cell, no
    region having written them, while in every region the cells hold, for
    every phase position below [numPhases], the pressure and the saturation
    computed for that region. *)
Theorem ratios_untouched_without_oil_and_gas (props : BlackoilPropertiesInterface)
    (deck : Deck) (eclipseState : EclipseState) (G : UnstructuredGrid)
    (grav : float) (rec : list EquilRecord) (eqlnum : list Z) (self : t) :
  construct props deck eclipseState G grav = (Ok tt, self) ->
  phase_used (phaseUsage props) Liquid && phase_used (phaseUsage props) Vapour = false ->
  getEquil deck = Ok rec ->
  equilnum deck eclipseState G = Ok eqlnum ->
  let reg := {| RegionMapping.region_of_cell := eqlnum |} in
  rs self = zeros (number_of_cells G)
  /\ rv self = zeros (number_of_cells G)
  /\ forall r, (r < RegionMapping.numRegions reg)%nat ->
       exists v,
         values reg rec props G grav r self = Ok v
         /\ forall p k c,
              (p < numPhases props)%nat ->
              RegionMapping.cells reg r !! k = Some c ->
              exists x y,
                entry (region_press v) p k = Some x
                /\ entry (press self) p c = Some x
                /\ entry (region_sat v) p k = Some y
                /\ entry (saturation self) p c = Some y.
Proof.
  intros H Hpu Hrec Heqlnum reg.
  apply constructor_Ok_inv in H
    as (rec' & eqlnum' & rs_funcs & rv_funcs & swat & Hrec' & Heqlnum' & _ & _ & _ & H).
  assert (rec' = rec) as -> by congruence.
  assert (eqlnum' = eqlnum) as -> by congruence.
  destruct (calcPressSatRsRv_ratios_untouched _ _ _ _ _ _ _ Hpu H) as [Hrs Hrv].
  pose proof (calcPressSatRsRv_frame _ _ _ _ _ _ _ H) as Hf.
  split_and!; [done | done |].
  intros r Hr.
  destruct (calcPressSatRsRv_scatter _ _ _ _ _ _ _ r H Hr) as (v & Hv & Hcells).
  exists v. split; [|done].
  by rewrite (region_values_same _ _ _ _ _ _ _ _ Hf).
Qed.

(** *** The choice of the miscibility functions *)

(** Region [i] with a positive live-oil table index that passes the test
    against the number of RSVD tables: the table read is [rsvdTables[i]]. *)
Lemma rs_func_of_region_table (props : BlackoilPropertiesInterface)
    (eqlmap : RegionMapping.t) (rsvdTables : list RsvdTable.t)
    (rec : list EquilRecord) (i cell : nat) (rec_i : EquilRecord) :
  deref_begin (RegionMapping.cells eqlmap i) = Ok cell ->
  rec !! i = Some rec_i ->
  0 < live_oil_table_index rec_i <= Z.of_nat (length rsvdTables) ->
  rs_func_of_region props eqlmap rsvdTables rec i
  = match rsvdTables !! i with
    | Some table =>
        Ok (RsVD props cell (RsvdTable.getDepthColumn table) (RsvdTable.getRsColumn table))
    | None => Undefined
    end.
Proof.
  intros Hcell Hrec Ht. unfold rs_func_of_region, at_index, size_t.
  rewrite Hcell, Hrec. cbn.
  destruct (Z.ltb_spec 0 (live_oil_table_index rec_i)); [|lia].
  destruct (Z.ltb_spec 0 (Z.of_nat (length rsvdTables))); [|lia].
  destruct (Z.leb_spec (live_oil_table_index rec_i `mod` 2 ^ 64)
              (Z.of_nat (length rsvdTables))) as [_|Hgt].
  - cbn. by destruct (rsvdTables !! i).
  - exfalso.
    pose proof (Z.mod_le (live_oil_table_index rec_i) (2 ^ 64)). lia.
Qed.

(** Region [i] with a positive live-oil table index beyond the RSVD tables. *)
Lemma rs_func_of_region_no_such_table (props : BlackoilPropertiesInterface)
    (eqlmap : RegionMapping.t) (rsvdTables : list RsvdTable.t)
    (rec : list EquilRecord) (i cell : nat) (rec_i : EquilRecord) :
  deref_begin (RegionMapping.cells eqlmap i) = Ok cell ->
  rec !! i = Some rec_i ->
  Z.of_nat (length rsvdTables) < live_oil_table_index rec_i <= INT_MAX ->
  rs_func_of_region props eqlmap rsvdTables rec i
  = Throw (rsvd_not_available (live_oil_table_index rec_i)).
Proof.
  intros Hcell Hrec Ht. unfold rs_func_of_region, at_index, size_t, INT_MAX in *.
  rewrite Hcell, Hrec. cbn.
  destruct (Z.ltb_spec 0 (live_oil_table_index rec_i)); [|lia].
  rewrite Z.mod_small by lia.
  destruct (Z.leb_spec (live_oil_table_index rec_i) (Z.of_nat (length rsvdTables)));
    [lia|].
  by rewrite andb_false_r.
Qed.

(** Region [i] without a positive live-oil table index. *)
Lemma rs_func_of_region_at_contact (props : BlackoilPropertiesInterface)
    (eqlmap : RegionMapping.t) (rsvdTables : list RsvdTable.t)
    (rec : list EquilRecord) (i cell : nat) (rec_i : EquilRecord) :
  deref_begin (RegionMapping.cells eqlmap i) = Ok cell ->
  rec !! i = Some rec_i ->
  live_oil_table_index rec_i <= 0 ->
  rs_func_of_region props eqlmap rsvdTables rec i
  = if (depth (goc rec_i) =? depth (main rec_i))%float
    then Ok (RsSatAtContact props cell (Equil.press (main rec_i)) T_contact)
    else Throw (rs_datum_not_at_contact i).
Proof.
  intros Hcell Hrec Ht. unfold rs_func_of_region, at_index.
  rewrite Hcell, Hrec. cbn.
  destruct (Z.ltb_spec 0 (live_oil_table_index rec_i)); [lia|].
  by destruct (depth (goc rec_i) =? depth (main rec_i))%float.
Qed.

(** Region [i] without a positive wet-gas table index. *)
Lemma rv_func_of_region_at_contact (props : BlackoilPropertiesInterface)
    (eqlmap : RegionMapping.t) (rvvdTables : list RvvdTable.t)
    (rec : list EquilRecord) (i cell : nat) (rec_i : EquilRecord) :
  deref_begin (RegionMapping.cells eqlmap i) = Ok cell ->
  rec !! i = Some rec_i ->
  wet_gas_table_index rec_i <= 0 ->
  rv_func_of_region props eqlmap rvvdTables rec i
  = if (depth (goc rec_i) =? depth (main rec_i))%float
    then Ok (RvSatAtContact props cell
               (Equil.press (main rec_i) + Equil.press (goc rec_i))%float T_contact)
    else Throw (rv_datum_not_at_contact i).
Proof.
  intros Hcell Hrec Ht. unfold rv_func_of_region, at_index.
  rewrite Hcell, Hrec. cbn.
  destruct (Z.ltb_spec 0 (wet_gas_table_index rec_i)); [lia|].
  by destruct (depth (goc rec_i) =? depth (main rec_i))%float.
Qed.

(** What the creation of a function throws is a [std::runtime_error]. *)
Lemma rs_func_of_region_throws_runtime_error (props : BlackoilPropertiesInterface)
    (eqlmap : RegionMapping.t) (rsvdTables : list RsvdTable.t)
    (rec : list EquilRecord) (i : nat) (e : exception) :
  rs_func_of_region props eqlmap rsvdTables rec i = Throw e ->
  is_runtime_error e = true.
Proof.
  unfold rs_func_of_region, at_index, deref_begin.
  destruct (RegionMapping.cells eqlmap i); cbn; [discriminate|].
  destruct (rec !! i) as [rec_i|]; cbn; [|discriminate].
  destruct (0 <? live_oil_table_index rec_i).
  - destruct (_ && _); [|by intros [= <-]].
    destruct (rsvdTables !! i); cbn; discriminate.
  - destruct (negb _); [by intros [= <-] | discriminate].
Qed.

Lemma rv_func_of_region_throws_runtime_error (props : BlackoilPropertiesInterface)
    (eqlmap : RegionMapping.t) (rvvdTables : list RvvdTable.t)
    (rec : list EquilRecord) (i : nat) (e : exception) :
  rv_func_of_region props eqlmap rvvdTables rec i = Throw e ->
  is_runtime_error e = true.
Proof.
  unfold rv_func_of_region, at_index, deref_begin.
  destruct (RegionMapping.cells eqlmap i); cbn; [discriminate|].
  destruct (rec !! i) as [rec_i|]; cbn; [|discriminate].
  destruct (0 <? wet_gas_table_index rec_i).
  - destruct (_ && _); [|by intros [= <-]].
    destruct (rvvdTables !! i); cbn; discriminate.
  - destruct (negb _); [by intros [= <-] | discriminate].
Qed.

Lemma seq_split_at (n i : nat) :
  (i < n)%nat -> seq 0 n = seq 0 i ++ i :: seq (S i) (n - S i).
Proof.
  intros H. replace n with (i + S (n - S i))%nat at 1 by lia.
  by rewrite seq_app.
Qed.

(** The constructor leaves with what the creation of the Rs functions
    throws, [rs_func_] holding the functions pushed before. *)
Lemma constructor_throws_rs (props : BlackoilPropertiesInterface) (deck : Deck)
    (eclipseState : EclipseState) (G : UnstructuredGrid) (grav : float)
    (rec : list EquilRecord) (eqlnum : list Z) (e : exception) :
  getEquil deck = Ok rec ->
  equilnum deck eclipseState G = Ok eqlnum ->
  create_rs_functions props deck eclipseState
    {| RegionMapping.region_of_cell := eqlnum |} rec = Throw e ->
  construct props deck eclipseState G grav
  = (Throw e,
     set_rs_func_
       (rs_functions_pushed props deck eclipseState
          {| RegionMapping.region_of_cell := eqlnum |} rec)
       (member_initialisers props G)).
Proof.
  intros Hrec Heqlnum Hrs.
  unfold constructor, constructor_body, bind, lift.
  by rewrite Hrec, Heqlnum, push_rs_functions_run, Hrs.
Qed.

(** The constructor leaves with what the creation of the Rv functions
    throws, [rv_func_] holding the functions pushed before. *)
Lemma constructor_throws_rv (props : BlackoilPropertiesInterface) (deck : Deck)
    (eclipseState : EclipseState) (G : UnstructuredGrid) (grav : float)
    (rec : list EquilRecord) (eqlnum : list Z) (rs_funcs : list RsFunction)
    (e : exception) :
  getEquil deck = Ok rec ->
  equilnum deck eclipseState G = Ok eqlnum ->
  create_rs_functions props deck eclipseState
    {| RegionMapping.region_of_cell := eqlnum |} rec = Ok rs_funcs ->
  create_rv_functions props deck eclipseState
    {| RegionMapping.region_of_cell := eqlnum |} rec = Throw e ->
  construct props deck eclipseState G grav
  = (Throw e,
     set_rv_func_
       (rv_functions_pushed props deck eclipseState
          {| RegionMapping.region_of_cell := eqlnum |} rec)
       (set_rs_func_ rs_funcs (member_initialisers props G))).
Proof.
  intros Hrec Heqlnum Hrs Hrv.
  unfold constructor, constructor_body, bind, lift, get_self, put_self.
  rewrite Hrec, Heqlnum, push_rs_functions_run, Hrs. cbn [mbind outcome_bind].
  rewrite (rs_functions_pushed_Ok _ _ _ _ _ _ Hrs), push_rv_functions_run, Hrv.
  reflexivity.
Qed.

Lemma create_rs_functions_throws_runtime_error (props : BlackoilPropertiesInterface)
    (deck : Deck) (eclipseState : EclipseState) (eqlmap : RegionMapping.t)
    (rec : list EquilRecord) (e : exception) :
  create_rs_functions props deck eclipseState eqlmap rec = Throw e ->
  is_runtime_error e = true.
Proof.
  unfold create_rs_functions. destruct (DISGAS deck).
  - cbn zeta. intros H. apply for_each_Throw_inv in H as (i & _ & H).
    by eapply rs_func_of_region_throws_runtime_error.
  - by rewrite for_each_const.
Qed.

(** Under DISGAS the function of region [i] in a constructed object is the
    one the turn of region [i] returned. *)
Lemma constructed_rs_func (props : BlackoilPropertiesInterface) (deck : Deck)
    (eclipseState : EclipseState) (G : UnstructuredGrid) (grav : float)
    (rec : list EquilRecord) (eqlnum : list Z) (self : t) (i : nat) :
  construct props deck eclipseState G grav = (Ok tt, self) ->
  getEquil deck = Ok rec ->
  equilnum deck eclipseState G = Ok eqlnum ->
  DISGAS deck = true ->
  (i < length rec)%nat ->
  exists f,
    rs_func_of_region props {| RegionMapping.region_of_cell := eqlnum |}
      (getRsvdTables eclipseState) rec i = Ok f
    /\ rs_func_ self !! i = Some f.
Proof.
  intros H Hrec Heqlnum Hflag Hi.
  apply constructor_Ok_inv in H
    as (rec' & eqlnum' & rs_funcs & ? & ? & Hrec' & Heqlnum' & Hrs & _ & _ & H).
  assert (rec' = rec) as -> by congruence.
  assert (eqlnum' = eqlnum) as -> by congruence.
  apply calcPressSatRsRv_frame in H as (-> & _ & _). cbn.
  unfold create_rs_functions in Hrs. rewrite Hflag in Hrs. cbn zeta in Hrs.
  apply for_each_Ok_lookup in Hrs as [_ Hrs].
  apply (Hrs i i). by apply lookup_seq_lt.
Qed.

(** Under VAPOIL the Rv function of region [i] in a constructed object is
    the one the turn of region [i] returned. *)
Lemma constructed_rv_func (props : BlackoilPropertiesInterface) (deck : Deck)
    (eclipseState : EclipseState) (G : UnstructuredGrid) (grav : float)
    (rec : list EquilRecord) (eqlnum : list Z) (self : t) (i : nat) :
  construct props deck eclipseState G grav = (Ok tt, self) ->
  getEquil deck = Ok rec ->
  equilnum deck eclipseState G = Ok eqlnum ->
  VAPOIL deck = true ->
  (i < length rec)%nat ->
  exists f,
    rv_func_of_region props {| RegionMapping.region_of_cell := eqlnum |}
      (getRvvdTables eclipseState) rec i = Ok f
    /\ rv_func_ self !! i = Some f.
Proof.
  intros H Hrec Heqlnum Hflag Hi.
  apply constructor_Ok_inv in H
    as (rec' & eqlnum' & ? & rv_funcs & ? & Hrec' & Heqlnum' & _ & Hrv & _ & H).
  assert (rec' = rec) as -> by congruence.
  assert (eqlnum' = eqlnum) as -> by congruence.
  apply calcPressSatRsRv_frame in H as (_ & -> & _). cbn.
  unfold create_rv_functions in Hrv. rewrite Hflag in Hrv. cbn zeta in Hrv.
  apply for_each_Ok_lookup in Hrv as [_ Hrv].
  apply (Hrv i i). by apply lookup_seq_lt.
Qed.

(** When the turns before [a] return and the turn of [a] does not, the
    values pushed are the ones of the turns before [a]. *)
Lemma returned_before_until {A B : Type} (f : A -> outcome B) (l1 l2 : list A)
    (a : A) :
  (forall x, x ∈ l1 -> exists b, f x = Ok b) ->
  (forall b, f a <> Ok b) ->
  for_each f l1 = Ok (returned_before f (l1 ++ a :: l2)).
Proof.
  intros Hall Ha. induction l1 as [|x l1 IH]; cbn.
  - destruct (f a) as [b| |] eqn:E; [by destruct (Ha b) | done | done].
  - destruct (Hall x) as [b Hb]; [left|]. rewrite Hb. cbn.
    rewrite IH; [done|]. intros y Hy. apply Hall. by right.
Qed.

(** The loop leaves with what the first turn that does not return throws. *)
Lemma for_each_throws_at {A B : Type} (f : A -> outcome B) (l1 l2 : list A)
    (a : A) (e : exception) :
  (forall x, x ∈ l1 -> exists b, f x = Ok b) ->
  f a = Throw e ->
  for_each f (l1 ++ a :: l2) = Throw e.
Proof.
  intros Hall Ha. induction l1 as [|x l1 IH]; cbn; [by rewrite Ha|].
  destruct (Hall x) as [b Hb]; [left|]. rewrite Hb. cbn.
  rewrite IH; [done|]. intros y Hy. apply Hall. by right.
Qed.

(** A region whose turn throws [e] after turns that all return: the
    constructor leaves with [e], [rs_func_] holds exactly the functions of
    the regions before, and nothing else has been assigned. *)
Lemma constructor_throws_rs_at (props : BlackoilPropertiesInterface) (deck : Deck)
    (eclipseState : EclipseState) (G : UnstructuredGrid) (grav : float)
    (rec : list EquilRecord) (eqlnum : list Z) (i : nat) (e : exception) :
  let rs_of :=
    rs_func_of_region props {| RegionMapping.region_of_cell := eqlnum |}
      (getRsvdTables eclipseState) rec in
  getEquil deck = Ok rec ->
  equilnum deck eclipseState G = Ok eqlnum ->
  DISGAS deck = true ->
  (i < length rec)%nat ->
  rs_of i = Throw e ->
  (forall j, (j < i)%nat -> exists f, rs_of j = Ok f) ->
  exists pushed,
    construct props deck eclipseState G grav
    = (Throw e, set_rs_func_ pushed (member_initialisers props G))
    /\ length pushed = i
    /\ (forall j f, (j < i)%nat -> rs_of j = Ok f -> pushed !! j = Some f).
Proof.
  intros rs_of Hrec Heqlnum Hflag Hi Hthrow Hbefore.
  pose proof (seq_split_at _ _ Hi) as Hsplit.
  assert (Hall : forall x, x ∈ seq 0 i -> exists b, rs_of x = Ok b).
  { intros x Hx. apply Hbefore. apply elem_of_seq in Hx. lia. }
  assert (Hloop : create_rs_functions props deck eclipseState
                    {| RegionMapping.region_of_cell := eqlnum |} rec = Throw e).
  { unfold create_rs_functions. rewrite Hflag. cbn zeta. rewrite Hsplit.
    by apply for_each_throws_at. }
  exists (rs_functions_pushed props deck eclipseState
            {| RegionMapping.region_of_cell := eqlnum |} rec).
  split; [by apply (constructor_throws_rs _ _ _ _ _ rec eqlnum)|].
  unfold rs_functions_pushed. rewrite Hflag, Hsplit.
  assert (Hpushed : for_each rs_of (seq 0 i)
                    = Ok (returned_before rs_of
                            (seq 0 i ++ i :: seq (S i) (length rec - S i)))).
  { apply returned_before_until; [done|]. intros b Hb. congruence. }
  apply for_each_Ok_lookup in Hpushed as [Hlen Hlk].
  rewrite length_seq in Hlen. split; [done|].
  intros j f Hj Hf.
  destruct (Hlk j j) as (b & Hb & Hlookup); [by apply lookup_seq_lt|].
  subst rs_of. cbn beta in *. congruence.
Qed.

(** The same for the Rv functions, once the Rs functions are created. *)
Lemma constructor_throws_rv_at (props : BlackoilPropertiesInterface) (deck : Deck)
    (eclipseState : EclipseState) (G : UnstructuredGrid) (grav : float)
    (rec : list EquilRecord) (eqlnum : list Z) (rs_funcs : list RsFunction)
    (i : nat) (e : exception) :
  let rv_of :=
    rv_func_of_region props {| RegionMapping.region_of_cell := eqlnum |}
      (getRvvdTables eclipseState) rec in
  getEquil deck = Ok rec ->
  equilnum deck eclipseState G = Ok eqlnum ->
  create_rs_functions props deck eclipseState
    {| RegionMapping.region_of_cell := eqlnum |} rec = Ok rs_funcs ->
  VAPOIL deck = true ->
  (i < length rec)%nat ->
  rv_of i = Throw e ->
  (forall j, (j < i)%nat -> exists f, rv_of j = Ok f) ->
  exists pushed,
    construct props deck eclipseState G grav
    = (Throw e,
       set_rv_func_ pushed (set_rs_func_ rs_funcs (member_initialisers props G)))
    /\ length pushed = i
    /\ (forall j f, (j < i)%nat -> rv_of j = Ok f -> pushed !! j = Some f).
Proof.
  intros rv_of Hrec Heqlnum Hrs Hflag Hi Hthrow Hbefore.
  pose proof (seq_split_at _ _ Hi) as Hsplit.
  assert (Hall : forall x, x ∈ seq 0 i -> exists b, rv_of x = Ok b).
  { intros x Hx. apply Hbefore. apply elem_of_seq in Hx. lia. }
  assert (Hloop : create_rv_functions props deck eclipseState
                    {| RegionMapping.region_of_cell := eqlnum |} rec = Throw e).
  { unfold create_rv_functions. rewrite Hflag. cbn zeta. rewrite Hsplit.
    by apply for_each_throws_at. }
  exists (rv_functions_pushed props deck eclipseState
            {| RegionMapping.region_of_cell := eqlnum |} rec).
  split; [by apply (constructor_throws_rv _ _ _ _ _ rec eqlnum)|].
  unfold rv_functions_pushed. rewrite Hflag, Hsplit.
  assert (Hpushed : for_each rv_of (seq 0 i)
                    = Ok (returned_before rv_of
                            (seq 0 i ++ i :: seq (S i) (length rec - S i)))).
  { apply returned_before_until; [done|]. intros b Hb. congruence. }
  apply for_each_Ok_lookup in Hpushed as [Hlen Hlk].
  rewrite length_seq in Hlen. split; [done|].
  intros j f Hj Hf.
  destruct (Hlk j j) as (b & Hb & Hlookup); [by apply lookup_seq_lt|].
  subst rv_of. cbn beta in *. congruence.
Qed.

(** C4: in a region without a positive live-oil table index, under DISGAS,
    when the gas-oil-contact depth equals the datum depth the Rs function
    created for the region, and held for it by the constructed object, is
    [RsSatAtContact] at the datum pressure and the temperature [273.15 + 20].
    When the depths differ, creating the function throws the
    [std::runtime_error] that names the region (counted from 1) and the
    constructor never returns: it leaves with a [std::runtime_error], the
    pressures, saturations, Rs and Rv still as initialised, provided no
    region before has undefined behaviour, and with that very exception,
    [rs_func_] holding the functions of the regions before, when the regions
    before all get their function.  The same holds for Rv under VAPOIL, with
    the wet-gas table index, [RvSatAtContact] and the contact pressure
    [main.press + goc.press], the loop over the Rs functions coming first:
    when that one throws the constructor leaves with its exception, and when
    it returns [rs_func_] holds its functions. *)
Theorem datum_must_be_at_contact (props : BlackoilPropertiesInterface)
    (deck : Deck) (eclipseState : EclipseState) (G : UnstructuredGrid)
    (grav : float) (rec : list EquilRecord) (eqlnum : list Z)
    (i cell : nat) (rec_i : EquilRecord) :
  let eqlmap := {| RegionMapping.region_of_cell := eqlnum |} in
  let rs_of := rs_func_of_region props eqlmap (getRsvdTables eclipseState) rec in
  let rv_of := rv_func_of_region props eqlmap (getRvvdTables eclipseState) rec in
  getEquil deck = Ok rec ->
  equilnum deck eclipseState G = Ok eqlnum ->
  rec !! i = Some rec_i ->
  deref_begin (RegionMapping.cells eqlmap i) = Ok cell ->
  T_contact = 293.15%float
  /\ (DISGAS deck = true -> live_oil_table_index rec_i <= 0 ->
      if (depth (goc rec_i) =? depth (main rec_i))%float
      then rs_of i = Ok (RsSatAtContact props cell (Equil.press (main rec_i)) T_contact)
           /\ (forall self,
                 construct props deck eclipseState G grav = (Ok tt, self) ->
                 rs_func_ self !! i
                 = Some (RsSatAtContact props cell (Equil.press (main rec_i))
                           T_contact))
      else rs_of i = Throw (rs_datum_not_at_contact i)
           /\ (forall self,
                 construct props deck eclipseState G grav <> (Ok tt, self))
           /\ ((forall j, (j < i)%nat -> rs_of j <> Undefined) ->
               exists e self,
                 construct props deck eclipseState G grav = (Throw e, self)
                 /\ is_runtime_error e = true
                 /\ press self = press (member_initialisers props G)
                 /\ saturation self = saturation (member_initialisers props G)
                 /\ rs self = rs (member_initialisers props G)
                 /\ rv self = rv (member_initialisers props G))
           /\ ((forall j, (j < i)%nat -> exists f, rs_of j = Ok f) ->
               exists pushed,
                 construct props deck eclipseState G grav
                 = (Throw (rs_datum_not_at_contact i),
                    set_rs_func_ pushed (member_initialisers props G))
                 /\ length pushed = i
                 /\ (forall j f, (j < i)%nat -> rs_of j = Ok f ->
                       pushed !! j = Some f)))
  /\ (VAPOIL deck = true -> wet_gas_table_index rec_i <= 0 ->
      if (depth (goc rec_i) =? depth (main rec_i))%float
      then rv_of i = Ok (RvSatAtContact props cell
                           (Equil.press (main rec_i) + Equil.press (goc rec_i))%float
                           T_contact)
           /\ (forall self,
                 construct props deck eclipseState G grav = (Ok tt, self) ->
                 rv_func_ self !! i
                 = Some (RvSatAtContact props cell
                           (Equil.press (main rec_i) + Equil.press (goc rec_i))%float
                           T_contact))
      else rv_of i = Throw (rv_datum_not_at_contact i)
           /\ (forall self,
                 construct props deck eclipseState G grav <> (Ok tt, self))
           /\ (create_rs_functions props deck eclipseState eqlmap rec <> Undefined ->
               (forall j, (j < i)%nat -> rv_of j <> Undefined) ->
               exists e self,
                 construct props deck eclipseState G grav = (Throw e, self)
                 /\ is_runtime_error e = true
                 /\ press self = press (member_initialisers props G)
                 /\ saturation self = saturation (member_initialisers props G)
                 /\ rs self = rs (member_initialisers props G)
                 /\ rv self = rv (member_initialisers props G))
           /\ (forall rs_funcs,
                 create_rs_functions props deck eclipseState eqlmap rec
                 = Ok rs_funcs ->
                 (forall j, (j < i)%nat -> exists f, rv_of j = Ok f) ->
                 exists pushed,
                   construct props deck eclipseState G grav
                   = (Throw (rv_datum_not_at_contact i),
                      set_rv_func_ pushed
                        (set_rs_func_ rs_funcs (member_initialisers props G)))
                   /\ length pushed = i
                   /\ (forall j f, (j < i)%nat -> rv_of j = Ok f ->
                         pushed !! j = Some f))).
Proof.
  intros eqlmap rs_of rv_of Hrec Heqlnum Hi Hcell.
  assert (Hlt : (i < length rec)%nat) by (by eapply lookup_lt_Some).
  pose proof (seq_split_at _ _ Hlt) as Hsplit.
  split_and!; [reflexivity | |].
  - intros Hflag Ht. subst rs_of.
    rewrite (rs_func_of_region_at_contact _ _ _ _ _ _ _ Hcell Hi Ht).
    destruct (depth (goc rec_i) =? depth (main rec_i))%float eqn:Hdepth.
    + split; [done|]. intros self H.
      destruct (constructed_rs_func _ _ _ _ _ _ _ _ i H Hrec Heqlnum Hflag Hlt)
        as (f & Hf & Hlk).
      fold eqlmap in Hf.
      rewrite (rs_func_of_region_at_contact _ _ _ _ _ _ _ Hcell Hi Ht), Hdepth in Hf.
      congruence.
    + assert (Hthrow :
        rs_func_of_region props eqlmap (getRsvdTables eclipseState) rec i
        = Throw (rs_datum_not_at_contact i)).
      { rewrite (rs_func_of_region_at_contact _ _ _ _ _ _ _ Hcell Hi Ht).
        by rewrite Hdepth. }
      split_and!; [done | | |].
      * intros self H.
        destruct (constructed_rs_func _ _ _ _ _ _ _ _ i H Hrec Heqlnum Hflag Hlt)
          as (f & Hf & _).
        fold eqlmap in Hf. congruence.
      * intros Hdef.
        destruct (for_each_defined_throws
                    (rs_func_of_region props eqlmap (getRsvdTables eclipseState) rec)
                    (seq 0 i) (seq (S i) (length rec - S i)) i _ Hthrow)
          as (e & x & _ & Hx & Hloop).
        { intros j Hj. apply Hdef. apply elem_of_seq in Hj. lia. }
        rewrite <- Hsplit in Hloop. eexists e, _. split.
        -- apply (constructor_throws_rs _ _ _ _ _ rec eqlnum); [done | done |].
           unfold create_rs_functions. by rewrite Hflag.
        -- split; [by eapply rs_func_of_region_throws_runtime_error|].
           by split_and!.
      * intros Hbefore.
        by apply (constructor_throws_rs_at _ _ _ _ _ rec eqlnum i).
  - intros Hflag Ht. subst rv_of.
    rewrite (rv_func_of_region_at_contact _ _ _ _ _ _ _ Hcell Hi Ht).
    destruct (depth (goc rec_i) =? depth (main rec_i))%float eqn:Hdepth.
    + split; [done|]. intros self H.
      destruct (constructed_rv_func _ _ _ _ _ _ _ _ i H Hrec Heqlnum Hflag Hlt)
        as (f & Hf & Hlk).
      fold eqlmap in Hf.
      rewrite (rv_func_of_region_at_contact _ _ _ _ _ _ _ Hcell Hi Ht), Hdepth in Hf.
      congruence.
    + assert (Hthrow :
        rv_func_of_region props eqlmap (getRvvdTables eclipseState) rec i
        = Throw (rv_datum_not_at_contact i)).
      { rewrite (rv_func_of_region_at_contact _ _ _ _ _ _ _ Hcell Hi Ht).
        by rewrite Hdepth. }
      split_and!; [done | | |].
      * intros self H.
        destruct (constructed_rv_func _ _ _ _ _ _ _ _ i H Hrec Heqlnum Hflag Hlt)
          as (f & Hf & _).
        fold eqlmap in Hf. congruence.
      * intros Hrs Hdef.
        destruct (for_each_defined_throws
                    (rv_func_of_region props eqlmap (getRvvdTables eclipseState) rec)
                    (seq 0 i) (seq (S i) (length rec - S i)) i _ Hthrow)
          as (e & x & _ & Hx & Hloop).
        { intros j Hj. apply Hdef. apply elem_of_seq in Hj. lia. }
        rewrite <- Hsplit in Hloop.
        destruct (create_rs_functions props deck eclipseState eqlmap rec)
          as [rs_funcs|e_rs|] eqn:Hcreate; [| |done].
        -- eexists e, _. split.
           ++ apply (constructor_throws_rv _ _ _ _ _ rec eqlnum);
                [done | done | done |].
              unfold create_rv_functions. by rewrite Hflag.
           ++ split; [by eapply rv_func_of_region_throws_runtime_error|].
              by split_and!.
        -- eexists e_rs, _. split.
           ++ by apply (constructor_throws_rs _ _ _ _ _ rec eqlnum).
           ++ split; [by eapply create_rs_functions_throws_runtime_error|].
              by split_and!.
      * intros rs_funcs Hrs Hbefore.
        by apply (constructor_throws_rv_at _ _ _ _ _ rec eqlnum rs_funcs i).
Qed.

End Construction.

(** ** The properties on concrete decks *)

Section Witnesses.

Import Equil Equil.InitialStateComputer Examples.

(** An EQUIL record with accuracy target 5. *)
Lemma nonzero_accuracy_target_rejected_witness :
  EQUIL deck_accuracy_5 = Some (equil1 1000 1000 0 0 5)
  /\ getEquil deck_accuracy_5 = Throw only_N0_supported
  /\ is_domain_error only_N0_supported = true
  /\ exists self,
       constructor0 props3 deck_accuracy_5 eclipse_state grid2 gravity
       = (Throw only_N0_supported, self)
       /\ self = member_initialisers props3 grid2
       /\ press self = replicate 3 (zeros 2)
       /\ saturation self = replicate 3 (zeros 2)
       /\ rs self = zeros 2
       /\ rv self = zeros 2
       /\ rs_func_ self = [] /\ rv_func_ self = [].
Proof.
  split; [reflexivity|].
  apply (nonzero_accuracy_target_rejected phasePressures0 temperature0
           phaseSaturations0 satRs0 satRv0 linearInterpolation0
           props3 deck_accuracy_5 eclipse_state grid2 gravity
           (equil1 1000 1000 0 0 5) 0).
  - reflexivity.
  - cbn. lia.
  - cbn. lia.
Defined.

(** Table indices 1 and 1, no DISGAS, no VAPOIL. *)
Lemma no_feature_flag_no_mixing_witness :
  constructor0 props3 deck_no_features eclipse_state grid2 gravity
  = (Ok tt, computer_no_features)
  /\ EquilWrapper.liveOilInitProceedure (equil1 1000 1000 1 1 0) 0 = 1
  /\ (DISGAS deck_no_features = false ->
      rs_func_ computer_no_features !! 0%nat = Some NoMixing
      /\ forall eqlmap records,
           create_rs_functions props3 deck_no_features eclipse_state eqlmap records
           = Ok (replicate (length records) NoMixing))
  /\ (VAPOIL deck_no_features = false ->
      rv_func_ computer_no_features !! 0%nat = Some NoMixing
      /\ forall eqlmap records,
           create_rv_functions props3 deck_no_features eclipse_state eqlmap records
           = Ok (replicate (length records) NoMixing)).
Proof.
  split; [vm_compute; reflexivity|]. split; [reflexivity|].
  apply (no_feature_flag_no_mixing phasePressures0 temperature0
           phaseSaturations0 satRs0 satRv0 linearInterpolation0
           props3 deck_no_features eclipse_state grid2 gravity
           [{| main := {| depth := 1000; Equil.press := 30000000 |};
               woc := {| depth := 1050; Equil.press := 0 |};
               goc := {| depth := 1000; Equil.press := 5 |};
               live_oil_table_index := 1; wet_gas_table_index := 1; N := 0 |}]
           computer_no_features 0).
  - vm_compute. reflexivity.
  - reflexivity.
  - cbn. lia.
Defined.

(** Two regions without table index, the first with its datum at the
    gas-oil contact and the second 10 m below it: the constructor leaves
    with the exception naming region 2, [rs_func_] holding the function of
    the first region; with VAPOIL only, [rv_func_] holding the function of
    the first region and [rs_func_] the two of the loop before.  One region
    at the contact: the constructed object holds the two functions anchored
    at the contact. *)
Lemma datum_must_be_at_contact_witness :
  getEquil deck_second_off_contact = Ok [record_at_contact; record_off_contact]
  /\ equilnum deck_second_off_contact eclipse_state_two_regions grid2 = Ok [1; 0]
  /\ rs_func_of_region props3 {| RegionMapping.region_of_cell := [1; 0] |}
       (getRsvdTables eclipse_state_two_regions)
       [record_at_contact; record_off_contact] 1
     = Throw (rs_datum_not_at_contact 1)
  /\ (exists pushed,
        constructor0 props3 deck_second_off_contact eclipse_state_two_regions
          grid2 gravity
        = (Throw (rs_datum_not_at_contact 1),
           set_rs_func_ pushed (member_initialisers props3 grid2))
        /\ length pushed = 1%nat
        /\ pushed !! 0%nat = Some (RsSatAtContact props3 1 30000000 T_contact))
  /\ (exists pushed,
        constructor0 props3 deck_second_off_contact_vapoil
          eclipse_state_two_regions grid2 gravity
        = (Throw (rv_datum_not_at_contact 1),
           set_rv_func_ pushed
             (set_rs_func_ [NoMixing; NoMixing] (member_initialisers props3 grid2)))
        /\ length pushed = 1%nat
        /\ pushed !! 0%nat
           = Some (RvSatAtContact props3 1 (30000000 + 5) T_contact))
  /\ constructor0 props3 deck_at_contact eclipse_state grid2 gravity
     = (Ok tt, computer_at_contact)
  /\ rs_func_ computer_at_contact !! 0%nat
     = Some (RsSatAtContact props3 0 30000000 T_contact)
  /\ rv_func_ computer_at_contact !! 0%nat
     = Some (RvSatAtContact props3 0 (30000000 + 5) T_contact).
Proof.
  split; [reflexivity|]. split; [reflexivity|].
  destruct (datum_must_be_at_contact phasePressures0 temperature0
              phaseSaturations0 satRs0 satRv0 linearInterpolation0
              props3 deck_second_off_contact eclipse_state_two_regions grid2
              gravity [record_at_contact; record_off_contact] [1; 0] 1 0
              record_off_contact eq_refl eq_refl eq_refl eq_refl)
    as (_ & Hrs & _).
  assert (Ht : live_oil_table_index record_off_contact <= 0) by (cbn; lia).
  destruct (Hrs eq_refl Ht) as (Hthrow & _ & _ & Hctor).
  split; [exact Hthrow|]. split; [|split].
  - destruct Hctor as (pushed & Hleaves & Hlen & Hpushed).
    + intros [|j] Hj; [|lia]. eexists. reflexivity.
    + exists pushed. split; [exact Hleaves|]. split; [exact Hlen|].
      apply Hpushed; [lia | reflexivity].
  - destruct (datum_must_be_at_contact phasePressures0 temperature0
                phaseSaturations0 satRs0 satRv0 linearInterpolation0
                props3 deck_second_off_contact_vapoil eclipse_state_two_regions
                grid2 gravity [record_at_contact; record_off_contact] [1; 0] 1 0
                record_off_contact eq_refl eq_refl eq_refl eq_refl)
      as (_ & _ & Hrv).
    assert (Ht' : wet_gas_table_index record_off_contact <= 0) by (cbn; lia).
    destruct (Hrv eq_refl Ht') as (_ & _ & _ & Hctor').
    destruct (Hctor' [NoMixing; NoMixing] eq_refl)
      as (pushed & Hleaves & Hlen & Hpushed).
    + intros [|j] Hj; [|lia]. eexists. reflexivity.
    + exists pushed. split; [exact Hleaves|]. split; [exact Hlen|].
      apply Hpushed; [lia | reflexivity].
  - assert (Hok : constructor0 props3 deck_at_contact eclipse_state grid2 gravity
                  = (Ok tt, computer_at_contact)) by (vm_compute; reflexivity).
    split; [exact Hok|].
    destruct (datum_must_be_at_contact phasePressures0 temperature0
                phaseSaturations0 satRs0 satRv0 linearInterpolation0
                props3 deck_at_contact eclipse_state grid2 gravity
                [record_at_contact] [0; 0] 0 0 record_at_contact
                eq_refl eq_refl eq_refl eq_refl) as (_ & Hrs0 & Hrv0).
    assert (Ht0 : live_oil_table_index record_at_contact <= 0) by (cbn; lia).
    assert (Ht1 : wet_gas_table_index record_at_contact <= 0) by (cbn; lia).
    destruct (Hrs0 eq_refl Ht0) as [_ Hrs_obj].
    destruct (Hrv0 eq_refl Ht1) as [_ Hrv_obj].
    split; [exact (Hrs_obj _ Hok) | exact (Hrv_obj _ Hok)].
Defined.

(** Three phases, no features: region 0, cell 1. *)
Lemma no_mixing_zero_ratios_witness :
  constructor0 props3 deck_no_features eclipse_state grid2 gravity
  = (Ok tt, computer_no_features)
  /\ rs computer_no_features !! 1%nat = Some 0%float
  /\ rv computer_no_features !! 1%nat = Some 0%float
  /\ forall pressure temp sat ratio,
       computeRs satRs0 satRv0 linearInterpolation0 grid2
         (RegionMapping.cells {| RegionMapping.region_of_cell := [0; 0] |} 0)
         pressure temp NoMixing sat = Ok ratio ->
       forall x, x ∈ ratio -> x = 0%float.
Proof.
  split; [vm_compute; reflexivity|].
  apply (no_mixing_zero_ratios phasePressures0 temperature0
           phaseSaturations0 satRs0 satRv0 linearInterpolation0
           props3 deck_no_features eclipse_state grid2 gravity
           [0; 0] computer_no_features 0 1).
  - vm_compute. reflexivity.
  - reflexivity.
  - reflexivity.
  - reflexivity.
  - apply cells_elem_of. reflexivity.
Defined.

(** Water and oil only, DISGAS and VAPOIL set. *)
Lemma ratios_untouched_without_oil_and_gas_witness :
  constructor0 props2 deck_at_contact eclipse_state grid2 gravity
  = (Ok tt, computer_water_oil)
  /\ rs computer_water_oil = zeros 2
  /\ rv computer_water_oil = zeros 2
  /\ forall r,
       (r < RegionMapping.numRegions {| RegionMapping.region_of_cell := [0; 0]%Z |})%nat ->
       exists v,
         region_values phasePressures0 temperature0 phaseSaturations0
           {| RegionMapping.region_of_cell := [0; 0] |}
           [{| main := {| depth := 1000; Equil.press := 30000000 |};
               woc := {| depth := 1050; Equil.press := 0 |};
               goc := {| depth := 1000; Equil.press := 5 |};
               live_oil_table_index := 0; wet_gas_table_index := 0; N := 0 |}]
           props2 grid2 gravity r computer_water_oil = Ok v
         /\ forall p k c,
              (p < numPhases props2)%nat ->
              RegionMapping.cells {| RegionMapping.region_of_cell := [0; 0] |} r !! k
              = Some c ->
              exists x y,
                entry (region_press v) p k = Some x
                /\ entry (press computer_water_oil) p c = Some x
                /\ entry (region_sat v) p k = Some y
                /\ entry (saturation computer_water_oil) p c = Some y.
Proof.
  split; [vm_compute; reflexivity|].
  apply (ratios_untouched_without_oil_and_gas phasePressures0 temperature0
           phaseSaturations0 satRs0 satRv0 linearInterpolation0
           props2 deck_at_contact eclipse_state grid2 gravity).
  - vm_compute. reflexivity.
  - reflexivity.
  - reflexivity.
  - reflexivity.
Defined.

(** C1: with DISGAS and VAPOIL, one region whose record has table index 2 for
    Rs and for Rv, and two RSVD and two RVVD tables, the constructor returns,
    and the depth-table functions of the region are built from the first
    table of each list, the one at the region's index 0, not from the second,
    the one at table index 2 counted from 1.  With two regions of table index
    1 and a single RSVD table, the test on the table index passes for the
    second region and the table is read at index 1, outside the list. *)
Theorem depth_table_read_at_region_index :
  getEquil deck_table_2 = Ok [record_table_2]
  /\ live_oil_table_index record_table_2 = 2
  /\ wet_gas_table_index record_table_2 = 2
  /\ getRsvdTables eclipse_state !! 1%nat = Some rsvd2
  /\ getRvvdTables eclipse_state !! 1%nat = Some rvvd2
  /\ constructor0 props3 deck_table_2 eclipse_state grid2 gravity
     = (Ok tt, computer_table_2)
  /\ rs_func_ computer_table_2
     = [RsVD props3 0 (RsvdTable.getDepthColumn rsvd1) (RsvdTable.getRsColumn rsvd1)]
  /\ rv_func_ computer_table_2
     = [RvVD props3 0 (RvvdTable.getDepthColumn rvvd1) (RvvdTable.getRvColumn rvvd1)]
  /\ RsvdTable.getRsColumn rsvd1 <> RsvdTable.getRsColumn rsvd2
  /\ RvvdTable.getRvColumn rvvd1 <> RvvdTable.getRvColumn rvvd2
  /\ (exists rec_0 rec_1,
        getEquil deck_two_regions = Ok [rec_0; rec_1]
        /\ live_oil_table_index rec_1 = 1
        /\ getRsvdTables eclipse_state_two_regions = [rsvd1]
        /\ equilnum deck_two_regions eclipse_state_two_regions grid2 = Ok [1; 0]
        /\ rs_func_of_region props3 {| RegionMapping.region_of_cell := [1; 0] |}
             [rsvd1] [rec_0; rec_1] 1 = Undefined
        /\ fst (constructor0 props3 deck_two_regions eclipse_state_two_regions
                  grid2 gravity) = Undefined).
Proof.
  do 5 (split; [reflexivity|]).
  split; [vm_compute; reflexivity|].
  do 2 (split; [reflexivity|]).
  split_and!.
  - intros H.
    apply (f_equal (fun l => match l with
                             | x :: _ => PrimFloat.eqb x 50
                             | [] => false
                             end)) in H.
    vm_compute in H. discriminate H.
  - intros H.
    apply (f_equal (fun l => match l with
                             | x :: _ => PrimFloat.eqb x 0.002
                             | [] => false
                             end)) in H.
    vm_compute in H. discriminate H.
  - eexists _, _. split_and!; reflexivity.
Qed.

End Witnesses.

(** ** The saturation solver *)

Section Doubles.

Import SpecFloat FloatOps FloatAxioms.








End Doubles.

Section SaturationSolver.

Import Equil Equil.SaturationSolver.

Variable invert_pc_wo : nat -> option float -> float -> float.
Variable invert_pc_go : nat -> float -> float.
Variable water_domain : nat -> float * float.
Variable gas_domain : nat -> float * float.

#[local] Abbreviation solve :=
  (phaseSaturations invert_pc_wo invert_pc_go water_domain gas_domain).


(** What is not a number stays what it is. *)
Lemma clamp_nan (domain : float * float) (s : float) :
  is_nan s = true -> clamp domain s = s.
Proof.
  unfold clamp, is_nan. intros Hs.
  rewrite FloatAxioms.ltb_spec, (FloatAxioms.ltb_spec domain.2 s).
  rewrite FloatAxioms.eqb_spec in Hs. unfold SpecFloat.SFeqb in Hs.
  unfold SpecFloat.SFltb.
  destruct (FloatOps.Prim2SF s) as [b|b| |b m e] eqn:E.
  - by destruct b.
  - by destruct b.
  - by destruct (FloatOps.Prim2SF domain.2).
  - cbn in Hs. destruct b;
      rewrite Z.compare_refl, Pos.compare_cont_spec, Pos.compare_refl in Hs;
      discriminate Hs.
Qed.



End SaturationSolver.

Section SaturationSolverWitnesses.

Import Equil Equil.SaturationSolver Examples.



End SaturationSolverWitnesses.


(** ** Further properties of PvtPropertiesIncompFromDeck *)

Section PvtFurther.

Import PvtPropertiesIncompFromDeck.

Variable phaseUsageFromDeck : Deck -> PhaseUsage.

(** X1: [init] returns exactly when the phase usage is water and oil only,
    the keywords DENSITY, PVTW and PVCDO are all present and the positions of
    the water and the oil phase are inside the two-element arrays. *)
Theorem init_returns_iff (deck : Deck) (self : t) :
  (exists self', init phaseUsageFromDeck deck self = (Ok tt, self'))
  <-> water_and_oil_only (phaseUsageFromDeck deck) = true
      /\ is_Some (DENSITY deck) /\ is_Some (PVTW deck) /\ is_Some (PVCDO deck)
      /\ (phase_pos (phaseUsageFromDeck deck) Aqua < 2)%nat
      /\ (phase_pos (phaseUsageFromDeck deck) Liquid < 2)%nat.
Proof.
  split.
  - intros [self' H]. revert H. unfold init, water_and_oil_only.
    destruct (phase_used _ Vapour), (phase_used _ Aqua), (phase_used _ Liquid);
      cbn; try discriminate.
    destruct (DENSITY deck) as [d|]; [|discriminate].
    destruct (PVTW deck) as [w|], (PVCDO deck) as [o|];
      destruct (phase_pos _ Aqua) as [|[|?]], (phase_pos _ Liquid) as [|[|?]];
      cbn; try discriminate;
      try (destruct (nonzero _ || nonzero _); cbn; discriminate).
    all: intros _; split_and!; try done; lia.
  - intros (Hpu & [d Hd] & [w Hw] & [o Ho] & Ha & Hl).
    by eapply init_returns.
Qed.

(** X2: on a water-oil deck without DENSITY, [init] throws the
    [std::runtime_error] "Input is missing DENSITY" and no member of the
    object has been assigned. *)
Theorem init_missing_DENSITY (deck : Deck) (self : t) :
  water_and_oil_only (phaseUsageFromDeck deck) = true ->
  DENSITY deck = None ->
  init phaseUsageFromDeck deck self
  = (Throw (runtime_error [Str "Input is missing DENSITY"]), self).
Proof.
  unfold water_and_oil_only, init. intros Hpu ->.
  destruct (phase_used _ Vapour), (phase_used _ Aqua), (phase_used _ Liquid);
    try discriminate Hpu.
  reflexivity.
Qed.

(** X3: on a water-oil deck with DENSITY and without PVTW, [init] throws
    "Input is missing PVTW" after the densities have been assigned: the
    surface densities hold the OIL item (water slot) and the WATER item (oil
    slot), the reservoir densities are equal to them, and the viscosities are
    as they were. *)
Theorem init_missing_PVTW (deck : Deck) (self : t) (d : DensityRecord) :
  let pu := phaseUsageFromDeck deck in
  water_and_oil_only pu = true ->
  DENSITY deck = Some d ->
  PVTW deck = None ->
  (phase_pos pu Aqua < 2)%nat -> (phase_pos pu Liquid < 2)%nat ->
  phase_pos pu Aqua <> phase_pos pu Liquid ->
  exists self',
    init phaseUsageFromDeck deck self
    = (Throw (runtime_error [Str "Input is missing PVTW"]), self')
    /\ array_get (surface_density_ self') (phase_pos pu Aqua) = Ok (OIL d)
    /\ array_get (surface_density_ self') (phase_pos pu Liquid) = Ok (WATER d)
    /\ reservoir_density_ self' = surface_density_ self'
    /\ viscosity_ self' = viscosity_ self.
Proof.
  intros pu. subst pu. unfold water_and_oil_only, init. intros Hpu -> -> Ha Hl Hne.
  destruct (phase_used _ Vapour), (phase_used _ Aqua), (phase_used _ Liquid);
    try discriminate Hpu.
  destruct (phase_pos _ Aqua) as [|[|?]], (phase_pos _ Liquid) as [|[|?]];
    try lia; try congruence; cbn; eexists; split_and!; reflexivity.
Qed.

(** X4: on a water-oil deck with DENSITY and PVTW and without PVCDO, [init]
    throws "Input is missing PVCDO" after the water phase has been treated:
    the water slot has its reservoir density divided by WATER_VOL_FACTOR and
    its viscosity set, the oil slot still has the undivided reservoir density
    and the viscosity it had before. *)
Theorem init_missing_PVCDO (deck : Deck) (self : t) (d : DensityRecord)
    (w : PvtwRecord) (old_viscosity : float) :
  let pu := phaseUsageFromDeck deck in
  water_and_oil_only pu = true ->
  DENSITY deck = Some d ->
  PVTW deck = Some w ->
  PVCDO deck = None ->
  (phase_pos pu Aqua < 2)%nat ->
  phase_pos pu Aqua <> phase_pos pu Liquid ->
  array_get (viscosity_ self) (phase_pos pu Liquid) = Ok old_viscosity ->
  exists self',
    init phaseUsageFromDeck deck self
    = (Throw (runtime_error [Str "Input is missing PVCDO"]), self')
    /\ array_get (reservoir_density_ self') (phase_pos pu Aqua)
       = Ok (OIL d / WATER_VOL_FACTOR w)%float
    /\ array_get (viscosity_ self') (phase_pos pu Aqua) = Ok (WATER_VISCOSITY w)
    /\ array_get (reservoir_density_ self') (phase_pos pu Liquid) = Ok (WATER d)
    /\ array_get (viscosity_ self') (phase_pos pu Liquid) = Ok old_viscosity.
Proof.
  intros pu. subst pu. unfold water_and_oil_only, init.
  intros Hpu -> -> -> Ha Hne Hold.
  destruct (phase_used _ Vapour), (phase_used _ Aqua), (phase_used _ Liquid);
    try discriminate Hpu.
  destruct (phase_pos _ Aqua) as [|[|?]], (phase_pos _ Liquid) as [|[|?]];
    try lia; try congruence; try discriminate Hold; cbn in *;
    destruct (nonzero _ || nonzero _); cbn;
    eexists; split_and!; try reflexivity; exact Hold.
Qed.

(** X5: after a successful [init] the viscosity at the oil position is the
    OIL_VISCOSITY item of PVCDO and, the two positions being distinct, the
    viscosity at the water position is the WATER_VISCOSITY item of PVTW. *)
Theorem init_viscosities (deck : Deck) (self self' : t) :
  let pu := phaseUsageFromDeck deck in
  init phaseUsageFromDeck deck self = (Ok tt, self') ->
  exists w o,
    PVTW deck = Some w /\ PVCDO deck = Some o
    /\ array_get (viscosity self') (phase_pos pu Liquid) = Ok (OIL_VISCOSITY o)
    /\ (phase_pos pu Aqua <> phase_pos pu Liquid ->
        array_get (viscosity self') (phase_pos pu Aqua) = Ok (WATER_VISCOSITY w)).
Proof.
  intros pu. subst pu. unfold init.
  destruct (phase_used _ Vapour), (phase_used _ Aqua), (phase_used _ Liquid);
    cbn; try discriminate.
  destruct (DENSITY deck) as [d|]; [|discriminate].
  destruct (PVTW deck) as [w|], (PVCDO deck) as [o|];
    destruct (phase_pos _ Aqua) as [|[|?]], (phase_pos _ Liquid) as [|[|?]];
    cbn; try discriminate;
    try (destruct (nonzero _ || nonzero _); cbn; discriminate).
  all: destruct (nonzero _ || nonzero _); cbn;
    destruct (nonzero _ || nonzero _); cbn;
    intros [= <-]; exists w, o; cbn; split_and!; try done; congruence.
Qed.

(** X6: with distinct phase positions, what a successful [init] leaves in
    the object does not depend on what the object held before: [init] on any
    other object gives the same members, and a second [init] changes
    nothing. *)
Theorem init_overwrites (deck : Deck) (self self' other : t) :
  let pu := phaseUsageFromDeck deck in
  init phaseUsageFromDeck deck self = (Ok tt, self') ->
  phase_pos pu Aqua <> phase_pos pu Liquid ->
  init phaseUsageFromDeck deck other = (Ok tt, self')
  /\ init phaseUsageFromDeck deck self' = (Ok tt, self').
Proof.
  intros pu. subst pu. unfold init.
  destruct (phase_used _ Vapour), (phase_used _ Aqua), (phase_used _ Liquid);
    cbn; try discriminate.
  destruct (DENSITY deck) as [d|]; [|discriminate].
  destruct (PVTW deck) as [w|], (PVCDO deck) as [o|];
    destruct (phase_pos _ Aqua) as [|[|?]], (phase_pos _ Liquid) as [|[|?]];
    cbn; try discriminate; try congruence;
    try (destruct (nonzero _ || nonzero _); cbn; discriminate).
  all: destruct (nonzero _ || nonzero _); cbn;
    destruct (nonzero _ || nonzero _); cbn;
    intros [= <-] _; cbn; done.
Qed.

(** X7: the compressibility and viscosibility items of PVTW and PVCDO have no
    effect on the object: two decks with the same phase usage and DENSITY
    whose PVTW and PVCDO records have the same volume factors and viscosities
    give the same outcome and the same members. *)
Theorem init_ignores_compressibility (deck1 deck2 : Deck) (self : t)
    (w1 w2 : PvtwRecord) (o1 o2 : PvcdoRecord) :
  phaseUsageFromDeck deck1 = phaseUsageFromDeck deck2 ->
  DENSITY deck1 = DENSITY deck2 ->
  PVTW deck1 = Some w1 -> PVTW deck2 = Some w2 ->
  PVCDO deck1 = Some o1 -> PVCDO deck2 = Some o2 ->
  WATER_VOL_FACTOR w1 = WATER_VOL_FACTOR w2 ->
  WATER_VISCOSITY w1 = WATER_VISCOSITY w2 ->
  OIL_VOL_FACTOR o1 = OIL_VOL_FACTOR o2 ->
  OIL_VISCOSITY o1 = OIL_VISCOSITY o2 ->
  init phaseUsageFromDeck deck1 self = init phaseUsageFromDeck deck2 self.
Proof.
  intros Hpu Hd Hw1 Hw2 Ho1 Ho2 Hbw Hmw Hbo Hmo. unfold init.
  rewrite Hpu, Hd, Hw1, Hw2, Ho1, Ho2, Hbw, Hmw, Hbo, Hmo.
  destruct (phase_used _ Vapour), (phase_used _ Aqua), (phase_used _ Liquid);
    cbn; try reflexivity.
  destruct (DENSITY deck2) as [d|]; [|reflexivity].
  destruct (phase_pos _ Aqua) as [|[|?]], (phase_pos _ Liquid) as [|[|?]];
    cbn; try reflexivity.
  all: destruct (nonzero (WATER_COMPRESSIBILITY w1) || nonzero (WATER_VISCOSIBILITY w1));
    destruct (nonzero (WATER_COMPRESSIBILITY w2) || nonzero (WATER_VISCOSIBILITY w2));
    cbn; try reflexivity;
    destruct (nonzero (OIL_COMPRESSIBILITY o1) || nonzero (OIL_VISCOSIBILITY o1));
    destruct (nonzero (OIL_COMPRESSIBILITY o2) || nonzero (OIL_VISCOSIBILITY o2));
    cbn; reflexivity.
Qed.

End PvtFurther.

Section PvtFurtherWitnesses.

Import PvtPropertiesIncompFromDeck Examples.

(** A water-oil deck without DENSITY. *)
Lemma init_missing_DENSITY_witness :
  DENSITY pvt_deck_no_density = None
  /\ init (fun _ => water_oil) pvt_deck_no_density pvt_object
     = (Throw (runtime_error [Str "Input is missing DENSITY"]), pvt_object).
Proof.
  split; [reflexivity|].
  apply (init_missing_DENSITY (fun _ => water_oil) pvt_deck_no_density pvt_object);
    reflexivity.
Defined.

(** A water-oil deck without PVTW. *)
Lemma init_missing_PVTW_witness :
  PVTW pvt_deck_no_pvtw = None
  /\ exists self',
      init (fun _ => water_oil) pvt_deck_no_pvtw pvt_object
      = (Throw (runtime_error [Str "Input is missing PVTW"]), self')
      /\ array_get (surface_density_ self') 0 = Ok 800%float
      /\ array_get (surface_density_ self') 1 = Ok 1000%float
      /\ reservoir_density_ self' = surface_density_ self'
      /\ viscosity_ self' = viscosity_ pvt_object.
Proof.
  split; [reflexivity|].
  apply (init_missing_PVTW (fun _ => water_oil) pvt_deck_no_pvtw pvt_object
           {| OIL := 800; WATER := 1000; GAS := 1 |});
    try reflexivity; cbn; lia.
Defined.

(** A water-oil deck without PVCDO. *)
Lemma init_missing_PVCDO_witness :
  PVCDO pvt_deck_no_pvcdo = None
  /\ exists self',
      init (fun _ => water_oil) pvt_deck_no_pvcdo pvt_object
      = (Throw (runtime_error [Str "Input is missing PVCDO"]), self')
      /\ array_get (reservoir_density_ self') 0 = Ok (800 / 1.25)%float
      /\ array_get (viscosity_ self') 0 = Ok 0.5%float
      /\ array_get (reservoir_density_ self') 1 = Ok 1000%float
      /\ array_get (viscosity_ self') 1 = Ok 7%float.
Proof.
  split; [reflexivity|].
  apply (init_missing_PVCDO (fun _ => water_oil) pvt_deck_no_pvcdo pvt_object
           {| OIL := 800; WATER := 1000; GAS := 1 |}
           {| WATER_VOL_FACTOR := 1.25; WATER_COMPRESSIBILITY := 0;
              WATER_VISCOSITY := 0.5; WATER_VISCOSIBILITY := 0 |} 7%float);
    try reflexivity; cbn; lia.
Defined.

(** The viscosities after [init] on the water-oil deck. *)
Lemma init_viscosities_witness :
  init (fun _ => water_oil) pvt_deck pvt_object = (Ok tt, pvt_object_after_init)
  /\ exists w o,
      PVTW pvt_deck = Some w /\ PVCDO pvt_deck = Some o
      /\ array_get (viscosity pvt_object_after_init) 1 = Ok (OIL_VISCOSITY o)
      /\ (0%nat <> 1%nat ->
          array_get (viscosity pvt_object_after_init) 0 = Ok (WATER_VISCOSITY w)).
Proof.
  split; [reflexivity|].
  apply (init_viscosities (fun _ => water_oil) pvt_deck pvt_object
           pvt_object_after_init).
  reflexivity.
Defined.

(** [init] on two objects with different members, and twice. *)
Lemma init_overwrites_witness :
  init (fun _ => water_oil) pvt_deck pvt_object = (Ok tt, pvt_object_after_init)
  /\ init (fun _ => water_oil) pvt_deck pvt_object_other
     = (Ok tt, pvt_object_after_init)
  /\ init (fun _ => water_oil) pvt_deck pvt_object_after_init
     = (Ok tt, pvt_object_after_init).
Proof.
  split; [reflexivity|].
  apply (init_overwrites (fun _ => water_oil) pvt_deck pvt_object
           pvt_object_after_init pvt_object_other).
  - reflexivity.
  - cbn. lia.
Defined.

(** The deck with compressibilities against the one without. *)
Lemma init_ignores_compressibility_witness :
  WATER_COMPRESSIBILITY
    {| WATER_VOL_FACTOR := 1.25; WATER_COMPRESSIBILITY := 0.00001;
       WATER_VISCOSITY := 0.5; WATER_VISCOSIBILITY := 0.002 |} = 0.00001%float
  /\ init (fun _ => water_oil) pvt_deck_compressible pvt_object
     = init (fun _ => water_oil) pvt_deck pvt_object.
Proof.
  split; [reflexivity|].
  apply (init_ignores_compressibility (fun _ => water_oil)
           pvt_deck_compressible pvt_deck pvt_object
           {| WATER_VOL_FACTOR := 1.25; WATER_COMPRESSIBILITY := 0.00001;
              WATER_VISCOSITY := 0.5; WATER_VISCOSIBILITY := 0.002 |}
           {| WATER_VOL_FACTOR := 1.25; WATER_COMPRESSIBILITY := 0;
              WATER_VISCOSITY := 0.5; WATER_VISCOSIBILITY := 0 |}
           {| OIL_VOL_FACTOR := 2; OIL_COMPRESSIBILITY := 0.00003;
              OIL_VISCOSITY := 4; OIL_VISCOSIBILITY := 0.001 |}
           {| OIL_VOL_FACTOR := 2; OIL_COMPRESSIBILITY := 0;
              OIL_VISCOSITY := 4; OIL_VISCOSIBILITY := 0 |});
    reflexivity.
Defined.

End PvtFurtherWitnesses.


(** ** Further properties of the equilibration *)

Section EquilFurther.

Import Equil Equil.InitialStateComputer.

Variable phasePressures : UnstructuredGrid -> EqReg -> list nat -> float -> PVec.
Variable temperature : UnstructuredGrid -> EqReg -> list nat -> Vec.
Variable phaseSaturations :
  UnstructuredGrid -> EqReg -> list nat -> BlackoilPropertiesInterface ->
  Vec -> PVec -> PVec * PVec.
Variable satRs : BlackoilPropertiesInterface -> nat -> float -> float -> float.
Variable satRv : BlackoilPropertiesInterface -> nat -> float -> float -> float.
Variable linearInterpolation : list float -> list float -> float -> float.

#[local] Abbreviation construct :=
  (constructor phasePressures temperature phaseSaturations satRs satRv
     linearInterpolation).
#[local] Abbreviation calc :=
  (calcPressSatRsRv phasePressures temperature phaseSaturations satRs satRv
     linearInterpolation).
#[local] Abbreviation step :=
  (region_step phasePressures temperature phaseSaturations satRs satRv
     linearInterpolation).
#[local] Abbreviation values :=
  (region_values phasePressures temperature phaseSaturations).

(** X8: without the EQUIL keyword [getEquil] throws the [std::domain_error]
    "Deck does not provide equilibration data", and the constructor leaves
    with it, its members being as the member initialisers left them. *)
Theorem missing_EQUIL_rejected (props : BlackoilPropertiesInterface)
    (deck : Deck) (eclipseState : EclipseState) (G : UnstructuredGrid)
    (grav : float) :
  EQUIL deck = None ->
  getEquil deck = Throw no_equil_data
  /\ is_domain_error no_equil_data = true
  /\ construct props deck eclipseState G grav
     = (Throw no_equil_data, member_initialisers props G).
Proof.
  intros H. assert (Hget : getEquil deck = Throw no_equil_data).
  { unfold getEquil. by rewrite H. }
  split_and!; [done | done |].
  unfold constructor, constructor_body, bind, lift. by rewrite Hget.
Qed.

(** X9: the records [getEquil] returns are one per region of the EQUIL
    keyword, in the keyword's order, and record [r] holds the nine items the
    wrapper gives for region [r]: datum depth and pressure, water-oil contact
    depth and capillary pressure, gas-oil contact depth and capillary
    pressure, the two table indices, and the accuracy target, which is 0. *)
Theorem getEquil_records (deck : Deck) (rec : list EquilRecord) :
  getEquil deck = Ok rec ->
  exists eql,
    EQUIL deck = Some eql
    /\ length rec = EquilWrapper.numRegions eql
    /\ forall r, (r < EquilWrapper.numRegions eql)%nat ->
         exists rec_r,
           rec !! r = Some rec_r
           /\ depth (main rec_r) = EquilWrapper.datumDepth eql r
           /\ Equil.press (main rec_r) = EquilWrapper.datumDepthPressure eql r
           /\ depth (woc rec_r) = EquilWrapper.waterOilContactDepth eql r
           /\ Equil.press (woc rec_r)
              = EquilWrapper.waterOilContactCapillaryPressure eql r
           /\ depth (goc rec_r) = EquilWrapper.gasOilContactDepth eql r
           /\ Equil.press (goc rec_r)
              = EquilWrapper.gasOilContactCapillaryPressure eql r
           /\ live_oil_table_index rec_r = EquilWrapper.liveOilInitProceedure eql r
           /\ wet_gas_table_index rec_r = EquilWrapper.wetGasInitProceedure eql r
           /\ N rec_r = EquilWrapper.initializationTargetAccuracy eql r
           /\ N rec_r = 0.
Proof.
  unfold getEquil. destruct (EQUIL deck) as [eql|]; [|discriminate].
  cbn zeta. intros H. apply for_each_Ok_lookup in H as [Hlen H].
  rewrite length_seq in Hlen. exists eql. split_and!; [done | done |].
  intros r Hr.
  destruct (H r r) as (b & Hb & Hlk); [by apply lookup_seq_lt|].
  cbn [N] in Hb.
  destruct (Z.eqb_spec (EquilWrapper.initializationTargetAccuracy eql r) 0)
    as [Hn|Hn]; cbn in Hb; [|discriminate].
  injection Hb as <-. eexists. split; [exact Hlk|]. cbn. by split_and!.
Qed.

(** Reading the deck value of a cell: the position is the cell index or
    [global_cell[cell]], and it must be inside the deck data. *)
Lemma deck_value_Ok {A : Type} (gc : option (list Z)) (data : list A)
    (cell : nat) (x : A) :
  (deck_pos ← deck_position gc cell; v ← at_int data deck_pos; Ok v) = Ok x
  <-> exists deck_pos,
        match gc with
        | None => deck_pos = Z.of_nat cell
        | Some gc => gc !! cell = Some deck_pos
        end
        /\ 0 <= deck_pos /\ data !! Z.to_nat deck_pos = Some x.
Proof.
  split.
  - intros H. apply bind_Ok_inv in H as (pos & Hpos & H).
    apply bind_Ok_inv in H as (v & Hv & [= ->]).
    exists pos. unfold at_int in Hv. destruct (Z.ltb_spec pos 0); [discriminate|].
    apply at_index_Ok in Hv. split_and!; [|done|done].
    unfold deck_position in Hpos. destruct gc.
    + by apply at_index_Ok.
    + congruence.
  - intros (pos & Hpos & Hge & Hx).
    assert (deck_position gc cell = Ok pos) as ->.
    { unfold deck_position. destruct gc; [by apply at_index_Ok | congruence]. }
    cbn. unfold at_int. destruct (Z.ltb_spec pos 0); [lia|].
    apply at_index_Ok in Hx. by rewrite Hx.
Qed.

Lemma deck_value_no_throw {A : Type} (gc : option (list Z)) (data : list A)
    (cell : nat) (e : exception) :
  (deck_pos ← deck_position gc cell; v ← at_int data deck_pos; Ok v) <> Throw e.
Proof.
  unfold deck_position, at_int, at_index.
  destruct gc as [gc|]; cbn.
  - destruct (gc !! cell) as [pos|]; cbn; [|discriminate].
    destruct (pos <? 0); [discriminate|].
    destruct (data !! Z.to_nat pos); cbn; discriminate.
  - destruct (Z.of_nat cell <? 0); [discriminate|].
    destruct (data !! Z.to_nat (Z.of_nat cell)); cbn; discriminate.
Qed.

(** A loop that assigns [v[c] = f(c)] throws only what [f] throws. *)
Lemma fill_loop_no_throw {A : Type} (f : nat -> outcome A)
    (body : nat -> list A -> outcome (list A)) (e : exception) :
  (forall c v, body c v = f c ≫= assign_index v c) ->
  (forall c, f c <> Throw e) ->
  forall (l : list nat) (v0 : list A), for_loop body l v0 <> Throw e.
Proof.
  intros Hbody Hf. induction l as [|c l IH]; intros v0; cbn; [discriminate|].
  rewrite Hbody. destruct (f c) as [x| |] eqn:Hx; cbn.
  - unfold assign_index. destruct (decide _); cbn; [apply IH | discriminate].
  - intros [= ->]. by apply (Hf c).
  - discriminate.
Qed.

(** X10: [equilnum] never throws, and it returns exactly when, under EQLNUM,
    the deck position of every cell (the cell index, or [global_cell[cell]])
    is inside the EQLNUM data; a position outside is undefined behaviour. *)
Theorem equilnum_returns_iff (deck : Deck) (eclipseState : EclipseState)
    (G : UnstructuredGrid) :
  ((exists eqlnum, equilnum deck eclipseState G = Ok eqlnum)
   <-> (EQLNUM deck = true ->
        forall cell, (cell < number_of_cells G)%nat ->
          exists deck_pos v,
            match global_cell G with
            | None => deck_pos = Z.of_nat cell
            | Some gc => gc !! cell = Some deck_pos
            end
            /\ 0 <= deck_pos
            /\ EQLNUM_data eclipseState !! Z.to_nat deck_pos = Some v))
  /\ (forall e, equilnum deck eclipseState G <> Throw e)
  /\ ((forall eqlnum, equilnum deck eclipseState G <> Ok eqlnum)
      -> equilnum deck eclipseState G = Undefined).
Proof.
  assert (Hnothrow : forall e, equilnum deck eclipseState G <> Throw e).
  { intros e. unfold equilnum. destruct (EQLNUM deck); [|discriminate].
    cbn zeta.
    apply (fill_loop_no_throw
             (fun c => deck_pos ← deck_position (global_cell G) c;
                       x ← at_int (EQLNUM_data eclipseState) deck_pos;
                       Ok (int_sub x 1))).
    - intros c v. apply equilnum_body.
    - intros c. unfold deck_position, at_int, at_index.
      destruct (global_cell G) as [gc|]; cbn.
      + destruct (gc !! c) as [pos|]; cbn; [|discriminate].
        destruct (pos <? 0); [discriminate|].
        destruct (EQLNUM_data eclipseState !! Z.to_nat pos); cbn; discriminate.
      + destruct (Z.of_nat c <? 0); [discriminate|].
        destruct (EQLNUM_data eclipseState !! Z.to_nat (Z.of_nat c)); cbn;
          discriminate. }
  split_and!; [|done|].
  - split.
    + intros [eqlnum H] Hflag cell Hcell. unfold equilnum in H.
      rewrite Hflag in H. cbn zeta in H.
      eapply fill_loop_Ok in H as (_ & Hin & _); [|intros c v; apply equilnum_body].
      destruct (Hin cell) as (x & Hx & _); [lia|].
      apply bind_Ok_inv in Hx as (pos & Hpos & Hx).
      apply bind_Ok_inv in Hx as (v & Hv & _).
      assert (Hval : (deck_pos ← deck_position (global_cell G) cell;
                      v ← at_int (EQLNUM_data eclipseState) deck_pos; Ok v) = Ok v).
      { rewrite Hpos. cbn. by rewrite Hv. }
      apply deck_value_Ok in Hval as (pos' & ? & ? & ?). by exists pos', v.
    + intros H. apply equilnum_returns. intros Hflag cell Hcell.
      destruct (H Hflag cell Hcell) as (pos & v & Hpos & Hge & Hv).
      assert (Hval : (deck_pos ← deck_position (global_cell G) cell;
                      v ← at_int (EQLNUM_data eclipseState) deck_pos; Ok v) = Ok v).
      { apply deck_value_Ok. by exists pos. }
      apply bind_Ok_inv in Hval as (pos' & Hpos' & Hval).
      apply bind_Ok_inv in Hval as (v' & Hv' & _). by exists pos', v'.
  - intros Hnot. destruct (equilnum deck eclipseState G) as [l|e|] eqn:E;
      [by destruct (Hnot l) | by destruct (Hnothrow e) | done].
Qed.

Lemma read_swat_init_body (gc : option (list Z)) (data : list float) (c : nat)
    (v : list float) :
  (deck_pos ← deck_position gc c; x ← at_int data deck_pos; assign_index v c x)
  = (deck_pos ← deck_position gc c; x ← at_int data deck_pos; Ok x)
      ≫= assign_index v c.
Proof.
  destruct (deck_position gc c); cbn; [|done|done].
  destruct (at_int data _); done.
Qed.

(** X11: in a constructed [InitialStateComputer], under SWATINIT the
    prescribed water saturation has one entry per cell, the SWATINIT value at
    the cell's deck position (the cell index, or [global_cell[cell]]); without
    SWATINIT it is empty. *)
Theorem constructed_swat_init (props : BlackoilPropertiesInterface)
    (deck : Deck) (eclipseState : EclipseState) (G : UnstructuredGrid)
    (grav : float) (self : t) :
  construct props deck eclipseState G grav = (Ok tt, self) ->
  if SWATINIT deck then
    length (swat_init_ self) = number_of_cells G
    /\ forall cell, (cell < number_of_cells G)%nat ->
         exists deck_pos v,
           match global_cell G with
           | None => deck_pos = Z.of_nat cell
           | Some gc => gc !! cell = Some deck_pos
           end
           /\ 0 <= deck_pos
           /\ SWATINIT_data eclipseState !! Z.to_nat deck_pos = Some v
           /\ swat_init_ self !! cell = Some v
  else swat_init_ self = [].
Proof.
  intros H.
  apply constructor_Ok_inv in H
    as (rec & eqlnum & rs_funcs & rv_funcs & swat & _ & _ & _ & _ & Hswat & H).
  apply calcPressSatRsRv_frame in H as (_ & _ & ->). cbn.
  unfold read_swat_init in Hswat. destruct (SWATINIT deck).
  - cbn zeta in Hswat.
    eapply fill_loop_Ok in Hswat as (Hlen & Hin & _);
      [|intros c v; apply read_swat_init_body].
    rewrite length_resize in Hlen. split; [done|].
    intros cell Hcell. destruct (Hin cell) as (x & Hx & Hlk); [lia|].
    apply deck_value_Ok in Hx as (pos & ? & ? & ?). by exists pos, x.
  - by injection Hswat as <-.
Qed.

(** *** [copyFromRegion] *)

Lemma copyFromRegion_length (cells : list nat) (source destination d' : Vec) :
  copyFromRegion source cells destination = Ok d' ->
  length d' = length destination.
Proof.
  revert source destination.
  induction cells as [|c cells IH]; intros source d; cbn.
  - intros H. by simplify_eq.
  - destruct source as [|x source]; [discriminate|]. intros H.
    apply bind_Ok_inv in H as (d1 & H1 & H).
    apply assign_index_Ok in H1 as [Hlt ->].
    rewrite (IH _ _ H). apply length_insert.
Qed.

(** X12: [copyFromRegion] never throws, and it returns exactly when the
    source has at least as many values as the range has cells and every cell
    of the range is an index of the destination; otherwise it reads past the
    source or writes outside the destination. *)
Theorem copyFromRegion_returns_iff (source : Vec) (cells : list nat)
    (destination : Vec) :
  ((exists d', copyFromRegion source cells destination = Ok d')
   <-> (length cells <= length source)%nat
       /\ forall c, c ∈ cells -> (c < length destination)%nat)
  /\ forall e, copyFromRegion source cells destination <> Throw e.
Proof.
  revert source destination.
  induction cells as [|c cells IH]; intros source d; cbn.
  - split; [|discriminate]. split.
    + intros _. split; [lia|]. intros c Hc. by apply elem_of_nil in Hc.
    + eauto.
  - destruct source as [|x source]; cbn.
    { split; [|discriminate]. split; [by intros [? ?] | intros [? _]; lia]. }
    unfold assign_index. destruct (decide (c < length d)%nat) as [Hlt|Hge]; cbn.
    + destruct (IH source (<[c := x]> d)) as [Hiff Hnothrow].
      rewrite length_insert in Hiff. split; [|done].
      rewrite Hiff. split.
      * intros [Hlen Hall]. split; [lia|]. intros c' Hc'.
        apply elem_of_cons in Hc' as [->|Hc']; [done | by apply Hall].
      * intros [Hlen Hall]. split; [lia|]. intros c' Hc'. apply Hall. by right.
    + split; [|discriminate]. split; [by intros [? ?]|].
      intros [_ Hall]. exfalso. apply Hge, Hall. left.
Qed.

(** The value a cell of the range ends with is the one written last. *)
Lemma copyFromRegion_last (cells : list nat) (source destination d' : Vec)
    (k c : nat) :
  copyFromRegion source cells destination = Ok d' ->
  cells !! k = Some c ->
  (forall k', (k < k')%nat -> cells !! k' <> Some c) ->
  exists x, source !! k = Some x /\ d' !! c = Some x.
Proof.
  revert source destination k.
  induction cells as [|c0 cells IH]; intros source d k H Hk Hlast.
  - by rewrite lookup_nil in Hk.
  - cbn in H. destruct source as [|x source]; [discriminate|].
    apply bind_Ok_inv in H as (d1 & H1 & H).
    apply assign_index_Ok in H1 as [Hlt ->].
    destruct k as [|k]; cbn in Hk.
    + injection Hk as <-. exists x. split; [done|].
      assert (Hnotin : c0 ∉ cells).
      { intros Hin. apply list_elem_of_lookup in Hin as [k' Hk'].
        apply (Hlast (S k')); [lia | done]. }
      rewrite (copyFromRegion_other _ _ _ _ _ H Hnotin).
      by apply list_lookup_insert_eq.
    + apply (IH source _ k H Hk).
      intros k' Hk' Hc. apply (Hlast (S k')); [lia | done].
Qed.

(** X13: after [copyFromRegion], the destination has its length unchanged, a
    cell outside the range has its value unchanged, and a cell of the range
    holds the source value at the last position at which the cell occurs in
    the range (its only position when the range has no duplicates). *)
Theorem copyFromRegion_last_write (source : Vec) (cells : list nat)
    (destination d' : Vec) :
  copyFromRegion source cells destination = Ok d' ->
  length d' = length destination
  /\ (forall c, c ∉ cells -> d' !! c = destination !! c)
  /\ (forall k c,
        cells !! k = Some c ->
        (forall k', (k < k')%nat -> cells !! k' <> Some c) ->
        exists x, source !! k = Some x /\ d' !! c = Some x).
Proof.
  intros H. split_and!.
  - by eapply copyFromRegion_length.
  - intros c Hc. by eapply copyFromRegion_other.
  - intros k c. by eapply copyFromRegion_last.
Qed.

(** A copy returns when the source is long enough and the cells are indices
    of the destination. *)
Lemma copyFromRegion_returns (cells : list nat) (source destination : Vec) :
  (length cells <= length source)%nat ->
  (forall c, c ∈ cells -> (c < length destination)%nat) ->
  exists d', copyFromRegion source cells destination = Ok d'.
Proof.
  revert source destination.
  induction cells as [|c cells IH]; intros source d Hlen Hall; cbn; [eauto|].
  destruct source as [|x source]; [cbn in Hlen; lia|].
  unfold assign_index. destruct (decide (c < length d)%nat) as [Hlt|Hge]; cbn.
  - apply IH; [cbn in Hlen; lia|].
    intros c' Hc'. rewrite length_insert. apply Hall. by right.
  - exfalso. apply Hge, Hall. left.
Qed.

(** What a returning copy needed. *)
Lemma copyFromRegion_Ok_bounds (cells : list nat) (source destination d' : Vec) :
  copyFromRegion source cells destination = Ok d' ->
  (length cells <= length source)%nat
  /\ forall c, c ∈ cells -> (c < length destination)%nat.
Proof.
  revert source destination.
  induction cells as [|c cells IH]; intros source d; cbn.
  - intros _. split; [lia|]. intros c Hc. by apply elem_of_nil in Hc.
  - destruct source as [|x source]; [discriminate|]. intros H.
    apply bind_Ok_inv in H as (d1 & H1 & H).
    apply assign_index_Ok in H1 as [Hlt ->].
    destruct (IH _ _ H) as [Hlen Hall]. rewrite length_insert in Hall.
    split; [cbn; lia|]. intros c' Hc'.
    apply elem_of_cons in Hc' as [->|Hc']; [done | by apply Hall].
Qed.

(** Every cell of a range has a last position in it. *)
Lemma last_position (cells : list nat) (c : nat) :
  c ∈ cells ->
  exists k, cells !! k = Some c /\ forall k', (k < k')%nat -> cells !! k' <> Some c.
Proof.
  induction cells as [|c0 cells IH]; intros Hc; [by apply elem_of_nil in Hc|].
  destruct (decide (c ∈ cells)) as [Hin|Hnotin].
  - destruct (IH Hin) as (k & Hk & Hlast). exists (S k). split; [done|].
    intros [|k'] Hk'; [lia|]. cbn. apply Hlast. lia.
  - apply elem_of_cons in Hc as [->|Hc]; [|contradiction].
    exists 0%nat. split; [done|]. intros [|k'] Hk'; [lia|]. cbn.
    intros Hlk. apply Hnotin. apply list_elem_of_lookup. eauto.
Qed.

(** X18: two copies into ranges that share no cell can be done in either
    order: if copying the first region's values and then the second's
    returns, so does copying the second's and then the first's, and the
    destination is the same. *)
Theorem copyFromRegion_disjoint_commute (source1 source2 : Vec)
    (cells1 cells2 : list nat) (destination d1 d12 : Vec) :
  copyFromRegion source1 cells1 destination = Ok d1 ->
  copyFromRegion source2 cells2 d1 = Ok d12 ->
  (forall c, c ∈ cells1 -> c ∉ cells2) ->
  exists d2,
    copyFromRegion source2 cells2 destination = Ok d2
    /\ copyFromRegion source1 cells1 d2 = Ok d12.
Proof.
  intros H1 H12 Hdisj.
  destruct (copyFromRegion_Ok_bounds _ _ _ _ H1) as [Hlen1 Hall1].
  destruct (copyFromRegion_Ok_bounds _ _ _ _ H12) as [Hlen2 Hall2].
  rewrite (copyFromRegion_length _ _ _ _ H1) in Hall2.
  destruct (copyFromRegion_returns cells2 source2 destination Hlen2 Hall2)
    as [d2 H2].
  destruct (copyFromRegion_returns cells1 source1 d2) as [d21 H21]; [done| |].
  { intros c Hc. rewrite (copyFromRegion_length _ _ _ _ H2). by apply Hall1. }
  exists d2. split; [done|]. rewrite H21. f_equal.
  apply list_eq. intros c.
  destruct (decide (c ∈ cells1)) as [Hin1|Hout1].
  - pose proof (Hdisj c Hin1) as Hout2.
    destruct (last_position _ _ Hin1) as (k & Hk & Hlast).
    destruct (copyFromRegion_last _ _ _ _ _ _ H21 Hk Hlast) as (x & Hx & ->).
    destruct (copyFromRegion_last _ _ _ _ _ _ H1 Hk Hlast) as (x' & Hx' & Hd1).
    rewrite (copyFromRegion_other _ _ _ _ _ H12 Hout2). congruence.
  - rewrite (copyFromRegion_other _ _ _ _ _ H21 Hout1).
    destruct (decide (c ∈ cells2)) as [Hin2|Hout2].
    + destruct (last_position _ _ Hin2) as (k & Hk & Hlast).
      destruct (copyFromRegion_last _ _ _ _ _ _ H2 Hk Hlast) as (x & Hx & ->).
      destruct (copyFromRegion_last _ _ _ _ _ _ H12 Hk Hlast) as (x' & Hx' & ->).
      congruence.
    + rewrite (copyFromRegion_other _ _ _ _ _ H2 Hout2).
      rewrite (copyFromRegion_other _ _ _ _ _ H12 Hout2).
      by rewrite (copyFromRegion_other _ _ _ _ _ H1 Hout1).
Qed.

(** *** The sizes of the members *)

Lemma copy_phase_sizes (n np : nat) (press sat : PVec) (cells : list nat) (p : nat)
    (self self' : t) :
  copy_phase press sat cells p self = Ok self' ->
  length (pp_ self) = np /\ length (sat_ self) = np
  /\ Forall (fun row => length row = n) (pp_ self)
  /\ Forall (fun row => length row = n) (sat_ self)
  /\ length (rs_ self) = n /\ length (rv_ self) = n ->
  length (pp_ self') = np /\ length (sat_ self') = np
  /\ Forall (fun row => length row = n) (pp_ self')
  /\ Forall (fun row => length row = n) (sat_ self')
  /\ length (rs_ self') = n /\ length (rv_ self') = n.
Proof.
  intros H (Hpp & Hsat & Hrows & Hsrows & Hrs & Hrv).
  apply copy_phase_Ok_inv in H
    as (press_p & pp_p & pp_p' & sat_p & sat_p_ & sat_p' & H).
  destruct H as (_ & Hlk & Hcp & _ & Hslk & Hcs & ->). cbn.
  rewrite !length_insert. split_and!; try done.
  - apply Forall_insert; [done|].
    rewrite (copyFromRegion_length _ _ _ _ Hcp).
    by apply (Forall_lookup_1 _ _ _ _ Hrows Hlk).
  - apply Forall_insert; [done|].
    rewrite (copyFromRegion_length _ _ _ _ Hcs).
    by apply (Forall_lookup_1 _ _ _ _ Hsrows Hslk).
Qed.

Lemma region_step_sizes (n : nat) (reg : RegionMapping.t) (rec : list EquilRecord)
    (props : BlackoilPropertiesInterface) (G : UnstructuredGrid) (grav : float)
    (r : nat) (self self' : t) :
  step reg rec props G grav r self = Ok self' ->
  length (pp_ self) = numPhases props /\ length (sat_ self) = numPhases props
  /\ Forall (fun row => length row = n) (pp_ self)
  /\ Forall (fun row => length row = n) (sat_ self)
  /\ length (rs_ self) = n /\ length (rv_ self) = n ->
  length (pp_ self') = numPhases props /\ length (sat_ self') = numPhases props
  /\ Forall (fun row => length row = n) (pp_ self')
  /\ Forall (fun row => length row = n) (sat_ self')
  /\ length (rs_ self') = n /\ length (rv_ self') = n.
Proof.
  intros H Hsizes.
  apply region_step_Ok_inv in H as (v & self1 & _ & H1 & H).
  assert (Hsizes1 :
    length (pp_ self1) = numPhases props /\ length (sat_ self1) = numPhases props
    /\ Forall (fun row => length row = n) (pp_ self1)
    /\ Forall (fun row => length row = n) (sat_ self1)
    /\ length (rs_ self1) = n /\ length (rv_ self1) = n).
  { revert H1.
    apply (for_loop_invariant
             (fun s =>
                length (pp_ s) = numPhases props /\ length (sat_ s) = numPhases props
                /\ Forall (fun row => length row = n) (pp_ s)
                /\ Forall (fun row => length row = n) (sat_ s)
                /\ length (rs_ s) = n /\ length (rv_ s) = n)); [|done].
    intros p s s' _ Hs Hp. by eapply copy_phase_sizes. }
  destruct (phase_used _ Liquid && phase_used _ Vapour); [|by subst].
  destruct H as (? & ? & ? & ? & ? & ? & ? & ? & rs_' & rv_' & H).
  destruct H as (_ & _ & _ & _ & E5 & E6 & ->). cbn.
  destruct Hsizes as (_ & _ & _ & _ & Hrs & Hrv).
  destruct Hsizes1 as (? & ? & ? & ? & _ & _).
  rewrite (copyFromRegion_length _ _ _ _ E5), (copyFromRegion_length _ _ _ _ E6).
  by split_and!.
Qed.

(** X14: a constructed [InitialStateComputer] has one pressure row and one
    saturation row per phase, every row with one entry per grid cell, Rs and
    Rv with one entry per grid cell, and one Rs function and one Rv function
    per EQUIL record. *)
Theorem constructed_sizes (props : BlackoilPropertiesInterface)
    (deck : Deck) (eclipseState : EclipseState) (G : UnstructuredGrid)
    (grav : float) (rec : list EquilRecord) (self : t) :
  construct props deck eclipseState G grav = (Ok tt, self) ->
  getEquil deck = Ok rec ->
  length (press self) = numPhases props
  /\ length (saturation self) = numPhases props
  /\ (forall row, row ∈ press self -> length row = number_of_cells G)
  /\ (forall row, row ∈ saturation self -> length row = number_of_cells G)
  /\ length (rs self) = number_of_cells G
  /\ length (rv self) = number_of_cells G
  /\ length (rs_func_ self) = length rec
  /\ length (rv_func_ self) = length rec.
Proof.
  intros H Hrec.
  apply constructor_Ok_inv in H
    as (rec' & eqlnum & rs_funcs & rv_funcs & swat & Hrec' & _ & Hrs & Hrv & _ & H).
  assert (rec' = rec) as -> by congruence.
  pose proof H as Hf. apply calcPressSatRsRv_frame in Hf as (Hf_rs & Hf_rv & _).
  cbn in Hf_rs, Hf_rv.
  assert (Hlen_rs : length rs_funcs = length rec).
  { unfold create_rs_functions in Hrs. destruct (DISGAS deck);
      apply for_each_Ok_lookup in Hrs as [Hlen _];
      by rewrite length_seq in Hlen. }
  assert (Hlen_rv : length rv_funcs = length rec).
  { unfold create_rv_functions in Hrv. destruct (VAPOIL deck);
      apply for_each_Ok_lookup in Hrv as [Hlen _];
      by rewrite length_seq in Hlen. }
  assert (Hsizes :
    length (pp_ self) = numPhases props /\ length (sat_ self) = numPhases props
    /\ Forall (fun row => length row = number_of_cells G) (pp_ self)
    /\ Forall (fun row => length row = number_of_cells G) (sat_ self)
    /\ length (rs_ self) = number_of_cells G
    /\ length (rv_ self) = number_of_cells G).
  { revert H. unfold calcPressSatRsRv. cbn zeta.
    apply (for_loop_invariant
             (fun s =>
                length (pp_ s) = numPhases props /\ length (sat_ s) = numPhases props
                /\ Forall (fun row => length row = number_of_cells G) (pp_ s)
                /\ Forall (fun row => length row = number_of_cells G) (sat_ s)
                /\ length (rs_ s) = number_of_cells G
                /\ length (rv_ s) = number_of_cells G)).
    - intros r s s' _ Hs Hstep. by eapply region_step_sizes.
    - cbn. unfold zeros. rewrite !length_replicate.
      split_and!; try done; apply Forall_replicate, length_replicate. }
  destruct Hsizes as (Hpp & Hsat & Hrows & Hsrows & Hrs_len & Hrv_len).
  unfold press, saturation, rs, rv.
  split_and!; try done.
  - intros row Hrow. by apply (proj1 (list.Forall_forall _ _) Hrows).
  - intros row Hrow. by apply (proj1 (list.Forall_forall _ _) Hsrows).
  - by rewrite Hf_rs.
  - by rewrite Hf_rv.
Qed.

(** X15: whatever the phase usage, so also when Rs and Rv are computed, the
    cells of every region of a constructed [InitialStateComputer] hold, for
    every phase position below [numPhases], the pressure and the saturation
    computed for that region: the [k]-th cell of the region has the [k]-th
    value. *)
Theorem constructed_pressures_and_saturations (props : BlackoilPropertiesInterface)
    (deck : Deck) (eclipseState : EclipseState) (G : UnstructuredGrid)
    (grav : float) (rec : list EquilRecord) (eqlnum : list Z) (self : t)
    (r p k c : nat) :
  let reg := {| RegionMapping.region_of_cell := eqlnum |} in
  construct props deck eclipseState G grav = (Ok tt, self) ->
  getEquil deck = Ok rec ->
  equilnum deck eclipseState G = Ok eqlnum ->
  (r < RegionMapping.numRegions reg)%nat ->
  (p < numPhases props)%nat ->
  RegionMapping.cells reg r !! k = Some c ->
  exists v x y,
    values reg rec props G grav r self = Ok v
    /\ entry (region_press v) p k = Some x /\ entry (press self) p c = Some x
    /\ entry (region_sat v) p k = Some y /\ entry (saturation self) p c = Some y.
Proof.
  intros reg H Hrec Heqlnum Hr Hp Hk.
  apply constructor_Ok_inv in H
    as (rec' & eqlnum' & rs_funcs & rv_funcs & swat & Hrec' & Heqlnum' & _ & _ & _ & H).
  assert (rec' = rec) as -> by congruence.
  assert (eqlnum' = eqlnum) as -> by congruence.
  pose proof H as Hf. apply calcPressSatRsRv_frame in Hf.
  eapply calcPressSatRsRv_scatter in H as (v & Hv & Hcells); [|exact Hr].
  destruct (Hcells p k c Hp Hk) as (x & y & Hx).
  exists v, x, y. split; [|done].
  erewrite region_values_same; [exact Hv | exact Hf].
Qed.

(** *** Table indices beyond the tables *)

(** Region [i] with a positive wet-gas table index beyond the RVVD tables. *)
Lemma rv_func_of_region_no_such_table (props : BlackoilPropertiesInterface)
    (eqlmap : RegionMapping.t) (rvvdTables : list RvvdTable.t)
    (rec : list EquilRecord) (i cell : nat) (rec_i : EquilRecord) :
  deref_begin (RegionMapping.cells eqlmap i) = Ok cell ->
  rec !! i = Some rec_i ->
  Z.of_nat (length rvvdTables) < wet_gas_table_index rec_i <= INT_MAX ->
  rv_func_of_region props eqlmap rvvdTables rec i
  = Throw (rvvd_not_available (wet_gas_table_index rec_i)).
Proof.
  intros Hcell Hrec Ht. unfold rv_func_of_region, at_index, size_t, INT_MAX in *.
  rewrite Hcell, Hrec. cbn.
  destruct (Z.ltb_spec 0 (wet_gas_table_index rec_i)); [|lia].
  rewrite Z.mod_small by lia.
  destruct (Z.leb_spec (wet_gas_table_index rec_i) (Z.of_nat (length rvvdTables)));
    [lia|].
  by rewrite andb_false_r.
Qed.

(** X16: under DISGAS, a record whose live-oil table index is larger than
    the number of RSVD tables (any positive index when there is no table)
    makes the construction fail: it never returns, and creating the region's
    function throws the [std::runtime_error] "RSVD table t not available"
    naming that index.  The constructor leaves with a [std::runtime_error],
    the pressures, saturations, Rs and Rv still as initialised, when no
    region before has undefined behaviour; and with that very exception,
    [rs_func_] holding one function for each region before and nothing else
    assigned, when the regions before all get their function. *)
Theorem missing_RSVD_table_rejected (props : BlackoilPropertiesInterface)
    (deck : Deck) (eclipseState : EclipseState) (G : UnstructuredGrid)
    (grav : float) (rec : list EquilRecord) (eqlnum : list Z)
    (i : nat) (rec_i : EquilRecord) :
  let eqlmap := {| RegionMapping.region_of_cell := eqlnum |} in
  let rs_of := rs_func_of_region props eqlmap (getRsvdTables eclipseState) rec in
  getEquil deck = Ok rec ->
  equilnum deck eclipseState G = Ok eqlnum ->
  DISGAS deck = true ->
  rec !! i = Some rec_i ->
  Z.of_nat (length (getRsvdTables eclipseState)) < live_oil_table_index rec_i
    <= INT_MAX ->
  (forall self, construct props deck eclipseState G grav <> (Ok tt, self))
  /\ forall cell,
       deref_begin (RegionMapping.cells eqlmap i) = Ok cell ->
       rs_of i = Throw (rsvd_not_available (live_oil_table_index rec_i))
       /\ ((forall j, (j < i)%nat -> rs_of j <> Undefined) ->
           exists e self,
             construct props deck eclipseState G grav = (Throw e, self)
             /\ is_runtime_error e = true
             /\ press self = press (member_initialisers props G)
             /\ saturation self = saturation (member_initialisers props G)
             /\ rs self = rs (member_initialisers props G)
             /\ rv self = rv (member_initialisers props G))
       /\ ((forall j, (j < i)%nat -> exists f, rs_of j = Ok f) ->
           exists pushed,
             construct props deck eclipseState G grav
             = (Throw (rsvd_not_available (live_oil_table_index rec_i)),
                set_rs_func_ pushed (member_initialisers props G))
             /\ length pushed = i
             /\ (forall j f, (j < i)%nat -> rs_of j = Ok f ->
                   pushed !! j = Some f)).
Proof.
  intros eqlmap rs_of Hrec Heqlnum Hflag Hi Ht.
  assert (Hlt : (i < length rec)%nat) by (by eapply lookup_lt_Some).
  split.
  - intros self H.
    apply constructor_Ok_inv in H
      as (rec' & eqlnum' & rs_funcs & ? & ? & Hrec' & Heqlnum' & Hrs & _).
    assert (rec' = rec) as -> by congruence.
    assert (eqlnum' = eqlnum) as -> by congruence.
    unfold create_rs_functions in Hrs. rewrite Hflag in Hrs. cbn zeta in Hrs.
    apply for_each_Ok_lookup in Hrs as [_ Hrs].
    destruct (Hrs i i) as (b & Hb & _); [by apply lookup_seq_lt|].
    destruct (deref_begin (RegionMapping.cells eqlmap i)) as [cell| |] eqn:Hcell.
    + rewrite (rs_func_of_region_no_such_table _ _ _ _ _ _ _ Hcell Hi Ht) in Hb.
      discriminate Hb.
    + unfold rs_func_of_region in Hb. fold eqlmap in Hb.
      rewrite Hcell in Hb. discriminate Hb.
    + unfold rs_func_of_region in Hb. fold eqlmap in Hb.
      rewrite Hcell in Hb. discriminate Hb.
  - intros cell Hcell.
    pose proof (rs_func_of_region_no_such_table props _ _ _ _ _ _ Hcell Hi Ht)
      as Hthrow.
    split; [exact Hthrow|]. split.
    + intros Hdef.
      destruct (for_each_defined_throws rs_of
                  (seq 0 i) (seq (S i) (length rec - S i)) i _ Hthrow)
        as (e & x & _ & Hx & Hloop).
      { intros j Hj. apply Hdef. apply elem_of_seq in Hj. lia. }
      rewrite <- (seq_split_at _ _ Hlt) in Hloop. eexists e, _. split.
      * eapply constructor_throws_rs; [exact Hrec | exact Heqlnum |].
        unfold create_rs_functions. by rewrite Hflag.
      * split; [by eapply rs_func_of_region_throws_runtime_error|].
        by split_and!.
    + intros Hbefore.
      by eapply (constructor_throws_rs_at _ _ _ _ _ _ _ _ _ _ _ rec eqlnum i).
Qed.

(** X17: under VAPOIL, a record whose wet-gas table index is larger than the
    number of RVVD tables makes the construction fail: it never returns,
    creating the region's function throws the [std::runtime_error] "RVVD
    table t not available" naming that index, and the constructor leaves
    with a [std::runtime_error] when neither the creation of the Rs
    functions nor a region before has undefined behaviour. *)
Theorem missing_RVVD_table_rejected (props : BlackoilPropertiesInterface)
    (deck : Deck) (eclipseState : EclipseState) (G : UnstructuredGrid)
    (grav : float) (rec : list EquilRecord) (eqlnum : list Z)
    (i : nat) (rec_i : EquilRecord) :
  let eqlmap := {| RegionMapping.region_of_cell := eqlnum |} in
  let rv_of := rv_func_of_region props eqlmap (getRvvdTables eclipseState) rec in
  getEquil deck = Ok rec ->
  equilnum deck eclipseState G = Ok eqlnum ->
  VAPOIL deck = true ->
  rec !! i = Some rec_i ->
  Z.of_nat (length (getRvvdTables eclipseState)) < wet_gas_table_index rec_i
    <= INT_MAX ->
  (forall self, construct props deck eclipseState G grav <> (Ok tt, self))
  /\ forall cell,
       deref_begin (RegionMapping.cells eqlmap i) = Ok cell ->
       rv_of i = Throw (rvvd_not_available (wet_gas_table_index rec_i))
       /\ (create_rs_functions props deck eclipseState eqlmap rec <> Undefined ->
           (forall j, (j < i)%nat -> rv_of j <> Undefined) ->
           exists e self,
             construct props deck eclipseState G grav = (Throw e, self)
             /\ is_runtime_error e = true).
Proof.
  intros eqlmap rv_of Hrec Heqlnum Hflag Hi Ht.
  assert (Hlt : (i < length rec)%nat) by (by eapply lookup_lt_Some).
  split.
  - intros self H.
    apply constructor_Ok_inv in H
      as (rec' & eqlnum' & ? & rv_funcs & ? & Hrec' & Heqlnum' & _ & Hrv & _).
    assert (rec' = rec) as -> by congruence.
    assert (eqlnum' = eqlnum) as -> by congruence.
    unfold create_rv_functions in Hrv. rewrite Hflag in Hrv. cbn zeta in Hrv.
    apply for_each_Ok_lookup in Hrv as [_ Hrv].
    destruct (Hrv i i) as (b & Hb & _); [by apply lookup_seq_lt|].
    destruct (deref_begin (RegionMapping.cells eqlmap i)) as [cell| |] eqn:Hcell.
    + rewrite (rv_func_of_region_no_such_table _ _ _ _ _ _ _ Hcell Hi Ht) in Hb.
      discriminate Hb.
    + unfold rv_func_of_region in Hb. fold eqlmap in Hb.
      rewrite Hcell in Hb. discriminate Hb.
    + unfold rv_func_of_region in Hb. fold eqlmap in Hb.
      rewrite Hcell in Hb. discriminate Hb.
  - intros cell Hcell.
    pose proof (rv_func_of_region_no_such_table props _ _ _ _ _ _ Hcell Hi Ht)
      as Hthrow.
    split; [exact Hthrow|]. intros Hrs Hdef.
    destruct (for_each_defined_throws rv_of
                (seq 0 i) (seq (S i) (length rec - S i)) i _ Hthrow)
      as (e & x & _ & Hx & Hloop).
    { intros j Hj. apply Hdef. apply elem_of_seq in Hj. lia. }
    rewrite <- (seq_split_at _ _ Hlt) in Hloop.
    destruct (create_rs_functions props deck eclipseState eqlmap rec)
      as [rs_funcs|e_rs|] eqn:Hcreate; [| |done].
    + eexists e, _. split.
      * eapply constructor_throws_rv; [exact Hrec | exact Heqlnum | exact Hcreate |].
        unfold create_rv_functions. by rewrite Hflag.
      * by eapply rv_func_of_region_throws_runtime_error.
    + eexists e_rs, _. split.
      * by eapply constructor_throws_rs.
      * by eapply create_rs_functions_throws_runtime_error.
Qed.

(** *** Regions and records *)

(** Every turn of a loop that returns has returned. *)
Lemma for_loop_Ok_each {A S : Type} (body : A -> S -> outcome S) (l : list A)
    (s s' : S) (a : A) :
  for_loop body l s = Ok s' -> a ∈ l -> exists s1 s2, body a s1 = Ok s2.
Proof.
  revert s. induction l as [|x l IH]; intros s H Ha; [by apply elem_of_nil in Ha|].
  cbn in H. apply bind_Ok_inv in H as (s1 & H1 & H).
  apply elem_of_cons in Ha as [->|Ha]; [eauto | by eapply IH].
Qed.

Lemma foldr_max_ge (l : list Z) (z : Z) : z ∈ l -> z <= foldr Z.max (-1) l.
Proof.
  induction l as [|x l IH]; intros Hz; [by apply elem_of_nil in Hz|].
  cbn. apply elem_of_cons in Hz as [->|Hz]; [lia|]. specialize (IH Hz). lia.
Qed.

(** X19: the construction returns only if every region a cell is assigned
    to has an EQUIL record: a cell whose region id is not negative has a
    region id below the number of records, [calcPressSatRsRv] reading
    [rec[r]] for every region [r] of the mapping. *)
Theorem constructed_regions_have_records (props : BlackoilPropertiesInterface)
    (deck : Deck) (eclipseState : EclipseState) (G : UnstructuredGrid)
    (grav : float) (rec : list EquilRecord) (eqlnum : list Z) (self : t)
    (cell : nat) (region : Z) :
  construct props deck eclipseState G grav = (Ok tt, self) ->
  getEquil deck = Ok rec ->
  equilnum deck eclipseState G = Ok eqlnum ->
  eqlnum !! cell = Some region ->
  0 <= region ->
  region < Z.of_nat (length rec).
Proof.
  intros H Hrec Heqlnum Hcell Hge.
  apply constructor_Ok_inv in H
    as (rec' & eqlnum' & rs_funcs & rv_funcs & swat & Hrec' & Heqlnum' & _ & _ & _ & H).
  assert (rec' = rec) as -> by congruence.
  assert (eqlnum' = eqlnum) as -> by congruence.
  unfold calcPressSatRsRv in H. cbn zeta in H.
  assert (Hin : Z.to_nat region
                ∈ seq 0 (RegionMapping.numRegions
                           {| RegionMapping.region_of_cell := eqlnum |})).
  { apply elem_of_seq. unfold RegionMapping.numRegions. cbn.
    assert (region <= foldr Z.max (-1) eqlnum).
    { apply foldr_max_ge. apply list_elem_of_lookup. eauto. }
    lia. }
  destruct (for_loop_Ok_each _ _ _ _ _ H Hin) as (s1 & s2 & Hstep).
  apply region_step_Ok_inv in Hstep as (v & _ & Hv & _).
  unfold region_values in Hv.
  apply bind_Ok_inv in Hv as (? & _ & Hv).
  apply bind_Ok_inv in Hv as (rec_r & Hrec_r & _).
  apply at_index_Ok, lookup_lt_Some in Hrec_r. lia.
Qed.

(** *** Grids whose cells are the deck's cells *)

(** Loops whose bodies agree on the items run through agree. *)
Lemma for_loop_ext {A S : Type} (body1 body2 : A -> S -> outcome S) (l : list A)
    (s : S) :
  (forall a s', a ∈ l -> body1 a s' = body2 a s') ->
  for_loop body1 l s = for_loop body2 l s.
Proof.
  revert s. induction l as [|a l IH]; intros s H; cbn; [done|].
  rewrite H by left. destruct (body2 a s) as [s1| |]; cbn; [|done|done].
  apply IH. intros x s' Hx. apply H. by right.
Qed.

(** With the identity as [global_cell], the deck position of a cell is the
    cell. *)
Lemma deck_position_identity (n cell : nat) :
  (cell < n)%nat ->
  deck_position (Some (Z.of_nat <$> seq 0 n)) cell = deck_position None cell.
Proof.
  intros H. unfold deck_position, at_index.
  by rewrite list_lookup_fmap, lookup_seq_lt.
Qed.

(** X20: a grid whose [global_cell] is the identity (cell [c] at deck
    position [c]) gets the same region ids from [equilnum], and the same
    prescribed water saturation from the SWATINIT data, as a grid of the same
    size without [global_cell]. *)
Theorem identity_global_cell (deck : Deck) (eclipseState : EclipseState)
    (G G' : UnstructuredGrid) (swat_init_0 : Vec) :
  number_of_cells G' = number_of_cells G ->
  global_cell G = None ->
  global_cell G' = Some (Z.of_nat <$> seq 0 (number_of_cells G)) ->
  equilnum deck eclipseState G' = equilnum deck eclipseState G
  /\ read_swat_init deck eclipseState G' swat_init_0
     = read_swat_init deck eclipseState G swat_init_0.
Proof.
  intros Hn Hgc Hgc'. unfold equilnum, read_swat_init.
  rewrite Hn, Hgc, Hgc'. split.
  - destruct (EQLNUM deck); [|done]. cbn zeta.
    apply for_loop_ext. intros cell v Hcell. apply elem_of_seq in Hcell.
    rewrite deck_position_identity by lia. done.
  - destruct (SWATINIT deck); [|done]. cbn zeta.
    apply for_loop_ext. intros cell v Hcell. apply elem_of_seq in Hcell.
    rewrite deck_position_identity by lia. done.
Qed.

End EquilFurther.

Section EquilFurtherWitnesses.

Import Equil Equil.InitialStateComputer Examples.

(** A deck without EQUIL. *)
Lemma missing_EQUIL_rejected_witness :
  EQUIL deck_no_equil = None
  /\ getEquil deck_no_equil = Throw no_equil_data
  /\ is_domain_error no_equil_data = true
  /\ constructor0 props3 deck_no_equil eclipse_state grid2 gravity
     = (Throw no_equil_data, member_initialisers props3 grid2).
Proof.
  split; [reflexivity|].
  apply (missing_EQUIL_rejected phasePressures0 temperature0 phaseSaturations0
           satRs0 satRv0 linearInterpolation0
           props3 deck_no_equil eclipse_state grid2 gravity).
  reflexivity.
Defined.

(** The record of the deck with datum 1000 and gas-oil contact 990. *)
Lemma getEquil_records_witness :
  getEquil deck_off_contact = Ok [record_off_contact]
  /\ exists eql,
      EQUIL deck_off_contact = Some eql
      /\ length [record_off_contact] = EquilWrapper.numRegions eql
      /\ forall r, (r < EquilWrapper.numRegions eql)%nat ->
           exists rec_r,
             [record_off_contact] !! r = Some rec_r
             /\ depth (main rec_r) = EquilWrapper.datumDepth eql r
             /\ Equil.press (main rec_r) = EquilWrapper.datumDepthPressure eql r
             /\ depth (woc rec_r) = EquilWrapper.waterOilContactDepth eql r
             /\ Equil.press (woc rec_r)
                = EquilWrapper.waterOilContactCapillaryPressure eql r
             /\ depth (goc rec_r) = EquilWrapper.gasOilContactDepth eql r
             /\ Equil.press (goc rec_r)
                = EquilWrapper.gasOilContactCapillaryPressure eql r
             /\ live_oil_table_index rec_r = EquilWrapper.liveOilInitProceedure eql r
             /\ wet_gas_table_index rec_r = EquilWrapper.wetGasInitProceedure eql r
             /\ N rec_r = EquilWrapper.initializationTargetAccuracy eql r
             /\ N rec_r = 0.
Proof.
  split; [reflexivity|].
  apply (getEquil_records deck_off_contact [record_off_contact]).
  reflexivity.
Defined.

(** SWATINIT 0.2 and 0.3 in deck order, the grid listing the deck cells in
    the opposite order: cell 0 gets 0.3 and cell 1 gets 0.2. *)
Lemma constructed_swat_init_witness :
  constructor0 props3 deck_swatinit eclipse_state_swatinit grid2_swapped gravity
  = (Ok tt, computer_swatinit)
  /\ swat_init_ computer_swatinit = [0.3; 0.2]%float
  /\ length (swat_init_ computer_swatinit) = 2%nat
  /\ forall cell, (cell < 2)%nat ->
       exists deck_pos v,
         [1; 0] !! cell = Some deck_pos
         /\ 0 <= deck_pos
         /\ [0.2; 0.3]%float !! Z.to_nat deck_pos = Some v
         /\ swat_init_ computer_swatinit !! cell = Some v.
Proof.
  split; [vm_compute; reflexivity|]. split; [vm_compute; reflexivity|].
  apply (constructed_swat_init phasePressures0 temperature0 phaseSaturations0
           satRs0 satRv0 linearInterpolation0
           props3 deck_swatinit eclipse_state_swatinit grid2_swapped gravity
           computer_swatinit).
  vm_compute. reflexivity.
Defined.

(** A range that names cell 2 twice: the later value stays. *)
Lemma copyFromRegion_last_write_witness :
  copyFromRegion [10; 20; 30]%float [2; 0; 2]%nat [0; 0; 0; 0]%float
  = Ok [20; 0; 30; 0]%float
  /\ length [20; 0; 30; 0]%float = length [0; 0; 0; 0]%float
  /\ (forall c, c ∉ [2; 0; 2]%nat ->
       [20; 0; 30; 0]%float !! c = [0; 0; 0; 0]%float !! c)
  /\ (forall k c,
        [2; 0; 2]%nat !! k = Some c ->
        (forall k', (k < k')%nat -> [2; 0; 2]%nat !! k' <> Some c) ->
        exists x, [10; 20; 30]%float !! k = Some x
                  /\ [20; 0; 30; 0]%float !! c = Some x).
Proof.
  split; [reflexivity|].
  apply (copyFromRegion_last_write [10; 20; 30]%float [2; 0; 2]%nat
           [0; 0; 0; 0]%float [20; 0; 30; 0]%float).
  reflexivity.
Defined.

(** Three phases, two cells, one record. *)
Lemma constructed_sizes_witness :
  constructor0 props3 deck_table_2 eclipse_state grid2 gravity
  = (Ok tt, computer_table_2)
  /\ length (press computer_table_2) = 3%nat
  /\ length (saturation computer_table_2) = 3%nat
  /\ (forall row, row ∈ press computer_table_2 -> length row = 2%nat)
  /\ (forall row, row ∈ saturation computer_table_2 -> length row = 2%nat)
  /\ length (rs computer_table_2) = 2%nat
  /\ length (rv computer_table_2) = 2%nat
  /\ length (rs_func_ computer_table_2) = 1%nat
  /\ length (rv_func_ computer_table_2) = 1%nat.
Proof.
  split; [vm_compute; reflexivity|].
  apply (constructed_sizes phasePressures0 temperature0 phaseSaturations0
           satRs0 satRv0 linearInterpolation0
           props3 deck_table_2 eclipse_state grid2 gravity [record_table_2]
           computer_table_2).
  - vm_compute. reflexivity.
  - reflexivity.
Defined.

(** Oil and gas both in use: gas pressure and saturation of cell 1. *)
Lemma constructed_pressures_and_saturations_witness :
  constructor0 props3 deck_table_2 eclipse_state grid2 gravity
  = (Ok tt, computer_table_2)
  /\ exists v x y,
      region_values phasePressures0 temperature0 phaseSaturations0
        {| RegionMapping.region_of_cell := [0; 0] |} [record_table_2]
        props3 grid2 gravity 0 computer_table_2 = Ok v
      /\ entry (region_press v) 2 1 = Some x
      /\ entry (press computer_table_2) 2 1 = Some x
      /\ entry (region_sat v) 2 1 = Some y
      /\ entry (saturation computer_table_2) 2 1 = Some y.
Proof.
  split; [vm_compute; reflexivity|].
  apply (constructed_pressures_and_saturations phasePressures0 temperature0
           phaseSaturations0 satRs0 satRv0 linearInterpolation0
           props3 deck_table_2 eclipse_state grid2 gravity [record_table_2]
           [0; 0] computer_table_2 0 2 1 1).
  - vm_compute. reflexivity.
  - reflexivity.
  - reflexivity.
  - vm_compute. lia.
  - cbn. lia.
  - reflexivity.
Defined.

(** Two regions and one RSVD table: table index 1 in the first region, 2 in
    the second.  The constructor leaves with the exception naming table 2,
    [rs_func_] holding the function of the first region. *)
Lemma missing_RSVD_table_rejected_witness :
  getEquil deck_second_table_missing = Ok [record_table_1; record_table_2_1]
  /\ equilnum deck_second_table_missing eclipse_state_two_regions grid2 = Ok [1; 0]
  /\ length (getRsvdTables eclipse_state_two_regions) = 1%nat
  /\ (forall self,
        constructor0 props3 deck_second_table_missing eclipse_state_two_regions
          grid2 gravity <> (Ok tt, self))
  /\ rs_func_of_region props3 {| RegionMapping.region_of_cell := [1; 0] |}
       (getRsvdTables eclipse_state_two_regions)
       [record_table_1; record_table_2_1] 1
     = Throw (rsvd_not_available 2)
  /\ exists pushed,
       constructor0 props3 deck_second_table_missing eclipse_state_two_regions
         grid2 gravity
       = (Throw (rsvd_not_available 2),
          set_rs_func_ pushed (member_initialisers props3 grid2))
       /\ length pushed = 1%nat
       /\ pushed !! 0%nat
          = Some (RsVD props3 1 (RsvdTable.getDepthColumn rsvd1)
                    (RsvdTable.getRsColumn rsvd1)).
Proof.
  split; [reflexivity|]. split; [reflexivity|]. split; [reflexivity|].
  destruct (missing_RSVD_table_rejected phasePressures0 temperature0
              phaseSaturations0 satRs0 satRv0 linearInterpolation0
              props3 deck_second_table_missing eclipse_state_two_regions grid2
              gravity [record_table_1; record_table_2_1] [1; 0] 1
              record_table_2_1 eq_refl eq_refl eq_refl eq_refl)
    as [Hnever Hregion].
  { cbn. unfold INT_MAX. lia. }
  split; [exact Hnever|].
  destruct (Hregion 0%nat eq_refl) as (Hthrow & _ & Hctor).
  split; [exact Hthrow|].
  destruct Hctor as (pushed & Hleaves & Hlen & Hpushed).
  - intros [|j] Hj; [|lia]. eexists. reflexivity.
  - exists pushed. split; [exact Hleaves|]. split; [exact Hlen|].
    apply Hpushed; [lia | reflexivity].
Defined.

(** Table index 3 with two RVVD tables, VAPOIL only. *)
Lemma missing_RVVD_table_rejected_witness :
  getEquil deck_table_3_vapoil = Ok [record_table_3]
  /\ length (getRvvdTables eclipse_state) = 2%nat
  /\ (forall self,
        constructor0 props3 deck_table_3_vapoil eclipse_state grid2 gravity
        <> (Ok tt, self))
  /\ forall cell,
       deref_begin (RegionMapping.cells {| RegionMapping.region_of_cell := [0; 0] |} 0)
       = Ok cell ->
       rv_func_of_region props3 {| RegionMapping.region_of_cell := [0; 0] |}
         (getRvvdTables eclipse_state) [record_table_3] 0
       = Throw (rvvd_not_available 3)
       /\ (create_rs_functions props3 deck_table_3_vapoil eclipse_state
             {| RegionMapping.region_of_cell := [0; 0] |} [record_table_3]
           <> Undefined ->
           (forall j, (j < 0)%nat ->
              rv_func_of_region props3 {| RegionMapping.region_of_cell := [0; 0] |}
                (getRvvdTables eclipse_state) [record_table_3] j <> Undefined) ->
           exists e self,
             constructor0 props3 deck_table_3_vapoil eclipse_state grid2 gravity
             = (Throw e, self)
             /\ is_runtime_error e = true).
Proof.
  split; [reflexivity|]. split; [reflexivity|].
  apply (missing_RVVD_table_rejected phasePressures0 temperature0 phaseSaturations0
           satRs0 satRv0 linearInterpolation0
           props3 deck_table_3_vapoil eclipse_state grid2 gravity [record_table_3]
           [0; 0] 0 record_table_3).
  - reflexivity.
  - reflexivity.
  - reflexivity.
  - reflexivity.
  - cbn. unfold INT_MAX. lia.
Defined.

(** Cells 0 and 3 first or cells 1 and 2 first. *)
Lemma copyFromRegion_disjoint_commute_witness :
  copyFromRegion [10; 20]%float [0; 3]%nat [0; 0; 0; 0]%float
  = Ok [10; 0; 0; 20]%float
  /\ copyFromRegion [30; 40]%float [2; 1]%nat [10; 0; 0; 20]%float
     = Ok [10; 40; 30; 20]%float
  /\ exists d2,
      copyFromRegion [30; 40]%float [2; 1]%nat [0; 0; 0; 0]%float = Ok d2
      /\ copyFromRegion [10; 20]%float [0; 3]%nat d2 = Ok [10; 40; 30; 20]%float.
Proof.
  split; [reflexivity|]. split; [reflexivity|].
  apply (copyFromRegion_disjoint_commute [10; 20]%float [30; 40]%float
           [0; 3]%nat [2; 1]%nat [0; 0; 0; 0]%float [10; 0; 0; 20]%float
           [10; 40; 30; 20]%float).
  - reflexivity.
  - reflexivity.
  - intros c Hc Hc'.
    apply elem_of_cons in Hc as [->|Hc];
      [|apply elem_of_cons in Hc as [->|Hc]; [|by apply elem_of_nil in Hc]];
      (apply elem_of_cons in Hc' as [Hc'|Hc'];
        [lia | apply elem_of_cons in Hc' as [Hc'|Hc'];
                 [lia | by apply elem_of_nil in Hc']]).
Defined.

(** One record, both cells in region 0. *)
Lemma constructed_regions_have_records_witness :
  constructor0 props3 deck_table_2 eclipse_state grid2 gravity
  = (Ok tt, computer_table_2)
  /\ equilnum deck_table_2 eclipse_state grid2 = Ok [0; 0]
  /\ 0 < Z.of_nat (length [record_table_2]).
Proof.
  split; [vm_compute; reflexivity|]. split; [reflexivity|].
  apply (constructed_regions_have_records phasePressures0 temperature0
           phaseSaturations0 satRs0 satRv0 linearInterpolation0
           props3 deck_table_2 eclipse_state grid2 gravity [record_table_2]
           [0; 0] computer_table_2 1 0).
  - vm_compute. reflexivity.
  - reflexivity.
  - reflexivity.
  - reflexivity.
  - lia.
Defined.

(** The two-cell grid with and without the identity mapping, under EQLNUM. *)
Lemma identity_global_cell_witness :
  global_cell grid2_identity = Some [0; 1]
  /\ equilnum deck_two_regions eclipse_state_two_regions grid2_identity
     = equilnum deck_two_regions eclipse_state_two_regions grid2
  /\ read_swat_init deck_two_regions eclipse_state_two_regions grid2_identity []
     = read_swat_init deck_two_regions eclipse_state_two_regions grid2 [].
Proof.
  split; [reflexivity|].
  apply (identity_global_cell deck_two_regions eclipse_state_two_regions
           grid2 grid2_identity []); reflexivity.
Defined.

End EquilFurtherWitnesses.
